(** * OPC-UA gateway: value distribution and persistence core

    A shallow embedding of the gateway's Python sources
    ([connectors/opcua_connector.py], [connectors/db_connector.py],
    [connectors/unity_connector.py], [main.py]) and the properties of the
    specification checked against it.

    Python objects are records, instance attributes are record fields,
    methods are computations in a state-and-exception monad over the whole
    process state ([World]).  The OPC-UA server, the MariaDB server, the
    wall clock and the thread table are the environment ([Env]). *)

From Stdlib Require Import ZArith List String Ascii Bool Lia.
From Stdlib Require Import Floats.SpecFloat.
From stdpp Require Import base option list strings gmap pretty.

Local Open Scope string_scope.
Local Open Scope list_scope.
Local Open Scope Z_scope.

(** ** Python exceptions and results *)

(** The subclasses of [Exception] the gateway can meet. *)
Inductive exn : Type :=
| ValueError
| TypeError
| OverflowError
| KeyError (key : string)
| AttributeError
| RuntimeError (msg : string)
| MariadbError
| UaError
| OSError
| ListenerError (msg : string).

Inductive result (A : Type) : Type :=
| Ok (a : A)
| Raise (e : exn).
Arguments Ok {A} a.
Arguments Raise {A} e.

(** [except mariadb.Error] *)
Definition is_mariadb_Error (e : exn) : bool :=
  match e with MariadbError => true | _ => false end.

(** [except (ValueError, TypeError)] *)
Definition is_ValueError_or_TypeError (e : exn) : bool :=
  match e with ValueError | TypeError => true | _ => false end.

(** [except Exception] *)
Definition is_Exception (e : exn) : bool := true.

(** ** Python dictionaries

    A [dict] keeps its keys in insertion order, and assigning to a key that
    is already present keeps the key's position. *)

Section PyDict.
Context {V : Type}.

Definition PyDict := list (string * V).

Definition keys (d : PyDict) : list string := map fst d.

(** [d.get(k)] *)
Fixpoint dict_get (k : string) (d : PyDict) : option V :=
  match d with
  | [] => None
  | (k', v) :: d' => if decide (k = k') then Some v else dict_get k d'
  end.

(** [k in d] *)
Definition dict_mem (k : string) (d : PyDict) : bool :=
  match dict_get k d with Some _ => true | None => false end.

(** [d[k] = v] *)
Fixpoint dict_set (k : string) (v : V) (d : PyDict) : PyDict :=
  match d with
  | [] => [(k, v)]
  | (k', v') :: d' =>
      if decide (k = k') then (k', v) :: d' else (k', v') :: dict_set k v d'
  end.

(** [not d] *)
Definition dict_is_empty (d : PyDict) : bool :=
  match d with [] => true | _ => false end.
End PyDict.
Arguments PyDict V : clear implicits.

(** ** Values carried by the gateway *)

(** A Python [float]: an IEEE 754 binary64 number. *)
Definition binary64 : Type := spec_float.

(** Instants are microseconds of the gateway's local clock.  A timestamp is
    either a [datetime] object or the string its [isoformat()] gives. *)
Inductive PyTime : Type :=
| Datetime (t : Z)
| IsoString (t : Z).

(** The instant a timestamp denotes. *)
Definition instant (ts : PyTime) : Z :=
  match ts with Datetime t | IsoString t => t end.

(** [ts.isoformat() if hasattr(ts, 'isoformat') else str(ts)] *)
Definition isoformat_or_str (ts : PyTime) : PyTime :=
  match ts with Datetime t => IsoString t | IsoString t => IsoString t end.

(** The payload of a data-change notification or of a read, as the OPC-UA
    client library decodes a Variant. *)
#[warnings="-register-all"]
Inductive PyValue : Type :=
| PyNone
| PyBool (b : bool)
| PyInt (n : Z)
| PyFloat (x : binary64)
| PyStr (s : string)
| PyBytes (s : string)
| PyDatetime (t : Z)
| PyList (items : list PyValue)
| PyObject (cls : string).

(** An entry of [nodes_to_monitor]. *)
Module NodeInfo.
Record t : Type := mk { id : string; name : string; unit : string }.
End NodeInfo.

(** A cache entry [{"value": .., "unit": .., "timestamp": ..}]. *)
Module Sample.
Record t : Type :=
  mk { value : option binary64; unit : string; timestamp : PyTime }.
End Sample.

(** Callables registered with [add_value_callback]. *)
Inductive Callback : Type :=
| cb_db_update_callback
| cb_on_value_update
| cb_listener (n : nat).

Global Instance Callback_eq_dec : EqDecision Callback.
Proof. solve_decision. Defined.

Inductive Thread : Type :=
| MainThread
| LoggingThread (n : nat).

Global Instance Thread_eq_dec : EqDecision Thread.
Proof. solve_decision. Defined.

(** ** Object state *)

(** Instance attributes of [OpcUaConnector].  [client] and [subscription]
    hold whether the attribute is not [None]. *)
Module OpcUaConnector.
Record t : Type := mk {
  nodes_to_monitor : list NodeInfo.t;
  client : bool;
  subscription : bool;
  handles : list string;
  connected : bool;
  latest_values : PyDict Sample.t;
  value_callbacks : list Callback }.

Definition set_client b (s : t) :=
  mk (nodes_to_monitor s) b (subscription s) (handles s) (connected s)
     (latest_values s) (value_callbacks s).
Definition set_subscription b (s : t) :=
  mk (nodes_to_monitor s) (client s) b (handles s) (connected s)
     (latest_values s) (value_callbacks s).
Definition set_handles h (s : t) :=
  mk (nodes_to_monitor s) (client s) (subscription s) h (connected s)
     (latest_values s) (value_callbacks s).
Definition set_connected b (s : t) :=
  mk (nodes_to_monitor s) (client s) (subscription s) (handles s) b
     (latest_values s) (value_callbacks s).
Definition set_latest_values d (s : t) :=
  mk (nodes_to_monitor s) (client s) (subscription s) (handles s)
     (connected s) d (value_callbacks s).
Definition set_value_callbacks c (s : t) :=
  mk (nodes_to_monitor s) (client s) (subscription s) (handles s)
     (connected s) (latest_values s) c.
End OpcUaConnector.

(** Instance attributes of [DbConnector].  [enabled] and [log_interval] are
    what [getboolean] and [getint] give for the two options of the
    [DATABASE] section the connector reads, fallbacks applied, and [None]
    when the text of the option does not parse ([ValueError]); [conn] and
    [cursor] hold whether the attribute is not [None]; [shutdown_event]
    holds whether the event is set. *)
Module DbConnector.
Record t : Type := mk {
  enabled : option bool;
  log_interval : option Z;
  conn : bool;
  cursor : bool;
  connected : bool;
  current_values : PyDict Sample.t;
  opc_to_db_mapping : gmap string string;
  logging_active : bool;
  logging_thread : option Thread;
  shutdown_event : bool }.

Definition set_conn b (s : t) :=
  mk (enabled s) (log_interval s) b (cursor s) (connected s)
     (current_values s) (opc_to_db_mapping s) (logging_active s)
     (logging_thread s) (shutdown_event s).
Definition set_cursor b (s : t) :=
  mk (enabled s) (log_interval s) (conn s) b (connected s)
     (current_values s) (opc_to_db_mapping s) (logging_active s)
     (logging_thread s) (shutdown_event s).
Definition set_connected b (s : t) :=
  mk (enabled s) (log_interval s) (conn s) (cursor s) b
     (current_values s) (opc_to_db_mapping s) (logging_active s)
     (logging_thread s) (shutdown_event s).
Definition set_current_values d (s : t) :=
  mk (enabled s) (log_interval s) (conn s) (cursor s) (connected s)
     d (opc_to_db_mapping s) (logging_active s)
     (logging_thread s) (shutdown_event s).
Definition set_opc_to_db_mapping m (s : t) :=
  mk (enabled s) (log_interval s) (conn s) (cursor s) (connected s)
     (current_values s) m (logging_active s)
     (logging_thread s) (shutdown_event s).
Definition set_logging_active b (s : t) :=
  mk (enabled s) (log_interval s) (conn s) (cursor s) (connected s)
     (current_values s) (opc_to_db_mapping s) b
     (logging_thread s) (shutdown_event s).
Definition set_logging_thread th (s : t) :=
  mk (enabled s) (log_interval s) (conn s) (cursor s) (connected s)
     (current_values s) (opc_to_db_mapping s) (logging_active s)
     th (shutdown_event s).
Definition set_shutdown_event b (s : t) :=
  mk (enabled s) (log_interval s) (conn s) (cursor s) (connected s)
     (current_values s) (opc_to_db_mapping s) (logging_active s)
     (logging_thread s) b.
End DbConnector.

(** Instance attributes of [UnityConnector].  The process has one
    [DbConnector]; [db] holds whether [self.db] refers to it. *)
Module UnityConnector.
Record t : Type := mk {
  db : bool;
  latest_values : PyDict Sample.t;
  running : bool }.

Definition set_db b (s : t) := mk b (latest_values s) (running s).
Definition set_latest_values d (s : t) := mk (db s) d (running s).
Definition set_running b (s : t) := mk (db s) (latest_values s) b.
End UnityConnector.

(** ** The environment *)

(** A parameter bound to a [?] of an SQL statement. *)
Inductive SqlParam : Type :=
| SqlNull
| SqlDouble (x : binary64)
| SqlText (s : string)
| SqlInt (n : Z).

(** How the driver binds a cached value: [None] is SQL [NULL]. *)
Definition sql_of_value (v : option binary64) : SqlParam :=
  match v with Some x => SqlDouble x | None => SqlNull end.

(** What the process does to the outside, in the order it happens. *)
Inductive Effect : Type :=
| EDbConnect
| EDbClose
| EExecute (query : string) (params : list SqlParam)
| ECommit
| ESelectTagnames
| ESelectHistory (field_name : string) (hours limit : Z)
| ESleep (secs : Z)
| EThreadStart (th : Thread) (interval : Z)
| EJoin (th : Thread)
| EListener (n : nat) (name : string) (value : option binary64)
            (unit : string) (timestamp : PyTime).

(** The wall clock ([clock] at the [clock_reads]-th read), the thread
    table, the answers of the OPC-UA server and of the MariaDB server, the
    behaviour of listeners foreign to the gateway, and the effects so far. *)
Record Env : Type := mkEnv {
  clock : nat -> Z;
  clock_reads : nat;
  current_thread : Thread;
  alive : list Thread;
  threads_started : nat;
  certificates_ok : bool;
  opc_connect_ok : bool;
  opc_disconnect_ok : bool;
  create_subscription_ok : bool;
  subscribe_ok : string -> bool;
  node_value : string -> result PyValue;
  db_server_up : bool;
  tagnames : option (list (string * string));
  insert_ok : bool;
  commit_ok : bool;
  close_ok : bool;
  history : string -> Z -> Z -> option (list (PyTime * option binary64));
  listener_raises : nat -> option exn;
  http_server_ok : bool;
  trace : list Effect }.

Definition set_clock_reads n (e : Env) :=
  mkEnv (clock e) n (current_thread e) (alive e) (threads_started e)
        (certificates_ok e) (opc_connect_ok e) (opc_disconnect_ok e) (create_subscription_ok e)
        (subscribe_ok e) (node_value e) (db_server_up e) (tagnames e)
        (insert_ok e) (commit_ok e) (close_ok e) (history e)
        (listener_raises e) (http_server_ok e) (trace e).
Definition set_current_thread th (e : Env) :=
  mkEnv (clock e) (clock_reads e) th (alive e) (threads_started e)
        (certificates_ok e) (opc_connect_ok e) (opc_disconnect_ok e) (create_subscription_ok e)
        (subscribe_ok e) (node_value e) (db_server_up e) (tagnames e)
        (insert_ok e) (commit_ok e) (close_ok e) (history e)
        (listener_raises e) (http_server_ok e) (trace e).
Definition set_alive l (e : Env) :=
  mkEnv (clock e) (clock_reads e) (current_thread e) l (threads_started e)
        (certificates_ok e) (opc_connect_ok e) (opc_disconnect_ok e) (create_subscription_ok e)
        (subscribe_ok e) (node_value e) (db_server_up e) (tagnames e)
        (insert_ok e) (commit_ok e) (close_ok e) (history e)
        (listener_raises e) (http_server_ok e) (trace e).
Definition set_threads_started n (e : Env) :=
  mkEnv (clock e) (clock_reads e) (current_thread e) (alive e) n
        (certificates_ok e) (opc_connect_ok e) (opc_disconnect_ok e) (create_subscription_ok e)
        (subscribe_ok e) (node_value e) (db_server_up e) (tagnames e)
        (insert_ok e) (commit_ok e) (close_ok e) (history e)
        (listener_raises e) (http_server_ok e) (trace e).
Definition set_insert_ok b (e : Env) :=
  mkEnv (clock e) (clock_reads e) (current_thread e) (alive e)
        (threads_started e) (certificates_ok e)
        (opc_connect_ok e) (opc_disconnect_ok e) (create_subscription_ok e)
        (subscribe_ok e) (node_value e) (db_server_up e) (tagnames e)
        b (commit_ok e) (close_ok e) (history e)
        (listener_raises e) (http_server_ok e) (trace e).
Definition set_tagnames rows (e : Env) :=
  mkEnv (clock e) (clock_reads e) (current_thread e) (alive e)
        (threads_started e) (certificates_ok e)
        (opc_connect_ok e) (opc_disconnect_ok e) (create_subscription_ok e)
        (subscribe_ok e) (node_value e) (db_server_up e) rows
        (insert_ok e) (commit_ok e) (close_ok e) (history e)
        (listener_raises e) (http_server_ok e) (trace e).
Definition set_trace tr (e : Env) :=
  mkEnv (clock e) (clock_reads e) (current_thread e) (alive e)
        (threads_started e)
        (certificates_ok e) (opc_connect_ok e) (opc_disconnect_ok e) (create_subscription_ok e)
        (subscribe_ok e) (node_value e) (db_server_up e) (tagnames e)
        (insert_ok e) (commit_ok e) (close_ok e) (history e)
        (listener_raises e) (http_server_ok e) tr.

(** The process: the three module-level objects of [main.py] and the
    environment.  [db_connector] and [unity_connector] are [None] until
    [main] creates them. *)
Record World : Type := mkWorld {
  opcua_connector : OpcUaConnector.t;
  db_connector : option DbConnector.t;
  unity_connector : option UnityConnector.t;
  env : Env }.

Definition set_opcua o (w : World) :=
  mkWorld o (db_connector w) (unity_connector w) (env w).
Definition set_db_connector d (w : World) :=
  mkWorld (opcua_connector w) d (unity_connector w) (env w).
Definition set_unity_connector u (w : World) :=
  mkWorld (opcua_connector w) (db_connector w) u (env w).
Definition set_env e (w : World) :=
  mkWorld (opcua_connector w) (db_connector w) (unity_connector w) e.

(** ** The monad of Python computations *)

Definition M (A : Type) : Type := World -> result A * World.

Definition ret {A} (a : A) : M A := fun w => (Ok a, w).

Definition bind {A B} (m : M A) (k : A -> M B) : M B :=
  fun w => match m w with
           | (Ok a, w') => k a w'
           | (Raise e, w') => (Raise e, w')
           end.

Definition raise {A} (e : exn) : M A := fun w => (Raise e, w).

Definition get_world : M World := fun w => (Ok w, w).

Definition modify (f : World -> World) : M unit := fun w => (Ok tt, f w).

(** [try: body  except <catches>: handler] *)
Definition try_except {A} (body : M A) (catches : exn -> bool)
    (handler : exn -> M A) : M A :=
  fun w => match body w with
           | (Ok a, w') => (Ok a, w')
           | (Raise e, w') =>
               if catches e then handler e w' else (Raise e, w')
           end.

(** [try: body  finally: final] *)
Definition try_finally {A} (body : M A) (final : M unit) : M A :=
  fun w => match body w with
           | (r, w') =>
               match final w' with
               | (Ok _, w'') => (r, w'')
               | (Raise e, w'') => (Raise e, w'')
               end
           end.

Declare Scope py_scope.
Delimit Scope py_scope with py.
Notation "'let!' x ':=' m 'in' k" := (bind m (fun x => k))
  (at level 10, x name, m at level 100, k at level 200) : py_scope.
Notation "m '>>' k" := (bind m (fun _ => k))
  (at level 100, k at level 200, right associativity) : py_scope.
Local Open Scope py_scope.

(** [for x in l: body x] *)
Fixpoint for_each {A} (l : list A) (body : A -> M unit) : M unit :=
  match l with
  | [] => ret tt
  | x :: l' => body x >> for_each l' body
  end.

Definition state_after {A} (m : M A) (w : World) : World := snd (m w).
Definition outcome {A} (m : M A) (w : World) : result A := fst (m w).

(** *** Primitive operations on the environment *)

Definition emit (ef : Effect) : M unit :=
  modify (fun w => set_env (set_trace (trace (env w) ++ [ef]) (env w)) w).

(** [datetime.datetime.now()]: the instant read. *)
Definition datetime_now : M Z :=
  fun w =>
    let e := env w in
    (Ok (clock e (clock_reads e)),
     set_env (set_clock_reads (S (clock_reads e)) e) w).

(** A computation that touches no state. *)
Definition liftR {A} (r : result A) : M A := fun w => (r, w).

(** Reads the environment. *)
Definition ask {A} (f : Env -> A) : M A := fun w => (Ok (f (env w)), w).

(** A call to a server that either succeeds or raises [e]. *)
Definition server_call (ok : Env -> bool) (e : exn) : M unit :=
  fun w => if ok (env w) then (Ok tt, w) else (Raise e, w).

(** [time.sleep(secs)] *)
Definition time_sleep (secs : Z) : M unit := emit (ESleep secs).

(** ** The builtins [float] and [round]

    A model of CPython's [float(x)] and [round(x, 2)] on binary64, with
    exact integer arithmetic and one correct rounding (to nearest, ties to
    even) at the end.  A [string] stands for a Python [str] or [bytes] with
    code points below 256. *)

Definition code (c : ascii) : Z := Z.of_N (N_of_ascii c).

Definition is_digit (c : ascii) : bool := (48 <=? code c) && (code c <=? 57).

Definition digit_value (c : ascii) : Z := code c - 48.

(** [Py_ISSPACE], the whitespace [float] strips from [bytes]. *)
Definition bytes_isspace (c : ascii) : bool :=
  ((9 <=? code c) && (code c <=? 13)) || (code c =? 32).

(** The whitespace [float] strips from a [str]: the text is first made
    ASCII, which keeps every character below 127 as it is and turns the
    spaces above ([Py_UNICODE_ISSPACE]: 133 and 160 below 256) into blanks,
    and [Py_ISSPACE] is stripped from the result.  The separators 28 to 31
    are spaces for [str.isspace] but are not stripped. *)
Definition str_float_isspace (c : ascii) : bool :=
  bytes_isspace c || (code c =? 133) || (code c =? 160).

Definition tolower (c : ascii) : ascii :=
  if (65 <=? code c) && (code c <=? 90)
  then ascii_of_N (N_of_ascii c + 32) else c.

Fixpoint lstrip (ws : ascii -> bool) (s : list ascii) : list ascii :=
  match s with
  | c :: s' => if ws c then lstrip ws s' else s
  | [] => []
  end.

Definition strip (ws : ascii -> bool) (s : list ascii) : list ascii :=
  rev (lstrip ws (rev (lstrip ws s))).

(** The nearest binary64 to [(-1)^neg * num / den], for [0 <= num] and
    [0 < den]: a quotient of at least 64 bits with a sticky last bit, then
    rounded once. *)
Definition Q_to_binary64 (neg : bool) (num den : Z) : binary64 :=
  if num =? 0 then S754_zero neg else
  let s := Z.max 0 (Z.log2 den - Z.log2 num + 64) in
  let q := (num * 2 ^ s) / den in
  let sticky := if (num * 2 ^ s) mod den =? 0 then 0 else 1 in
  match 2 * q + sticky with
  | Zpos m => binary_round 53 1024 neg m (- (s + 1))
  | _ => S754_zero neg
  end.

(** The nearest binary64 to [(-1)^neg * mant * 10^e10], for [0 <= mant]. *)
Definition decimal_to_binary64 (neg : bool) (mant e10 : Z) : binary64 :=
  if 0 <=? e10 then Q_to_binary64 neg (mant * 10 ^ e10) 1
  else Q_to_binary64 neg mant (10 ^ (- e10)).

(** [float(n)] for an [int]: [OverflowError] when [n] rounds to [2^1024]. *)
Definition int_to_binary64 (n : Z) : result binary64 :=
  if 2 ^ 1024 - 2 ^ 970 <=? Z.abs n then Raise OverflowError
  else Ok (Q_to_binary64 (n <? 0) (Z.abs n) 1).

(** Underscores of a numeric literal: allowed only between two digits, and
    dropped. *)
Fixpoint strip_underscores (prev : ascii) (s : list ascii)
    : option (list ascii) :=
  match s with
  | [] => if Ascii.eqb prev "_" then None else Some []
  | c :: s' =>
      if Ascii.eqb c "_" then
        if is_digit prev then strip_underscores c s' else None
      else if Ascii.eqb prev "_" && negb (is_digit c) then None
      else option_map (cons c) (strip_underscores c s')
  end.

Definition parse_sign (s : list ascii) : bool * list ascii :=
  match s with
  | c :: s' =>
      if Ascii.eqb c "-" then (true, s')
      else if Ascii.eqb c "+" then (false, s') else (false, s)
  | [] => (false, [])
  end.

(** Reads a run of digits: the number read so far, how many digits, and
    the rest. *)
Fixpoint take_digits (acc n : Z) (s : list ascii) : Z * Z * list ascii :=
  match s with
  | c :: s' =>
      if is_digit c then take_digits (10 * acc + digit_value c) (n + 1) s'
      else (acc, n, s)
  | [] => (acc, n, [])
  end.

(** [inf], [infinity] and [nan], in any case, with an optional sign. *)
Definition parse_inf_or_nan (s : list ascii) : option binary64 :=
  let '(neg, s1) := parse_sign s in
  let l := string_of_list_ascii (map tolower s1) in
  if String.eqb l "inf" || String.eqb l "infinity" then Some (S754_infinity neg)
  else if String.eqb l "nan" then Some S754_nan
  else None.

(** A decimal literal [[sign] digits [. digits] [(e|E) [sign] digits]] with
    at least one digit in the mantissa; the whole text must be used. *)
Definition parse_decimal (s : list ascii) : option binary64 :=
  let '(neg, s1) := parse_sign s in
  let '(ip, ni, s2) := take_digits 0 0 s1 in
  let '(mant, nf, s3) :=
    match s2 with
    | c :: s2' => if Ascii.eqb c "." then take_digits ip 0 s2' else (ip, 0, s2)
    | [] => (ip, 0, s2)
    end in
  if ni + nf =? 0 then None else
  match s3 with
  | [] => Some (decimal_to_binary64 neg mant (- nf))
  | c :: s4 =>
      if Ascii.eqb (tolower c) "e" then
        let '(eneg, s5) := parse_sign s4 in
        let '(ev, ne, s6) := take_digits 0 0 s5 in
        if ne =? 0 then None else
        match s6 with
        | [] => Some (decimal_to_binary64 neg mant
                        ((if eneg then - ev else ev) - nf))
        | _ => None
        end
      else None
  end.

(** [float(s)] for text: [None] stands for [ValueError]. *)
Definition float_from_string (ws : ascii -> bool) (s : string)
    : option binary64 :=
  match strip_underscores "000" (strip ws (list_ascii_of_string s)) with
  | None => None
  | Some l =>
      match parse_decimal l with
      | Some x => Some x
      | None => parse_inf_or_nan l
      end
  end.

(** [float(x)] *)
Definition py_float (x : PyValue) : result binary64 :=
  match x with
  | PyBool b => Ok (if b then Q_to_binary64 false 1 1 else S754_zero false)
  | PyInt n => int_to_binary64 n
  | PyFloat f => Ok f
  | PyStr s =>
      match float_from_string str_float_isspace s with
      | Some f => Ok f
      | None => Raise ValueError
      end
  | PyBytes s =>
      match float_from_string bytes_isspace s with
      | Some f => Ok f
      | None => Raise ValueError
      end
  | PyNone | PyDatetime _ | PyList _ | PyObject _ => Raise TypeError
  end.

(** The integer nearest to [num / den], ties to even, for [0 < den]. *)
Definition round_half_even (num den : Z) : Z :=
  let q := num / den in
  let r := num mod den in
  match 2 * r ?= den with
  | Lt => q
  | Gt => q + 1
  | Eq => if Z.even q then q else q + 1
  end.

(** The number of hundredths nearest to a finite float [m * 2^e]. *)
Definition hundredths (m : positive) (e : Z) : Z :=
  if 0 <=? e then Zpos m * 2 ^ e * 100
  else round_half_even (Zpos m * 100) (2 ^ (- e)).

(** [round(x, 2)]: the exact value is rounded to two decimals, ties to
    even, and the decimal obtained is converted back; zeros, infinities and
    NaN round to themselves. *)
Definition py_round2 (x : binary64) : binary64 :=
  match x with
  | S754_finite s m e => decimal_to_binary64 s (hundredths m e) (-2)
  | _ => x
  end.

(** ** The configuration file: [configparser]

    A parsed configuration is, for each section, the options the section
    shows (its own and those of [DEFAULT]) with their raw texts; option
    names are stored in lower case.  Reading an option interpolates its
    text, as [BasicInterpolation] does. *)

Module configparser.
(** [c.lower()] for a character below 256. *)
Definition lower_char (c : ascii) : ascii :=
  let n := code c in
  if ((65 <=? n) && (n <=? 90))
     || ((192 <=? n) && (n <=? 222) && negb (n =? 215))
  then ascii_of_N (N_of_ascii c + 32) else c.

(** [s.lower()] *)
Definition str_lower (s : string) : string :=
  string_of_list_ascii (map lower_char (list_ascii_of_string s)).

(** [optionxform(optionstr)] *)
Definition optionxform (optionstr : string) : string := str_lower optionstr.

(** What reading an option can raise: the errors of [get], those of the
    interpolation, and the [ValueError] of [getboolean]. *)
Inductive raised : Type :=
| NoSectionError (section : string)
| NoOptionError (option section : string)
| InterpolationSyntaxError (option section : string)
| InterpolationMissingOptionError (option section reference : string)
| InterpolationDepthError (option section : string)
| NotABoolean (value : string).

Definition MAX_INTERPOLATION_DEPTH : nat := 10.

(** Where the scan of a text stands: in the text, or inside a reference
    [%(name)s] of which [name] has been read so far. *)
Inductive scanning : Type :=
| Text
| Reference (name : list ascii).

Definition is_char (c d : ascii) : bool := Ascii.eqb c d.

(** ["%" in v] *)
Definition has_percent (v : string) : bool :=
  existsb (is_char "%") (list_ascii_of_string v).

(** [BasicInterpolation._interpolate_some], for the [depths_left] levels
    that remain below [MAX_INTERPOLATION_DEPTH]: the text [rest] is
    appended to [accum], with [%%] read as [%] and [%(name)s] replaced by
    the interpolated text of the option [name] of [map]. *)
Fixpoint _interpolate_some (depths_left : nat) (opt section : string)
    (map : gmap string string) (rest accum : list ascii)
    : raised + list ascii :=
  match depths_left with
  | O => inl (InterpolationDepthError opt section)
  | S depths_left' =>
      (fix scan (rest : list ascii) (at_ : scanning) (accum : list ascii)
           {struct rest} : raised + list ascii :=
         match rest with
         | [] =>
             match at_ with
             | Text => inr accum
             | Reference _ => inl (InterpolationSyntaxError opt section)
             end
         | c :: rest1 =>
             match at_ with
             | Text =>
                 if is_char "%" c then
                   match rest1 with
                   | [] => inl (InterpolationSyntaxError opt section)
                   | c1 :: rest2 =>
                       if is_char "%" c1 then scan rest2 Text (accum ++ ["%"%char])
                       else if is_char "(" c1
                       then scan rest2 (Reference []) accum
                       else inl (InterpolationSyntaxError opt section)
                   end
                 else scan rest1 Text (accum ++ [c])
             | Reference name =>
                 if is_char ")" c then
                   match name, rest1 with
                   | _ :: _, c1 :: rest2 =>
                       if is_char "s" c1 then
                         let var :=
                           optionxform (string_of_list_ascii name) in
                         match map !! var with
                         | None =>
                             inl (InterpolationMissingOptionError
                                    opt section var)
                         | Some v =>
                             if has_percent v then
                               match _interpolate_some depths_left' opt
                                       section map (list_ascii_of_string v)
                                       accum with
                               | inl e => inl e
                               | inr accum' => scan rest2 Text accum'
                               end
                             else
                               scan rest2 Text
                                 (accum ++ list_ascii_of_string v)
                         end
                       else inl (InterpolationSyntaxError opt section)
                   | _, _ => inl (InterpolationSyntaxError opt section)
                   end
                 else scan rest1 (Reference (name ++ [c])) accum
             end
         end) rest Text accum
  end.

(** [BasicInterpolation.before_get] *)
Definition before_get (section opt value : string)
    (defaults : gmap string string) : raised + string :=
  match _interpolate_some MAX_INTERPOLATION_DEPTH opt section defaults
          (list_ascii_of_string value) [] with
  | inl e => inl e
  | inr l => inr (string_of_list_ascii l)
  end.

(** [config.get(section, opt)] once the options [d] of the section are
    found, and [config.get(section, opt, fallback=v)] when [fallback] is
    [Some v]. *)
Definition get_option (section : string) (d : gmap string string)
    (opt : string) (fallback : option string) : raised + string :=
  let opt := optionxform opt in
  match d !! opt with
  | None =>
      match fallback with
      | Some v => inr v
      | None => inl (NoOptionError opt section)
      end
  | Some value => before_get section opt value d
  end.

(** [config.get(section, opt)] and [config.get(section, opt,
    fallback=v)] *)
Definition get (config : gmap string (gmap string string))
    (section opt : string) (fallback : option string) : raised + string :=
  match config !! section with
  | None =>
      match fallback with
      | Some v => inr v
      | None => inl (NoSectionError section)
      end
  | Some d => get_option section d opt fallback
  end.

(** [config.has_option(section, opt)] once the options [d] of the section
    are found. *)
Definition has_option (d : gmap string string) (opt : string) : bool :=
  bool_decide (is_Some (d !! optionxform opt)).

Definition BOOLEAN_STATES : PyDict bool :=
  [("1", true); ("yes", true); ("true", true); ("on", true);
   ("0", false); ("no", false); ("false", false); ("off", false)].

(** [_convert_to_boolean(value)]; [None] stands for [ValueError]. *)
Definition _convert_to_boolean (value : string) : option bool :=
  dict_get (str_lower value) BOOLEAN_STATES.

(** [config.getboolean(section, opt, fallback=fallback)]: the fallback
    when the section or the option is missing, the error of [get] when the
    text does not interpolate, [ValueError] for a text that is no
    boolean. *)
Definition getboolean (config : gmap string (gmap string string))
    (section opt : string) (fallback : bool) : raised + bool :=
  match get config section opt None with
  | inl (NoSectionError _) | inl (NoOptionError _ _) => inr fallback
  | inl e => inl e
  | inr value =>
      match _convert_to_boolean value with
      | Some b => inr b
      | None => inl (NotABoolean value)
      end
  end.
End configparser.

(** ** connectors/opcua_connector.py *)

Module opcua_connector.

(** [safe_float(value)] *)
Definition safe_float (value : PyValue) : result (option binary64) :=
  match py_float value with
  | Ok x => Ok (Some (py_round2 x))
  | Raise e => if is_ValueError_or_TypeError e then Ok None else Raise e
  end.

(** The parsed configuration file: for each section its options, as the
    section proxy shows them. *)
Definition ConfigParser : Type := gmap string (gmap string string).

(** What building the connector can raise: the errors of [config.get],
    the [KeyError] of [config[section]] and of [section[option]]. *)
Inductive init_error : Type :=
| ConfigError (e : configparser.raised)
| SectionKeyError (section : string)
| OptionKeyError (option : string).

Definition config_result {A} (r : configparser.raised + A) : init_error + A :=
  match r with
  | inl e => inl (ConfigError e)
  | inr a => inr a
  end.

(** [config.get(section, option)] *)
Definition config_get (config : ConfigParser) (section option : string)
    : init_error + string :=
  config_result (configparser.get config section option None).

(** The section proxy [monitoring_section = self.config['MONITORING']]
    hands every request to the parser, with the name of its section. *)

(** [key in monitoring_section] *)
Definition section_contains (monitoring_section : gmap string string)
    (key : string) : bool :=
  configparser.has_option monitoring_section key.

(** [monitoring_section[key]] *)
Definition section_getitem (monitoring_section : gmap string string)
    (key : string) : init_error + string :=
  if section_contains monitoring_section key
  then config_result
         (configparser.get_option "MONITORING" monitoring_section key None)
  else inl (OptionKeyError key).

(** [monitoring_section.get(key, fallback)] *)
Definition section_get (monitoring_section : gmap string string)
    (key fallback : string) : init_error + string :=
  config_result
    (configparser.get_option "MONITORING" monitoring_section key
       (Some fallback)).

Definition node_key (i : nat) (attr : string) : string :=
  "node" +:+ pretty i +:+ attr.

(** The loop [while f'node{i}_id' in monitoring_section: ...; i += 1],
    run for at most [fuel] tests of its condition; [None] when the fuel
    does not reach the end of the loop. *)
Fixpoint monitoring_loop (fuel : nat) (monitoring_section : gmap string string)
    (i : nat) (nodes_to_monitor : list NodeInfo.t)
    : option (init_error + list NodeInfo.t) :=
  match fuel with
  | O => None
  | S fuel' =>
      if section_contains monitoring_section (node_key i "_id") then
        match section_getitem monitoring_section (node_key i "_id") with
        | inl e => Some (inl e)
        | inr node_id =>
            match section_getitem monitoring_section
                    (node_key i "_name") with
            | inl e => Some (inl e)
            | inr node_name =>
                match section_get monitoring_section
                        (node_key i "_unit") "" with
                | inl e => Some (inl e)
                | inr node_unit =>
                    monitoring_loop fuel' monitoring_section (S i)
                      (nodes_to_monitor
                         ++ [NodeInfo.mk node_id node_name node_unit])
                end
            end
        end
      else Some (inr nodes_to_monitor)
  end.

(** The loop run to its end: it tests its condition at most once more
    than the section has options (see [monitoring_loop_terminates]). *)
Definition load_nodes (monitoring_section : gmap string string)
    : init_error + list NodeInfo.t :=
  match monitoring_loop (S (size monitoring_section)) monitoring_section
          1%nat [] with
  | Some r => r
  | None => inr []
  end.

(** [OpcUaConnector.__init__] *)
Definition __init__ (config : ConfigParser) : init_error + OpcUaConnector.t :=
  match config_get config "OPCUA" "server_url" with
  | inl e => inl e
  | inr _ =>
  match config_get config "OPCUA" "application_uri" with
  | inl e => inl e
  | inr _ =>
  match config_get config "OPCUA" "security_policy" with
  | inl e => inl e
  | inr _ =>
  match config_get config "OPCUA" "security_mode" with
  | inl e => inl e
  | inr _ =>
  match config !! "MONITORING" with
  | None => inl (SectionKeyError "MONITORING")
  | Some monitoring_section =>
      match load_nodes monitoring_section with
      | inl e => inl e
      | inr nodes =>
          inr (OpcUaConnector.mk nodes false false [] false [] [])
      end
  end end end end end.

Definition self : M OpcUaConnector.t :=
  fun w => (Ok (opcua_connector w), w).

Definition update (f : OpcUaConnector.t -> OpcUaConnector.t) : M unit :=
  modify (fun w => set_opcua (f (opcua_connector w)) w).

(** [add_value_callback] *)
Definition add_value_callback (callback : Callback) : M unit :=
  update (fun o =>
    OpcUaConnector.set_value_callbacks
      (OpcUaConnector.value_callbacks o ++ [callback]) o).

(** [self.latest_values[name] = {...}] *)
Definition store_latest (name : string) (sample : Sample.t) : M unit :=
  update (fun o =>
    OpcUaConnector.set_latest_values
      (dict_set name sample (OpcUaConnector.latest_values o)) o).

(** [disconnect] *)
Definition disconnect : M unit :=
  (let! o := self in
   if OpcUaConnector.subscription o then
     try_except
       (for_each (OpcUaConnector.handles o)
          (fun handle => server_call opc_disconnect_ok UaError) >>
        server_call opc_disconnect_ok UaError >>
        update (OpcUaConnector.set_subscription false))
       is_Exception (fun _ => ret tt)
   else ret tt) >>
  let! o := self in
  if OpcUaConnector.client o then
    try_finally
      (try_except (server_call opc_disconnect_ok UaError)
         is_Exception (fun _ => ret tt))
      (update (OpcUaConnector.set_client false) >>
       update (OpcUaConnector.set_connected false))
  else ret tt.

(** [connect] *)
Definition connect : M bool :=
  try_except
    (server_call certificates_ok OSError >>
     update (OpcUaConnector.set_client true) >>
     server_call opc_connect_ok UaError >>
     update (OpcUaConnector.set_connected true) >>
     ret true)
    is_Exception
    (fun _ => disconnect >> ret false).

Section Dispatch.
(** What calling a registered callable does. *)
Variable invoke :
  Callback -> string -> option binary64 -> string -> PyTime -> M unit.

(** [_notify_callbacks]; the loop goes over the list of callbacks as it
    is when the loop starts. *)
Definition _notify_callbacks (name : string) (value : option binary64)
    (unit : string) : M () :=
  let! now := datetime_now in
  let timestamp := Datetime now in
  let! o := self in
  for_each (OpcUaConnector.value_callbacks o)
    (fun callback =>
       try_except (invoke callback name value unit timestamp)
         is_Exception (fun _ => ret tt)).

(** The body of the loop of [subscribe_to_nodes]. *)
Definition subscribe_node (node_info : NodeInfo.t) : M unit :=
  try_except
    (let node_id := NodeInfo.id node_info in
     (let! ok := ask (fun e => subscribe_ok e node_id) in
      if ok then ret tt else raise UaError) >>
     update (fun o =>
       OpcUaConnector.set_handles
         (OpcUaConnector.handles o ++ [node_id]) o) >>
     try_except
       (let! raw := (let! r := ask (fun e => node_value e node_id) in
                     liftR r) in
        let! value := liftR (safe_float raw) in
        let unit := NodeInfo.unit node_info in
        let! now := datetime_now in
        store_latest (NodeInfo.name node_info)
          (Sample.mk value unit (IsoString now)) >>
        _notify_callbacks (NodeInfo.name node_info) value unit)
       is_Exception (fun _ => ret tt))
    is_Exception (fun _ => ret tt).

(** [subscribe_to_nodes] *)
Definition subscribe_to_nodes : M bool :=
  let! o := self in
  if negb (OpcUaConnector.connected o) || negb (OpcUaConnector.client o)
  then ret false
  else
    try_except
      (server_call create_subscription_ok UaError >>
       update (OpcUaConnector.set_subscription true) >>
       update (OpcUaConnector.set_handles []) >>
       let! o := self in
       for_each (OpcUaConnector.nodes_to_monitor o) subscribe_node >>
       ret true)
      is_Exception (fun _ => ret false).

(** [SubHandler.datachange_notification]; [node] is the text
    [node.nodeid.to_string()] gives. *)
Definition datachange_notification (node : string) (val : PyValue)
    : M unit :=
  try_except
    (let node_id := node in
     let! o := self in
     match find (fun n => bool_decide (NodeInfo.id n = node_id))
             (OpcUaConnector.nodes_to_monitor o) with
     | Some node_info =>
         let name := NodeInfo.name node_info in
         let unit := NodeInfo.unit node_info in
         let! value := liftR (safe_float val) in
         let! now := datetime_now in
         store_latest name (Sample.mk value unit (IsoString now)) >>
         _notify_callbacks name value unit
     | None => ret tt
     end)
    is_Exception (fun _ => ret tt).
End Dispatch.
End opcua_connector.

(** ** connectors/db_connector.py *)

Module db_connector.
Import DbConnector.

(** The process's [DbConnector]; a method called on [None] raises
    [AttributeError]. *)
Definition self : M DbConnector.t :=
  fun w => match db_connector w with
           | Some d => (Ok d, w)
           | None => (Raise AttributeError, w)
           end.

Definition update (f : DbConnector.t -> DbConnector.t) : M unit :=
  fun w => match db_connector w with
           | Some d => (Ok tt, set_db_connector (Some (f d)) w)
           | None => (Raise AttributeError, w)
           end.

(** [DbConnector.__init__], given the two options of the [DATABASE]
    section. *)
Definition __init__ (enabled : option bool) (log_interval : option Z)
    : DbConnector.t :=
  mk enabled log_interval false false false [] ∅ false None false.

(** [self.config.getboolean(..)] and [self.config.getint(..)] *)
Definition config_value {A} (v : option A) : M A :=
  match v with Some a => ret a | None => raise ValueError end.

(** *** The driver *)

(** [mariadb.connect(...)] *)
Definition mariadb_connect : M unit :=
  emit EDbConnect >> server_call db_server_up MariadbError.

(** [self.cursor.execute(query, params)] for an [INSERT] *)
Definition cursor_execute (query : string) (params : list SqlParam)
    : M unit :=
  let! d := self in
  if negb (cursor d) then raise AttributeError
  else emit (EExecute query params) >> server_call insert_ok MariadbError.

(** [self.conn.commit()] *)
Definition conn_commit : M unit :=
  let! d := self in
  if negb (conn d) then raise AttributeError
  else server_call commit_ok MariadbError >> emit ECommit.

(** [self.conn.close()] *)
Definition conn_close : M unit :=
  emit EDbClose >> server_call close_ok MariadbError.

(** [Thread(target=self._logging_worker, args=(interval,))] then
    [start()]: the new thread is alive. *)
Definition thread_new : M Thread :=
  fun w =>
    let e := env w in
    (Ok (LoggingThread (threads_started e)),
     set_env (set_threads_started (S (threads_started e)) e) w).

Definition thread_start (th : Thread) (interval : Z) : M unit :=
  modify (fun w => set_env (set_alive (alive (env w) ++ [th]) (env w)) w) >>
  emit (EThreadStart th interval).

(** [th.is_alive()] *)
Definition thread_is_alive (th : Thread) : M bool :=
  ask (fun e => bool_decide (th ∈ alive e)).

(** [th.join(timeout=5.0)]: joining the running thread itself raises
    [RuntimeError]. *)
Definition thread_join (th : Thread) : M unit :=
  let! me := ask current_thread in
  if decide (th = me) then raise (RuntimeError "cannot join current thread")
  else emit (EJoin th).

(** The running thread returns from its target. *)
Definition thread_exit : M unit :=
  modify (fun w =>
    let e := env w in
    set_env
      (set_alive (filter (fun th => th ≠ current_thread e) (alive e)) e) w).

(** *** The methods *)

(** [{tag: field for tag, field in mappings}] *)
Definition dict_of_rows (mappings : list (string * string))
    : gmap string string :=
  fold_left (fun m row => <[fst row := snd row]> m) mappings ∅.

(** [_load_tag_mappings] *)
Definition _load_tag_mappings : M unit :=
  try_except
    (let! d := self in
     (if negb (cursor d) then raise AttributeError else ret tt) >>
     emit ESelectTagnames >>
     let! rows := ask tagnames in
     let! mappings := match rows with
                      | Some l => ret l
                      | None => raise MariadbError
                      end in
     update (set_opc_to_db_mapping (dict_of_rows mappings)))
    is_mariadb_Error
    (fun _ => update (set_opc_to_db_mapping ∅)).

(** [_start_logging_thread] *)
Definition _start_logging_thread : M unit :=
  let! d := self in
  let! enabled := config_value (enabled d) in
  if negb enabled then ret tt
  else
    let! log_interval := config_value (log_interval d) in
    let log_interval := if log_interval <=? 0 then 60 else log_interval in
    update (set_shutdown_event false) >>
    let! th := thread_new in
    update (set_logging_thread (Some th)) >>
    thread_start th log_interval >>
    update (set_logging_active true).

(** [connect] *)
Definition connect : M bool :=
  let! d := self in
  let! enabled := config_value (enabled d) in
  if negb enabled then ret false
  else
    try_except
      (mariadb_connect >>
       update (set_conn true) >>
       update (set_cursor true) >>
       update (set_connected true) >>
       _load_tag_mappings >>
       _start_logging_thread >>
       ret true)
      is_mariadb_Error
      (fun _ => update (set_connected false) >> ret false).

(** [disconnect] *)
Definition disconnect : M unit :=
  (let! d := self in
   if logging_active d then
     update (set_shutdown_event true) >>
     (match logging_thread d with
      | Some th =>
          let! is_alive := thread_is_alive th in
          if is_alive then thread_join th else ret tt
      | None => ret tt
      end) >>
     update (set_logging_active false)
   else ret tt) >>
  let! d := self in
  if conn d then
    try_finally
      (try_except conn_close is_mariadb_Error (fun _ => ret tt))
      (update (set_conn false) >>
       update (set_cursor false) >>
       update (set_connected false))
  else ret tt.

(** [_try_reconnect] *)
Definition _try_reconnect : M bool :=
  try_except
    (disconnect >>
     time_sleep 2 >>
     connect)
    is_Exception
    (fun _ => ret false).

(** The three lists the loop of [_log_current_values] builds:
    [field_names], [placeholders] and [values]. *)
Definition collect_fields (current_values : PyDict Sample.t)
    (opc_to_db_mapping : gmap string string)
    : list string * list string * list (option binary64) :=
  fold_left
    (fun acc item =>
       let '(field_names, placeholders, values) := acc in
       let '(tag_name, value_dict) := item in
       match opc_to_db_mapping !! tag_name with
       | Some db_field =>
           (field_names ++ [db_field], placeholders ++ ["?"],
            values ++ [Sample.value value_dict])
       | None => acc
       end)
    current_values (["timestamp"], ["NOW()"], []).

Definition insert_query (field_names placeholders : list string) : string :=
  "INSERT INTO process_data (" +:+ String.concat ", " field_names
    +:+ ") VALUES (" +:+ String.concat ", " placeholders +:+ ")".

(** [_log_current_values] *)
Definition _log_current_values : M unit :=
  let! d := self in
  if negb (connected d) || dict_is_empty (current_values d) then ret tt
  else
    try_except
      (let '(field_names, placeholders, values) :=
         collect_fields (current_values d) (opc_to_db_mapping d) in
       if (length field_names <=? 1)%nat then ret tt
       else
         let query := insert_query field_names placeholders in
         cursor_execute query (map sql_of_value values) >>
         conn_commit)
      is_mariadb_Error
      (fun _ => _try_reconnect >> ret tt).

(** The wait of [_logging_worker]:
    [for _ in range(interval): if set: break; time.sleep(1)] *)
Fixpoint interval_sleep (n : nat) : M unit :=
  match n with
  | O => ret tt
  | S n' =>
      let! d := self in
      if shutdown_event d then ret tt
      else time_sleep 1 >> interval_sleep n'
  end.

(** One turn of the loop of [_logging_worker]. *)
Definition worker_turn (interval : Z) : M unit :=
  try_except
    (let! d := self in
     if connected d && negb (dict_is_empty (current_values d))
     then _log_current_values else ret tt)
    is_Exception (fun _ => ret tt) >>
  interval_sleep (Z.to_nat interval).

Inductive worker_state : Type := Returned | Looping.

(** [_logging_worker], run for at most [turns] turns of its loop:
    [Returned] when the loop has ended and the thread is over, [Looping]
    when the turns are used up with the loop still going. *)
Fixpoint _logging_worker (turns : nat) (interval : Z) : M worker_state :=
  let! d := self in
  if shutdown_event d then thread_exit >> ret Returned
  else
    match turns with
    | O => ret Looping
    | S turns' => worker_turn interval >> _logging_worker turns' interval
    end.

(** [update_value] *)
Definition update_value (tag_name : string) (value : option binary64)
    (unit : string) (timestamp : PyTime) : M () :=
  update (fun d =>
    set_current_values
      (dict_set tag_name (Sample.mk value unit timestamp) (current_values d))
      d).

(** [log_event] *)
Definition log_event (event_type message severity : string) : M bool :=
  let! d := self in
  if negb (connected d) then ret false
  else
    try_except
      (cursor_execute
         "INSERT INTO event_log (timestamp, event_type, message, severity) VALUES (NOW(), ?, ?, ?)"
         [SqlText event_type; SqlText message; SqlText severity] >>
       conn_commit >>
       ret true)
      is_mariadb_Error (fun _ => ret false).

(** [get_field_history] *)
Definition get_field_history (field_name : string) (hours limit : Z)
    : M (list (PyTime * option binary64)) :=
  let! d := self in
  if negb (connected d) then ret []
  else
    try_except
      ((if negb (cursor d) then raise AttributeError else ret tt) >>
       emit (ESelectHistory field_name hours limit) >>
       let! rows := ask (fun e => history e field_name hours limit) in
       match rows with
       | Some l => ret l
       | None => raise MariadbError
       end)
      is_mariadb_Error (fun _ => ret []).

(** [get_tag_history] *)
Definition get_tag_history (tag_name : string) (hours limit : Z)
    : M (list (option binary64 * string * PyTime)) :=
  let! d := self in
  match opc_to_db_mapping d !! tag_name with
  | None => ret []
  | Some field_name =>
      if String.eqb field_name "" then ret []
      else
        let! history_data := get_field_history field_name hours limit in
        let! d := self in
        let unit :=
          match dict_get tag_name (current_values d) with
          | Some value_dict => Sample.unit value_dict
          | None => ""
          end in
        ret (map (fun row => (snd row, unit, fst row)) history_data)
  end.
End db_connector.

(** ** connectors/unity_connector.py *)

Module unity_connector.
Import UnityConnector.

(** The process's [UnityConnector]. *)
Definition self : M UnityConnector.t :=
  fun w => match unity_connector w with
           | Some u => (Ok u, w)
           | None => (Raise AttributeError, w)
           end.

Definition update (f : UnityConnector.t -> UnityConnector.t) : M unit :=
  fun w => match unity_connector w with
           | Some u => (Ok tt, set_unity_connector (Some (f u)) w)
           | None => (Raise AttributeError, w)
           end.

(** [UnityConnector.__init__] *)
Definition __init__ : UnityConnector.t := mk false [] false.

(** [set_db_connector(db_connector)] *)
Definition set_db_connector : M unit := update (set_db true).

(** [on_value_update] *)
Definition on_value_update (name : string) (value : option binary64)
    (unit : string) (timestamp : PyTime) : M () :=
  update (fun u =>
    set_latest_values
      (dict_set name (Sample.mk value unit (isoformat_or_str timestamp))
         (latest_values u)) u).

(** What a route returns: the status and the JSON body. *)
Inductive Json : Type :=
| JError (error : string)
| JSample (s : Sample.t)
| JList (l : list Sample.t)
| JDict (d : PyDict Sample.t).

Record Response : Type := response { body : Json; status : Z }.

(** [get_all_values] *)
Definition get_all_values : M Response :=
  let! u := self in
  ret (response (JDict (latest_values u)) 200).

(** [get_value(name)] *)
Definition get_value (name : string) : M Response :=
  let! u := self in
  match dict_get name (latest_values u) with
  | Some s => ret (response (JSample s) 200)
  | None => ret (response (JError "Value not found") 404)
  end.

(** [get_history(name)]; [hours_arg] is the [hours] argument of the
    query string when it is there and reads as an [int]. *)
Definition get_history (name : string) (hours_arg : option Z) : M Response :=
  let! u := self in
  let! unavailable :=
    (if negb (db u) then ret true
     else let! d := db_connector.self in
          ret (negb (DbConnector.connected d))) in
  if unavailable then ret (response (JError "Database not available") 503)
  else
    let hours := default 24 hours_arg in
    let! history := db_connector.get_tag_history name hours 1000 in
    match history with
    | [] =>
        ret (response (JError "No history found or tag does not exist") 404)
    | _ =>
        ret (response
               (JList (map (fun row =>
                              let '(value, unit, timestamp) := row in
                              Sample.mk value unit
                                (isoformat_or_str timestamp))
                         history))
               200)
    end.

(** [stop] *)
Definition stop : M unit := update (set_running false).

(** [start] *)
Definition start : M bool :=
  try_except
    (opcua_connector.add_value_callback cb_on_value_update >>
     server_call http_server_ok OSError >>
     update (set_running true) >>
     ret true)
    is_Exception
    (fun _ => stop >> ret false).
End unity_connector.

(** ** main.py *)

(** [db_update_callback] *)
Definition db_update_callback (name : string) (value : option binary64)
    (unit : string) (timestamp : PyTime) : M () :=
  let! w := get_world in
  match db_connector w with
  | Some d =>
      if DbConnector.connected d
      then db_connector.update_value name value unit timestamp
      else ret tt
  | None => ret tt
  end.

(** Calling a registered callable: the two of the gateway, or a listener
    foreign to it, which the environment lets return or raise. *)
Definition invoke (callback : Callback) (name : string)
    (value : option binary64) (unit : string) (timestamp : PyTime) : M () :=
  match callback with
  | cb_db_update_callback => db_update_callback name value unit timestamp
  | cb_on_value_update =>
      unity_connector.on_value_update name value unit timestamp
  | cb_listener n =>
      emit (EListener n name value unit timestamp) >>
      let! r := ask (fun e => listener_raises e n) in
      match r with Some e => raise e | None => ret tt end
  end.

Inductive main_state : Type :=
| Exit (code : Z)
| Serving.

(** [main], from the creation of the OPC-UA connector to the loop that
    keeps the main thread alive.  [database_enabled] is
    [config.getboolean('DATABASE', 'enabled', fallback=False)]. *)
Definition main (database_enabled : option bool) (log_interval : option Z)
    : M main_state :=
  let! ok := opcua_connector.connect in
  if negb ok then ret (Exit 1)
  else
    let! ok := opcua_connector.subscribe_to_nodes invoke in
    if negb ok then opcua_connector.disconnect >> ret (Exit 1)
    else
      (let! enabled := db_connector.config_value database_enabled in
       if enabled then
         modify (set_db_connector
                   (Some (db_connector.__init__ database_enabled log_interval))) >>
         let! ok := db_connector.connect in
         if ok then
           opcua_connector.add_value_callback cb_db_update_callback >>
           db_connector.log_event "system" "OPC-UA Gateway service started"
             "info" >>
           ret tt
         else ret tt
       else ret tt) >>
      modify (set_unity_connector (Some unity_connector.__init__)) >>
      (let! w := get_world in
       match db_connector w with
       | Some d =>
           if DbConnector.connected d then unity_connector.set_db_connector
           else ret tt
       | None => ret tt
       end) >>
      let! ok := unity_connector.start in
      if negb ok then
        opcua_connector.disconnect >>
        (let! w := get_world in
         match db_connector w with
         | Some d =>
             if DbConnector.connected d then db_connector.disconnect
             else ret tt
         | None => ret tt
         end) >>
        ret (Exit 1)
      else ret Serving.

(** The process as [main] finds it: the OPC-UA connector just built from
    the configuration, no other object yet. *)
Definition process_start (config : opcua_connector.ConfigParser) (e : Env)
    : opcua_connector.init_error + World :=
  match opcua_connector.__init__ config with
  | inl err => inl err
  | inr o => inr (mkWorld o None None e)
  end.

(** * Vocabulary of the properties *)

(** The instant the clock shows at its next read. *)
Definition next_instant (w : World) : Z :=
  clock (env w) (clock_reads (env w)).

(** The clock once read. *)
Definition clock_read (w : World) : World :=
  set_env (set_clock_reads (S (clock_reads (env w))) (env w)) w.

(** The cache written: [self.latest_values[name] = sample]. *)
Definition cache_written (name : string) (sample : Sample.t)
    (w : World) : World :=
  set_opcua
    (OpcUaConnector.set_latest_values
       (dict_set name sample
          (OpcUaConnector.latest_values (opcua_connector w)))
       (opcua_connector w)) w.

(** The listeners of [l] called one after the other, each on the state
    the one before leaves, whether it returns or raises. *)
Definition listeners_run
    (inv : Callback → string → option binary64 → string → PyTime → M ())
    (l : list Callback) (name : string)
    (value : option binary64) (unit : string) (timestamp : PyTime)
    (w : World) : World :=
  fold_left
    (fun w callback =>
       state_after (inv callback name value unit timestamp) w) l w.

(** What a listener foreign to the gateway leaves in the trace. *)
Definition listener_call (name : string) (value : option binary64)
    (unit : string) (timestamp : PyTime) (callback : Callback)
    : option Effect :=
  match callback with
  | cb_listener n => Some (EListener n name value unit timestamp)
  | _ => None
  end.

(** What the persistence cache becomes when [db_update_callback] runs. *)
Definition db_updated (name : string) (value : option binary64)
    (unit : string) (timestamp : PyTime) (d : DbConnector.t)
    : DbConnector.t :=
  if DbConnector.connected d then
    DbConnector.set_current_values
      (dict_set name (Sample.mk value unit timestamp)
         (DbConnector.current_values d)) d
  else d.

(** What the cache of the HTTP surface becomes when [on_value_update]
    runs. *)
Definition unity_updated (name : string) (value : option binary64)
    (unit : string) (timestamp : PyTime) (u : UnityConnector.t)
    : UnityConnector.t :=
  UnityConnector.set_latest_values
    (dict_set name (Sample.mk value unit (isoformat_or_str timestamp))
       (UnityConnector.latest_values u)) u.

(** The persistence cache and the cache of the HTTP surface, empty while
    their object does not exist; whether storage is connected. *)
Definition db_cache (w : World) : PyDict Sample.t :=
  match db_connector w with
  | Some d => DbConnector.current_values d
  | None => []
  end.

Definition unity_cache (w : World) : PyDict Sample.t :=
  match unity_connector w with
  | Some u => UnityConnector.latest_values u
  | None => []
  end.

Definition db_connected (w : World) : bool :=
  match db_connector w with
  | Some d => DbConnector.connected d
  | None => false
  end.

(** The node an event resolves to. *)
Definition resolve (w : World) (node : string) : option NodeInfo.t :=
  find (fun n => bool_decide (NodeInfo.id n = node))
    (OpcUaConnector.nodes_to_monitor (opcua_connector w)).

(** The events [vals] of one node, delivered in order. *)
Definition deliver (node : string) (vals : list PyValue) : M () :=
  for_each vals (opcua_connector.datachange_notification invoke node).

(** Two states that differ at most in the entries of [name] of the three
    caches, in the reads of the clock and in the trace. *)
Record same_but_tag (name : string) (w w' : World) : Prop := {
  sbt_nodes :
    OpcUaConnector.nodes_to_monitor (opcua_connector w')
    = OpcUaConnector.nodes_to_monitor (opcua_connector w);
  sbt_callbacks :
    OpcUaConnector.value_callbacks (opcua_connector w')
    = OpcUaConnector.value_callbacks (opcua_connector w);
  sbt_clock : clock (env w') = clock (env w);
  sbt_db_some : is_Some (db_connector w') ↔ is_Some (db_connector w);
  sbt_unity_some : is_Some (unity_connector w') ↔ is_Some (unity_connector w);
  sbt_connected : db_connected w' = db_connected w;
  sbt_latest k :
    k ≠ name →
    dict_get k (OpcUaConnector.latest_values (opcua_connector w'))
    = dict_get k (OpcUaConnector.latest_values (opcua_connector w));
  sbt_db_cache k :
    k ≠ name → dict_get k (db_cache w') = dict_get k (db_cache w);
  sbt_unity_cache k :
    k ≠ name → dict_get k (unity_cache w') = dict_get k (unity_cache w);
  sbt_latest_nodup :
    NoDup (keys (OpcUaConnector.latest_values (opcua_connector w))) →
    NoDup (keys (OpcUaConnector.latest_values (opcua_connector w')));
  sbt_db_nodup : NoDup (keys (db_cache w)) → NoDup (keys (db_cache w'));
  sbt_unity_nodup :
    NoDup (keys (unity_cache w)) → NoDup (keys (unity_cache w')) }.

(** ** A gateway at work, for examples

    One monitored node, [Temp1] in degrees Celsius, mapped to the column
    [temp1]; storage connected, its worker thread running; a clock that
    advances by one at every read; a foreign listener 0 that always
    raises, and foreign listeners that return; two rows of history in the
    column [temp1]. *)

(** 23.46 *)
Definition demo_value : binary64 := S754_finite false 6603402953631990 (-48).

Definition demo_env : Env :=
  mkEnv (fun n => 1000 + Z.of_nat n) 0 MainThread [LoggingThread 0] 1
        true true true true (fun _ => true) (fun _ => Ok (PyStr "23.456"))
        true (Some [("Temp1", "temp1")]) true true true
        (fun field_name _ _ =>
           if String.eqb field_name "temp1"
           then Some [(Datetime 900, Some demo_value);
                      (Datetime 950, Some demo_value)]
           else Some [])
        (fun n => match n with
                  | O => Some (ListenerError "boom")
                  | _ => None
                  end)
        true [].

Definition demo_node : NodeInfo.t := NodeInfo.mk "ns=2;i=5" "Temp1" "C".

Definition demo_opcua (callbacks : list Callback) : OpcUaConnector.t :=
  OpcUaConnector.mk [demo_node] true true ["ns=2;i=5"] true [] callbacks.

Definition demo_db (current_values : PyDict Sample.t) : DbConnector.t :=
  DbConnector.mk (Some true) (Some 2) true true true current_values
    {["Temp1" := "temp1"]} true (Some (LoggingThread 0)) false.

Definition demo_unity : UnityConnector.t := UnityConnector.mk true [] true.

Definition demo_world (callbacks : list Callback)
    (current_values : PyDict Sample.t) : World :=
  mkWorld (demo_opcua callbacks) (Some (demo_db current_values))
    (Some demo_unity) demo_env.

(** C6 as the specification words it: every call of a listener made for
    an event carries the name, value, unit and timestamp of the cache entry
    written for that event. *)
Definition listeners_receive_cached_tuple (w : World) (node : string)
    (val : PyValue) : Prop :=
  let w' :=
    state_after (opcua_connector.datachange_notification invoke node val) w in
  ∀ node_info n name value unit timestamp,
    resolve w node = Some node_info →
    EListener n name value unit timestamp
      ∈ drop (length (trace (env w))) (trace (env w')) →
    ∃ sample,
      dict_get (NodeInfo.name node_info)
        (OpcUaConnector.latest_values (opcua_connector w')) = Some sample
      ∧ name = NodeInfo.name node_info
      ∧ value = Sample.value sample
      ∧ unit = Sample.unit sample
      ∧ instant timestamp = instant (Sample.timestamp sample).

(** A payload the protocol client can deliver: the integers of an OPC-UA
    Variant have at most 64 bits. *)
Definition protocol_payload (v : PyValue) : Prop :=
  match v with
  | PyInt n => - 2 ^ 63 <= n < 2 ^ 64
  | _ => True
  end.

(** ** The tag registry *)

(** The index [i] is declared when the section has one of its options. *)
Definition declares (section : gmap string string) (i : nat) : Prop :=
  is_Some (section !! opcua_connector.node_key i "_id")
  ∨ is_Some (section !! opcua_connector.node_key i "_name")
  ∨ is_Some (section !! opcua_connector.node_key i "_unit").

(** What the section shows for an option it has: the text of the option
    interpolated, or the error of the interpolation. *)
Definition shown (section : gmap string string) (key : string)
    : option (configparser.raised + string) :=
  (fun value => configparser.before_get "MONITORING" key value section)
  <$> section !! key.

Definition text_of (v : option (configparser.raised + string)) : string :=
  match v with
  | Some (inr text) => text
  | _ => ""
  end.

(** The tag the options of the index [i] describe. *)
Definition node_at (section : gmap string string) (i : nat) : NodeInfo.t :=
  NodeInfo.mk
    (text_of (shown section (opcua_connector.node_key i "_id")))
    (text_of (shown section (opcua_connector.node_key i "_name")))
    (text_of (shown section (opcua_connector.node_key i "_unit"))).

(** The index [i] can be read: it has a node identifier and a name, and
    the texts of its options interpolate. *)
Definition readable (section : gmap string string) (i : nat) : Prop :=
  (∃ node_id,
     shown section (opcua_connector.node_key i "_id") = Some (inr node_id))
  ∧ (∃ node_name,
       shown section (opcua_connector.node_key i "_name")
       = Some (inr node_name))
  ∧ ∀ e, shown section (opcua_connector.node_key i "_unit") ≠ Some (inl e).

(** The index [i] has a node identifier and reading it fails with [err]:
    at the first of its options, in the order node identifier, name, unit,
    whose text does not interpolate, or at the name when it is missing. *)
Definition read_failure (section : gmap string string) (i : nat)
    (err : opcua_connector.init_error) : Prop :=
  (∃ e, shown section (opcua_connector.node_key i "_id") = Some (inl e)
        ∧ err = opcua_connector.ConfigError e)
  ∨ ((∃ node_id,
        shown section (opcua_connector.node_key i "_id")
        = Some (inr node_id))
     ∧ ((shown section (opcua_connector.node_key i "_name") = None
         ∧ err = opcua_connector.OptionKeyError
                   (opcua_connector.node_key i "_name"))
        ∨ (∃ e, shown section (opcua_connector.node_key i "_name")
                = Some (inl e)
                ∧ err = opcua_connector.ConfigError e)
        ∨ ((∃ node_name,
              shown section (opcua_connector.node_key i "_name")
              = Some (inr node_name))
           ∧ ∃ e, shown section (opcua_connector.node_key i "_unit")
                  = Some (inl e)
                  ∧ err = opcua_connector.ConfigError e))).

(** C5 as the specification words it: a declared index without its node
    identifier makes the construction of the registry fail. *)
Definition fails_on_missing_node_id (config : opcua_connector.ConfigParser)
    : Prop :=
  ∀ section i,
    config !! "MONITORING" = Some section →
    declares section i →
    section !! opcua_connector.node_key i "_id" = None →
    ∃ e, opcua_connector.__init__ config = inl e.

(** A configuration that declares the tag 1 in full and, of the tag 2,
    the name and the unit but no node identifier. *)
Definition demo_config : opcua_connector.ConfigParser :=
  {[ "OPCUA" :=
       {[ "server_url" := "opc.tcp://localhost:4840";
          "application_uri" := "urn:gateway";
          "security_policy" := "Basic256Sha256";
          "security_mode" := "SignAndEncrypt" ]};
     "MONITORING" :=
       {[ "node1_id" := "ns=2;i=5";
          "node1_name" := "Temp1";
          "node1_unit" := "C";
          "node2_name" := "Temp2";
          "node2_unit" := "C" ]} ]}.

(** ** History requests *)

(** The rows a history request finds: none when the tag has no column,
    and none when the query fails. *)
Definition history_rows (w : World) (d : DbConnector.t) (name : string)
    (hours : Z) : list (PyTime * option binary64) :=
  match DbConnector.opc_to_db_mapping d !! name with
  | Some field_name =>
      if String.eqb field_name "" then []
      else default [] (history (env w) field_name hours 1000)
  | None => []
  end.

(** The unit a history request reports: the one of the cached sample. *)
Definition history_unit (d : DbConnector.t) (name : string) : string :=
  match dict_get name (DbConnector.current_values d) with
  | Some value_dict => Sample.unit value_dict
  | None => ""
  end.

(** A row as the response shows it. *)
Definition history_entry (unit : string) (row : PyTime * option binary64)
    : Sample.t :=
  Sample.mk (snd row) unit (isoformat_or_str (fst row)).

(** ** Persistence *)

(** The cached tags that have a column, in cache order, each with its
    column and its value, absent or not. *)
Definition mapped_items (current_values : PyDict Sample.t)
    (opc_to_db_mapping : gmap string string)
    : list (string * option binary64) :=
  omap (fun item =>
          (fun db_field => (db_field, Sample.value (snd item)))
            <$> opc_to_db_mapping !! fst item)
       current_values.

(** The statement of a cycle over the items [items]. *)
Definition insert_of (items : list (string * option binary64))
    : string * list SqlParam :=
  (db_connector.insert_query ("timestamp" :: (fst <$> items))
     ("NOW()" :: replicate (length items) "?"),
   (fun item => sql_of_value (snd item)) <$> items).

(** The statements executed so far, passed or failed. *)
Definition statements (tr : list Effect) : list (string * list SqlParam) :=
  omap (fun ef => match ef with
                  | EExecute query params => Some (query, params)
                  | _ => None
                  end) tr.

(** The attempts to connect to storage so far. *)
Definition connects (tr : list Effect) : nat :=
  length (omap (fun ef => match ef with
                          | EDbConnect => Some tt
                          | _ => None
                          end) tr).

(** The environment answers as before. *)
Record same_answers (e e' : Env) : Prop := {
  sa_clock : clock e' = clock e;
  sa_certificates_ok : certificates_ok e' = certificates_ok e;
  sa_opc_connect_ok : opc_connect_ok e' = opc_connect_ok e;
  sa_opc_disconnect_ok : opc_disconnect_ok e' = opc_disconnect_ok e;
  sa_create_subscription_ok :
    create_subscription_ok e' = create_subscription_ok e;
  sa_subscribe_ok : subscribe_ok e' = subscribe_ok e;
  sa_node_value : node_value e' = node_value e;
  sa_db_server_up : db_server_up e' = db_server_up e;
  sa_tagnames : tagnames e' = tagnames e;
  sa_insert_ok : insert_ok e' = insert_ok e;
  sa_commit_ok : commit_ok e' = commit_ok e;
  sa_close_ok : close_ok e' = close_ok e;
  sa_history : history e' = history e;
  sa_listener_raises : listener_raises e' = listener_raises e;
  sa_http_server_ok : http_server_ok e' = http_server_ok e }.

(** The state as the thread [th] finds it when it runs. *)
Definition as_thread (th : Thread) (w : World) : World :=
  set_env (set_current_thread th (env w)) w.

(** C1 as the specification words it: a cycle that finds no mapped tag
    with a value that is not absent issues no insert. *)
Definition skips_cycle_without_present_value (w : World) : Prop :=
  ∀ d,
    db_connector w = Some d →
    filter (fun item => is_Some (snd item))
      (mapped_items (DbConnector.current_values d)
         (DbConnector.opc_to_db_mapping d)) = [] →
    statements (trace (env (state_after db_connector._log_current_values w)))
    = statements (trace (env w)).

(** Two states that differ at most in the session of the storage
    connector (connection, mapping, worker thread), in the thread table
    and in the trace. *)
Record same_but_session (w w' : World) : Prop := {
  sbs_opcua : opcua_connector w' = opcua_connector w;
  sbs_unity : unity_connector w' = unity_connector w;
  sbs_db_some : is_Some (db_connector w') ↔ is_Some (db_connector w);
  sbs_db_cache : db_cache w' = db_cache w;
  sbs_enabled :
    DbConnector.enabled <$> db_connector w'
    = DbConnector.enabled <$> db_connector w;
  sbs_log_interval :
    DbConnector.log_interval <$> db_connector w'
    = DbConnector.log_interval <$> db_connector w;
  sbs_answers : same_answers (env w) (env w');
  sbs_clock_reads : clock_reads (env w') = clock_reads (env w);
  sbs_current_thread : current_thread (env w') = current_thread (env w);
  sbs_statements :
    statements (trace (env w')) = statements (trace (env w));
  sbs_trace : ∃ rest, trace (env w') = trace (env w) ++ rest }.

(** A computation that keeps every state within the relation [R] of the
    state it starts from. *)
Definition keeps {A} (R : World → World → Prop) (m : M A) : Prop :=
  ∀ w, R w (state_after m w).

(** The example once the storage server refuses inserts, as the worker
    thread finds it at a tick: one cached value to record. *)
Definition demo_failing_storage : World :=
  let w := demo_world []
             [("Temp1", Sample.mk (Some demo_value) "C" (Datetime 990))] in
  as_thread (LoggingThread 0) (set_env (set_insert_ok false (env w)) w).

(** The example once the storage server holds a new mapping for [Temp1],
    the column [temp1_v2], while the connector still has the old one. *)
Definition demo_remapped_storage : World :=
  let w := demo_world []
             [("Temp1", Sample.mk (Some demo_value) "C" (Datetime 990))] in
  set_env (set_tagnames (Some [("Temp1", "temp1_v2")]) (env w)) w.

(** The same example when the storage server fails to answer the query
    for the mapping. *)
Definition demo_unreadable_mapping : World :=
  let w := demo_world []
             [("Temp1", Sample.mk (Some demo_value) "C" (Datetime 990))] in
  set_env (set_tagnames None (env w)) w.



(** ** After startup *)

(** What goes on in the gateway once [main] has started it: an event of
    the protocol client, a turn of the loop of a worker thread, a request
    to the HTTP surface. *)
Inductive Activity : Type :=
| DataChange (node : string) (val : PyValue)
| WorkerTurn (th : Thread) (interval : Z)
| ValueRequest (name : string)
| HistoryRequest (name : string) (hours_arg : option Z).

Definition perform (a : Activity) : M () :=
  match a with
  | DataChange node val =>
      opcua_connector.datachange_notification invoke node val
  | WorkerTurn th interval =>
      fun w => db_connector.worker_turn interval (as_thread th w)
  | ValueRequest name =>
      try_except (unity_connector.get_value name >> ret tt)
        is_Exception (fun _ => ret tt)
  | HistoryRequest name hours_arg =>
      try_except (unity_connector.get_history name hours_arg >> ret tt)
        is_Exception (fun _ => ret tt)
  end.


(** A step that registers no listener and creates neither the storage
    connector nor the HTTP surface, when it starts without listener. *)
Definition without_listener (w w' : World) : Prop :=
  OpcUaConnector.value_callbacks (opcua_connector w) = [] →
  OpcUaConnector.value_callbacks (opcua_connector w') = []
  ∧ db_connector w' = db_connector w
  ∧ unity_connector w' = unity_connector w.

(** A step that leaves the persistence cache and the cache of the HTTP
    surface empty when they are, and the HTTP surface in place. *)
Definition caches_stay_empty (w w' : World) : Prop :=
  (db_cache w = [] → db_cache w' = [])
  ∧ (unity_cache w = [] → unity_cache w' = [])
  ∧ (is_Some (unity_connector w) → is_Some (unity_connector w')).

(** A step that leaves the registry of tags, the persistence cache and
    the cache of the HTTP surface as they are. *)
Definition same_caches (w w' : World) : Prop :=
  OpcUaConnector.nodes_to_monitor (opcua_connector w')
  = OpcUaConnector.nodes_to_monitor (opcua_connector w)
  ∧ db_cache w' = db_cache w
  ∧ unity_cache w' = unity_cache w
  ∧ (is_Some (unity_connector w) → is_Some (unity_connector w')).

(** An OPC-UA server and a storage server that accept everything, at the
    start of the process. *)
Definition demo_start_env : Env :=
  mkEnv (fun n => 1000 + Z.of_nat n) 0 MainThread [] 0
        true true true true (fun _ => true) (fun _ => Ok (PyStr "23.456"))
        true (Some [("Temp1", "temp1")]) true true true
        (fun _ _ _ => Some []) (fun _ => None) true [].


(** The activities [activities], one after the other. *)
Definition perform_all (activities : list Activity) : M () :=
  for_each activities perform.

(** The value a computation returns, when it returns. *)
Definition outcome_value {A} (m : M A) (w : World) : option A :=
  match outcome m w with Ok a => Some a | Raise _ => None end.

(** ** The invariant of the storage session *)

(** While the storage connector says it is connected, it has a connection
    and a cursor. *)
Definition session_wf (w : World) : Prop :=
  ∀ d, db_connector w = Some d →
       DbConnector.connected d = true →
       DbConnector.conn d = true ∧ DbConnector.cursor d = true.

(** A step that keeps the invariant of the storage session. *)
Definition wf_kept (w w' : World) : Prop := session_wf w → session_wf w'.

(** The HTTP surface refers to the storage connector exactly when storage
    was connected at startup: while it does not, storage is not
    connected. *)
Definition attachment_wf (w : World) : Prop :=
  ∀ u, unity_connector w = Some u →
       (UnityConnector.db u = true → is_Some (db_connector w))
       ∧ (UnityConnector.db u = false → db_connected w = false).

(** A step that changes neither whether storage is connected, nor whether
    the storage connector exists, nor what the HTTP surface refers to. *)
Definition same_attachment (w w' : World) : Prop :=
  db_connected w' = db_connected w
  ∧ (is_Some (db_connector w) → is_Some (db_connector w'))
  ∧ UnityConnector.db <$> unity_connector w'
    = UnityConnector.db <$> unity_connector w.


(** A step that leaves the storage connector in place and the HTTP
    surface referring to what it referred to. *)
Definition link_kept (w w' : World) : Prop :=
  (is_Some (db_connector w) → is_Some (db_connector w'))
  ∧ UnityConnector.db <$> unity_connector w'
    = UnityConnector.db <$> unity_connector w.

(** The invariant of the running gateway. *)
Definition gateway_wf (w : World) : Prop := session_wf w ∧ attachment_wf w.


(** A step after which storage is connected or not as it was before. *)
Definition same_connection (w w' : World) : Prop :=
  db_connected w' = db_connected w.

(** * The rest of the gateway

    The code around the core: the status route of the HTTP surface, the
    end of [main], the defaults of the storage configuration, and
    [utils/logging_utils.py]. *)

(** ** connectors/unity_connector.py: the status route *)

(** The body of the answer of [/api/status]. *)
Record Status : Type := mkStatus {
  opcua_connected : bool;
  nodes_monitoring : nat;
  values_count : nat;
  server_time : PyTime }.

(** [get_status] *)
Definition get_status : M Status :=
  let! u := unity_connector.self in
  let! o := opcua_connector.self in
  let opcua_connected := OpcUaConnector.connected o in
  let nodes_monitoring := length (OpcUaConnector.nodes_to_monitor o) in
  let values_count := length (UnityConnector.latest_values u) in
  let! now := datetime_now in
  ret (mkStatus opcua_connected nodes_monitoring values_count (IsoString now)).

(** ** main.py: the end of the process *)

(** [signal_handler], up to its [sys.exit(0)]. *)
Definition signal_handler : M unit :=
  (let! w := get_world in
   match unity_connector w with
   | Some u =>
       if UnityConnector.running u then unity_connector.stop else ret tt
   | None => ret tt
   end) >>
  (let! o := opcua_connector.self in
   if OpcUaConnector.connected o then opcua_connector.disconnect
   else ret tt) >>
  (let! w := get_world in
   match db_connector w with
   | Some d =>
       if DbConnector.connected d then db_connector.disconnect else ret tt
   | None => ret tt
   end).

(** The [finally] block of [main]. *)
Definition main_finally : M unit :=
  (let! w := get_world in
   match unity_connector w with
   | Some _ => unity_connector.stop
   | None => ret tt
   end) >>
  opcua_connector.disconnect >>
  (let! w := get_world in
   match db_connector w with
   | Some d =>
       if DbConnector.connected d then
         db_connector.log_event "system" "OPC-UA Gateway service stopped"
           "info" >>
         db_connector.disconnect
       else ret tt
   | None => ret tt
   end).

(** What ends the loop [while True: time.sleep(1)] of [main]: a signal,
    which runs [signal_handler] in the main thread, or a
    [KeyboardInterrupt]. *)
Inductive Interruption : Type :=
| TerminationSignal
| KeyboardInterrupt.

(** The end of [main].  The [SystemExit] of [sys.exit(0)] is no
    [KeyboardInterrupt]: it leaves the loop through the [finally] block
    and ends the process with the status 0; an exception of the handler
    leaves the same way. *)
Definition main_ends (i : Interruption) : M main_state :=
  match i with
  | TerminationSignal =>
      try_finally (signal_handler >> ret (Exit 0)) main_finally
  | KeyboardInterrupt =>
      try_finally (ret tt) main_finally >> ret (Exit 0)
  end.

(** ** connectors/db_connector.py: the default configuration *)

(** The section [init_config] creates. *)
Definition default_database_section : gmap string string :=
  {[ "enabled" := "false";
     "host" := "localhost";
     "user" := "opcua_user";
     "password" := "password";
     "database" := "opcua_gateway";
     "log_interval" := "60" ]}.

(** [init_config]: the configuration afterwards, and what was written to
    the configuration file, if anything.  The new section shows its own
    options before those of the [DEFAULT] section. *)
Definition init_config (config : opcua_connector.ConfigParser)
    : opcua_connector.ConfigParser * option opcua_connector.ConfigParser :=
  match config !! "DATABASE" with
  | Some _ => (config, None)
  | None =>
      let config' :=
        <["DATABASE" := default_database_section
                        ∪ default ∅ (config !! "DEFAULT")]> config in
      (config', Some config')
  end.

(** The [DbConnector] built from a configuration: [init_config] has run,
    and [enabled] is what [getboolean] gives, [None] when it raises (the
    record does not tell the [ValueError] of a text that is no boolean
    from the error of a text that does not interpolate); [log_interval]
    is what [getint] gives. *)
Definition DbConnector_of_config (config : opcua_connector.ConfigParser)
    (log_interval : option Z) : DbConnector.t :=
  db_connector.__init__
    (match configparser.getboolean (fst (init_config config))
             "DATABASE" "enabled" false with
     | inr enabled => Some enabled
     | inl _ => None
     end)
    log_interval.

(** ** utils/logging_utils.py *)

Module logging_utils.
(** [c.upper()] for a character below 256, as code points: [ß] gives
    [SS], and the capitals of [µ] and [ÿ] are beyond 255. *)
Definition upper_char (c : ascii) : list Z :=
  let n := code c in
  if (97 <=? n) && (n <=? 122) then [n - 32]
  else if n =? 181 then [924]
  else if n =? 223 then [83; 83]
  else if n =? 255 then [376]
  else if (224 <=? n) && (n <=? 254) && negb (n =? 247) then [n - 32]
  else [n].

(** [s.upper()], as code points. *)
Definition str_upper (s : string) : list Z :=
  flat_map upper_char (list_ascii_of_string s).

Definition code_points (s : string) : list Z :=
  map code (list_ascii_of_string s).

(** The constants of [logging]. *)
Definition DEBUG : Z := 10.
Definition INFO : Z := 20.
Definition WARNING : Z := 30.
Definition ERROR : Z := 40.
Definition CRITICAL : Z := 50.

Definition levels : list (string * Z) :=
  [("DEBUG", DEBUG); ("INFO", INFO); ("WARNING", WARNING);
   ("ERROR", ERROR); ("CRITICAL", CRITICAL)].

(** [get_log_level(level_str)] *)
Definition get_log_level (level_str : string) : Z :=
  match find (fun kv => bool_decide (code_points (fst kv)
                                     = str_upper level_str)) levels with
  | Some kv => snd kv
  | None => INFO
  end.
End logging_utils.

(** ** Vocabulary of the further properties *)

(** The names of the tags of the registry. *)
Definition registry_names (w : World) : list string :=
  NodeInfo.name <$> OpcUaConnector.nodes_to_monitor (opcua_connector w).

(** The HTTP surface is there, and its cache and the persistence cache
    hold one entry a name at most, for names of the registry only. *)
Definition caches_within_registry (w : World) : Prop :=
  is_Some (unity_connector w)
  ∧ NoDup (keys (unity_cache w))
  ∧ keys (unity_cache w) ⊆ registry_names w
  ∧ NoDup (keys (db_cache w))
  ∧ keys (db_cache w) ⊆ registry_names w.

(** A step that makes no attempt to connect to storage. *)
Definition no_connection_attempt (w w' : World) : Prop :=
  connects (trace (env w')) = connects (trace (env w)).

(** The servers of the example with the storage server down. *)
Definition demo_storage_down_env : Env :=
  mkEnv (fun n => 1000 + Z.of_nat n) 0 MainThread [] 0
        true true true true (fun _ => true) (fun _ => Ok (PyStr "23.456"))
        false None true true true
        (fun _ _ _ => None) (fun _ => None) true [].

(** The statement that records the end of the service in [event_log]. *)
Definition stop_event : string * list SqlParam :=
  ("INSERT INTO event_log (timestamp, event_type, message, severity) VALUES (NOW(), ?, ?, ?)",
   [SqlText "system"; SqlText "OPC-UA Gateway service stopped";
    SqlText "info"]).

(** A serving gateway as the end of [main] finds it: the HTTP surface is
    there, the protocol connector has a client while it is connected, the
    storage connector has a connection and a cursor while it is connected,
    and the thread that runs is not the worker thread of the storage
    connector. *)
Definition serving_wf (w : World) : Prop :=
  is_Some (unity_connector w)
  ∧ (OpcUaConnector.connected (opcua_connector w) = true →
     OpcUaConnector.client (opcua_connector w) = true)
  ∧ session_wf w
  ∧ (∀ d, db_connector w = Some d →
          DbConnector.logging_thread d ≠ Some (current_thread (env w))).

(** Everything is closed: no client and no session with the OPC-UA
    server, the HTTP surface marked as stopped, storage not connected. *)
Definition all_closed (w : World) : Prop :=
  OpcUaConnector.client (opcua_connector w) = false
  ∧ OpcUaConnector.connected (opcua_connector w) = false
  ∧ (UnityConnector.running <$> unity_connector w) = Some false
  ∧ db_connected w = false.

(** A text with its ASCII capitals made small. *)
Definition ascii_lower (s : string) : string :=
  string_of_list_ascii (map tolower (list_ascii_of_string s)).

(** The level a name stands for, whatever its case. *)
Definition level_of_name (s : string) : Z :=
  if String.eqb (ascii_lower s) "debug" then logging_utils.DEBUG
  else if String.eqb (ascii_lower s) "info" then logging_utils.INFO
  else if String.eqb (ascii_lower s) "warning" then logging_utils.WARNING
  else if String.eqb (ascii_lower s) "error" then logging_utils.ERROR
  else if String.eqb (ascii_lower s) "critical" then logging_utils.CRITICAL
  else logging_utils.INFO.

(** Code points that are capitals of the ASCII alphabet, with no two [S]
    in a row. *)
Fixpoint plain_capitals (K : list Z) : bool :=
  match K with
  | [] => true
  | k :: K' =>
      (65 <=? k) && (k <=? 90)
      && negb ((k =? 83) && match K' with
                            | k' :: _ => k' =? 83
                            | [] => false
                            end)
      && plain_capitals K'
  end.

(** The protocol connector has a client while it is connected. *)
Definition client_wf (w : World) : Prop :=
  OpcUaConnector.connected (opcua_connector w) = true →
  OpcUaConnector.client (opcua_connector w) = true.

Definition client_wf_kept (w w' : World) : Prop := client_wf w → client_wf w'.

(** The worker thread of the storage connector is not the main thread. *)
Definition worker_wf (w : World) : Prop :=
  ∀ d, db_connector w = Some d →
       DbConnector.logging_thread d ≠ Some MainThread.

Definition worker_wf_kept (w w' : World) : Prop := worker_wf w → worker_wf w'.

(** A step after which the servers answer as before. *)
Definition answers_kept (w w' : World) : Prop :=
  same_answers (env w) (env w').

(** The options of the section [OPCUA] the constructor reads, in the
    order it reads them. *)
Definition required_options : list string :=
  ["server_url"; "application_uri"; "security_policy"; "security_mode"].

(** What reading the option [opt] of the section [OPCUA] raises, if
    anything: [NoOptionError] when the section lacks the option, the error
    of the interpolation when its text does not interpolate. *)
Definition option_failure (options : gmap string string) (opt : string)
    : option configparser.raised :=
  match options !! opt with
  | None => Some (configparser.NoOptionError opt "OPCUA")
  | Some value =>
      match configparser.before_get "OPCUA" opt value options with
      | inl e => Some e
      | inr _ => None
      end
  end.

(** * Properties *)

(** ** Dictionaries *)

Section PyDictFacts.
Context {V : Type}.
Implicit Types (d : PyDict V) (k : string) (v : V).

Lemma dict_get_set_eq k v d : dict_get k (dict_set k v d) = Some v.
Proof.
  induction d as [|[k' v'] d IH]; simpl.
  - by rewrite decide_True.
  - destruct (decide (k = k')) as [->|Hne]; simpl.
    + by rewrite decide_True.
    + by rewrite decide_False.
Qed.

Lemma dict_get_set_ne k k' v d :
  k ≠ k' → dict_get k' (dict_set k v d) = dict_get k' d.
Proof.
  intros Hne. induction d as [|[k0 v0] d IH]; simpl.
  - rewrite decide_False; [done | congruence].
  - destruct (decide (k = k0)) as [->|Hk]; simpl.
    + rewrite !decide_False; [done | congruence | congruence].
    + by rewrite IH.
Qed.

Lemma dict_get_None_keys k d : dict_get k d = None ↔ k ∉ keys d.
Proof.
  induction d as [|[k' v'] d IH]; simpl.
  - split; [intros _; apply not_elem_of_nil | done].
  - rewrite not_elem_of_cons. destruct (decide (k = k')) as [->|Hne].
    + split; [done | intros [? _]; done].
    + rewrite IH. tauto.
Qed.

Lemma dict_set_idemp k v d : dict_set k v (dict_set k v d) = dict_set k v d.
Proof.
  induction d as [|[k' v'] d IH]; simpl.
  - by rewrite decide_True.
  - destruct (decide (k = k')) as [->|Hne]; simpl.
    + by rewrite decide_True.
    + rewrite decide_False by done. by rewrite IH.
Qed.

(** Assigning to a key keeps the keys when the key is there, and adds
    the key at the end when it is not. *)
Lemma keys_dict_set k v d :
  keys (dict_set k v d) = if dict_mem k d then keys d else keys d ++ [k].
Proof.
  unfold dict_mem. induction d as [|[k' v'] d IH]; simpl; [done|].
  destruct (decide (k = k')) as [->|Hne]; simpl; [done|].
  rewrite IH. by destruct (dict_get k d).
Qed.

(** At most one entry per key, whatever is assigned. *)
Lemma NoDup_keys_dict_set k v d :
  NoDup (keys d) → NoDup (keys (dict_set k v d)).
Proof.
  intros Hnd. rewrite keys_dict_set. unfold dict_mem.
  destruct (dict_get k d) eqn:Hg; [done|].
  apply NoDup_app. split_and!; [done | | apply NoDup_singleton].
  intros x Hx ->%list_elem_of_singleton.
  by apply dict_get_None_keys in Hg.
Qed.
End PyDictFacts.

(** ** The monad *)

Lemma for_each_app {A} (l1 l2 : list A) (body : A → M ()) w :
  for_each (l1 ++ l2) body w
  = (for_each l1 body >> for_each l2 body) w.
Proof.
  revert w. induction l1 as [|x l1 IH]; intros w; simpl.
  - done.
  - unfold bind. destruct (body x w) as [[[]|e] w1]; [|done].
    rewrite IH. done.
Qed.

(** A loop whose body swallows every exception runs the body on every
    element, in order, whatever the body does. *)
Lemma for_each_isolated {A} (l : list A) (body : A → M ()) w :
  for_each l
    (fun x => try_except (body x) is_Exception (fun _ => ret tt)) w
  = (Ok tt, fold_left (fun w x => state_after (body x) w) l w).
Proof.
  revert w. induction l as [|x l IH]; intros w; simpl; [done|].
  unfold bind, try_except, state_after at 2.
  destruct (body x w) as [[[]|e] w1]; simpl; by rewrite IH.
Qed.

(** ** Notifications *)

Section Notification.
Variable inv :
  Callback → string → option binary64 → string → PyTime → M ().

Local Abbreviation listeners_run := (listeners_run inv).

Lemma _notify_callbacks_spec name value unit w :
  opcua_connector._notify_callbacks inv name value unit w
  = (Ok tt,
     listeners_run (OpcUaConnector.value_callbacks (opcua_connector w))
       name value unit (Datetime (next_instant w)) (clock_read w)).
Proof.
  unfold opcua_connector._notify_callbacks, bind, datetime_now,
    opcua_connector.self. simpl.
  by rewrite for_each_isolated.
Qed.

(** What the handler does with an event of a monitored node whose
    payload normalizes to [value]. *)
Lemma datachange_notification_accepted node val node_info value w :
  find (fun n => bool_decide (NodeInfo.id n = node))
    (OpcUaConnector.nodes_to_monitor (opcua_connector w)) = Some node_info →
  opcua_connector.safe_float val = Ok value →
  let name := NodeInfo.name node_info in
  let unit := NodeInfo.unit node_info in
  let w1 := clock_read w in
  let w2 := cache_written name
              (Sample.mk value unit (IsoString (next_instant w))) w1 in
  opcua_connector.datachange_notification inv node val w
  = (Ok tt,
     listeners_run (OpcUaConnector.value_callbacks (opcua_connector w))
       name value unit (Datetime (next_instant w2)) (clock_read w2)).
Proof.
  intros Hfind Hval. simpl.
  unfold opcua_connector.datachange_notification, try_except, bind at 1.
  unfold opcua_connector.self at 1. rewrite Hfind.
  unfold bind at 1, liftR. rewrite Hval.
  unfold bind at 1, datetime_now.
  unfold bind at 1, opcua_connector.store_latest, opcua_connector.update,
    modify.
  rewrite _notify_callbacks_spec. done.
Qed.

(** An event of a node that is not monitored is dropped. *)
Lemma datachange_notification_unknown node val w :
  find (fun n => bool_decide (NodeInfo.id n = node))
    (OpcUaConnector.nodes_to_monitor (opcua_connector w)) = None →
  opcua_connector.datachange_notification inv node val w = (Ok tt, w).
Proof.
  intros Hfind.
  unfold opcua_connector.datachange_notification, try_except, bind at 1.
  unfold opcua_connector.self at 1. by rewrite Hfind.
Qed.

(** An event whose payload makes [safe_float] raise changes nothing. *)
Lemma datachange_notification_rejected node val node_info e w :
  find (fun n => bool_decide (NodeInfo.id n = node))
    (OpcUaConnector.nodes_to_monitor (opcua_connector w)) = Some node_info →
  opcua_connector.safe_float val = Raise e →
  opcua_connector.datachange_notification inv node val w = (Ok tt, w).
Proof.
  intros Hfind Hval.
  unfold opcua_connector.datachange_notification, try_except, bind at 1.
  unfold opcua_connector.self at 1. rewrite Hfind.
  unfold bind at 1, liftR. by rewrite Hval.
Qed.
End Notification.

(** ** The callables of the gateway *)

Section InvokeFacts.
Variables (name : string) (value : option binary64) (unit : string)
          (timestamp : PyTime).

Local Abbreviation call := (listener_call name value unit timestamp).
Local Abbreviation db_upd := (db_updated name value unit timestamp).
Local Abbreviation unity_upd := (unity_updated name value unit timestamp).

Lemma invoke_opcua callback w :
  opcua_connector (state_after (invoke callback name value unit timestamp) w)
  = opcua_connector w.
Proof.
  destruct callback; unfold state_after; simpl.
  - unfold db_update_callback, bind, get_world; simpl.
    destruct (db_connector w) as [d|] eqn:Hd; [|done].
    destruct (DbConnector.connected d); [|done].
    unfold db_connector.update_value, db_connector.update. by rewrite Hd.
  - unfold unity_connector.on_value_update, unity_connector.update.
    by destruct (unity_connector w).
  - unfold bind, emit, modify, ask; simpl.
    by destruct (listener_raises (env w) n).
Qed.

Lemma invoke_db callback w :
  db_connector (state_after (invoke callback name value unit timestamp) w)
  = match callback with
    | cb_db_update_callback => db_upd <$> db_connector w
    | _ => db_connector w
    end.
Proof.
  destruct callback; unfold state_after; simpl.
  - unfold db_update_callback, bind, get_world, db_updated; simpl.
    destruct (db_connector w) as [d|] eqn:Hd; [|done]. simpl.
    destruct (DbConnector.connected d); [|done].
    unfold db_connector.update_value, db_connector.update. by rewrite Hd.
  - unfold unity_connector.on_value_update, unity_connector.update.
    by destruct (unity_connector w).
  - unfold bind, emit, modify, ask; simpl.
    by destruct (listener_raises (env w) n).
Qed.

Lemma invoke_unity callback w :
  unity_connector
    (state_after (invoke callback name value unit timestamp) w)
  = match callback with
    | cb_on_value_update => unity_upd <$> unity_connector w
    | _ => unity_connector w
    end.
Proof.
  destruct callback; unfold state_after; simpl.
  - unfold db_update_callback, bind, get_world; simpl.
    destruct (db_connector w) as [d|] eqn:Hd; [|done].
    destruct (DbConnector.connected d); [|done].
    unfold db_connector.update_value, db_connector.update. by rewrite Hd.
  - unfold unity_connector.on_value_update, unity_connector.update,
      unity_updated.
    destruct (unity_connector w) eqn:Hu; simpl; [done | by rewrite Hu].
  - unfold bind, emit, modify, ask; simpl.
    by destruct (listener_raises (env w) n).
Qed.

Lemma invoke_env callback w :
  env (state_after (invoke callback name value unit timestamp) w)
  = match call callback with
    | Some ef => set_trace (trace (env w) ++ [ef]) (env w)
    | None => env w
    end.
Proof.
  destruct callback; unfold state_after; simpl.
  - unfold db_update_callback, bind, get_world; simpl.
    destruct (db_connector w) as [d|] eqn:Hd; [|done].
    destruct (DbConnector.connected d); [|done].
    unfold db_connector.update_value, db_connector.update. by rewrite Hd.
  - unfold unity_connector.on_value_update, unity_connector.update.
    by destruct (unity_connector w).
  - unfold bind, emit, modify, ask; simpl.
    by destruct (listener_raises (env w) n).
Qed.

(** The listeners leave the protocol connector as it is. *)
Lemma listeners_run_opcua l w :
  opcua_connector (listeners_run invoke l name value unit timestamp w)
  = opcua_connector w.
Proof.
  unfold listeners_run. revert w.
  induction l as [|cb l IH]; intros w; simpl; [done|].
  by rewrite IH, invoke_opcua.
Qed.

(** The listeners foreign to the gateway are called in registration
    order; nothing else of the environment changes. *)
Lemma listeners_run_env l w :
  env (listeners_run invoke l name value unit timestamp w)
  = set_trace (trace (env w) ++ omap call l) (env w).
Proof.
  unfold listeners_run. revert w.
  induction l as [|cb l IH]; intros w; simpl.
  - rewrite app_nil_r. by destruct (env w).
  - rewrite IH, invoke_env.
    destruct (call cb); simpl; [|done].
    by rewrite <- app_assoc.
Qed.

Lemma db_updated_idemp d : db_upd (db_upd d) = db_upd d.
Proof.
  unfold db_updated. destruct (DbConnector.connected d) eqn:Hc.
  - simpl. rewrite Hc. unfold DbConnector.set_current_values; simpl.
    by rewrite dict_set_idemp.
  - by rewrite Hc.
Qed.

Lemma unity_updated_idemp u :
  unity_upd (unity_upd u) = unity_upd u.
Proof.
  unfold unity_updated, UnityConnector.set_latest_values; simpl.
  by rewrite dict_set_idemp.
Qed.

Lemma bool_decide_elem_of_cons_ne (x y : Callback) (l : list Callback) :
  x ≠ y → bool_decide (x ∈ y :: l) = bool_decide (x ∈ l).
Proof.
  intros Hne. apply bool_decide_ext. rewrite elem_of_cons.
  split; [by intros [?|?] | by right].
Qed.

(** The persistence cache after the listeners: written once
    [db_update_callback] is among them. *)
Lemma listeners_run_db l w :
  db_connector (listeners_run invoke l name value unit timestamp w)
  = if bool_decide (cb_db_update_callback ∈ l)
    then db_upd <$> db_connector w else db_connector w.
Proof.
  unfold listeners_run. revert w.
  induction l as [|cb l IH]; intros w; simpl; [done|].
  rewrite IH, invoke_db.
  destruct cb.
  - rewrite (bool_decide_eq_true_2
               (cb_db_update_callback ∈ cb_db_update_callback :: l))
      by apply list_elem_of_here.
    case_bool_decide; [|done].
    destruct (db_connector w); simpl; [|done]. by rewrite db_updated_idemp.
  - by rewrite bool_decide_elem_of_cons_ne.
  - by rewrite bool_decide_elem_of_cons_ne.
Qed.

(** The cache of the HTTP surface after the listeners. *)
Lemma listeners_run_unity l w :
  unity_connector (listeners_run invoke l name value unit timestamp w)
  = if bool_decide (cb_on_value_update ∈ l)
    then unity_upd <$> unity_connector w else unity_connector w.
Proof.
  unfold listeners_run. revert w.
  induction l as [|cb l IH]; intros w; simpl; [done|].
  rewrite IH, invoke_unity.
  destruct cb.
  - by rewrite bool_decide_elem_of_cons_ne.
  - rewrite (bool_decide_eq_true_2
               (cb_on_value_update ∈ cb_on_value_update :: l))
      by apply list_elem_of_here.
    case_bool_decide; [|done].
    destruct (unity_connector w); simpl; [|done].
    by rewrite unity_updated_idemp.
  - by rewrite bool_decide_elem_of_cons_ne.
Qed.
End InvokeFacts.

(** ** Listener isolation *)



(** With the callables of the gateway, both foreign listeners of the
    example are called, the failing one first, and the cache holds the
    sample at the end. *)
Example failing_listener_then_good_listener :
  let w := demo_world [cb_listener 0; cb_listener 1] [] in
  let w' :=
    state_after
      (opcua_connector.datachange_notification invoke "ns=2;i=5"
         (PyStr "23.456")) w in
  trace (env w')
  = [EListener 0 "Temp1" (Some demo_value) "C" (Datetime 1001);
     EListener 1 "Temp1" (Some demo_value) "C" (Datetime 1001)]
  ∧ OpcUaConnector.latest_values (opcua_connector w')
    = [("Temp1", Sample.mk (Some demo_value) "C" (IsoString 1000))].
Proof. vm_compute. done. Qed.

(** ** The tuple listeners receive *)

(** C6 (as stated) fails: the listener of the example is called with the
    instant 1001 while the cache entry written for the event carries the
    instant 1000. *)
Lemma listeners_receive_cached_tuple_counterexample :
  ¬ listeners_receive_cached_tuple (demo_world [cb_listener 1] [])
      "ns=2;i=5" (PyStr "23.456").
Proof.
  intros H.
  destruct (H demo_node 1%nat "Temp1" (Some demo_value) "C" (Datetime 1001))
    as (sample & Hget & _ & _ & _ & Hts).
  - reflexivity.
  - vm_compute. apply list_elem_of_here.
  - vm_compute in Hget. injection Hget as <-. vm_compute in Hts. discriminate.
Qed.

(** What an accepted event does to each part of the process, with the
    callables of the gateway. *)
Lemma datachange_notification_effect
    (w : World) (node : string) (val : PyValue) (node_info : NodeInfo.t)
    (value : option binary64) :
  resolve w node = Some node_info →
  opcua_connector.safe_float val = Ok value →
  let name := NodeInfo.name node_info in
  let unit := NodeInfo.unit node_info in
  let callbacks := OpcUaConnector.value_callbacks (opcua_connector w) in
  let sample := Sample.mk value unit (IsoString (next_instant w)) in
  let timestamp := Datetime (next_instant (clock_read w)) in
  let w' :=
    state_after (opcua_connector.datachange_notification invoke node val) w in
  opcua_connector w'
  = OpcUaConnector.set_latest_values
      (dict_set name sample
         (OpcUaConnector.latest_values (opcua_connector w)))
      (opcua_connector w)
  ∧ env w'
    = set_trace
        (trace (env w) ++ omap (listener_call name value unit timestamp)
                            callbacks)
        (set_clock_reads (S (S (clock_reads (env w)))) (env w))
  ∧ db_connector w'
    = (if bool_decide (cb_db_update_callback ∈ callbacks)
       then db_updated name value unit timestamp <$> db_connector w
       else db_connector w)
  ∧ unity_connector w'
    = (if bool_decide (cb_on_value_update ∈ callbacks)
       then unity_updated name value unit timestamp <$> unity_connector w
       else unity_connector w).
Proof.
  intros Hres Hval name unit callbacks sample timestamp w'.
  subst w'. unfold state_after at 1 2 3 4.
  rewrite (datachange_notification_accepted invoke node val node_info value)
    by done.
  cbn [snd]. fold name unit.
  rewrite listeners_run_opcua, listeners_run_env, listeners_run_db,
    listeners_run_unity.
  done.
Qed.

(** C6 (amended): for an accepted event the cache entry is written with
    the first reading of the clock, as ISO text, and every registered
    listener is then called, before the handler returns, with the name,
    value and unit of that entry and with the next reading of the clock,
    as a [datetime]: the foreign listeners appear in the trace in
    registration order, [db_update_callback] writes the persistence cache
    and [on_value_update] the cache of the HTTP surface with that
    tuple. *)
Theorem listeners_receive_next_clock_reading
    (w : World) (node : string) (val : PyValue) (node_info : NodeInfo.t)
    (value : option binary64) :
  resolve w node = Some node_info →
  opcua_connector.safe_float val = Ok value →
  let name := NodeInfo.name node_info in
  let unit := NodeInfo.unit node_info in
  let callbacks := OpcUaConnector.value_callbacks (opcua_connector w) in
  let t_cache := clock (env w) (clock_reads (env w)) in
  let t_listeners := clock (env w) (S (clock_reads (env w))) in
  let w' :=
    state_after (opcua_connector.datachange_notification invoke node val) w in
  dict_get name (OpcUaConnector.latest_values (opcua_connector w'))
  = Some (Sample.mk value unit (IsoString t_cache))
  ∧ trace (env w')
    = trace (env w)
      ++ omap (listener_call name value unit (Datetime t_listeners)) callbacks
  ∧ db_connector w'
    = (if bool_decide (cb_db_update_callback ∈ callbacks)
       then db_updated name value unit (Datetime t_listeners) <$> db_connector w
       else db_connector w)
  ∧ unity_connector w'
    = (if bool_decide (cb_on_value_update ∈ callbacks)
       then unity_updated name value unit (Datetime t_listeners)
              <$> unity_connector w
       else unity_connector w).
Proof.
  intros Hres Hval name unit callbacks t_cache t_listeners w'.
  destruct (datachange_notification_effect w node val node_info value
              Hres Hval) as (Ho & He & Hd & Hu).
  fold w' name unit callbacks in Ho, He, Hd, Hu.
  split_and!.
  - rewrite Ho. simpl. apply dict_get_set_eq.
  - by rewrite He.
  - exact Hd.
  - exact Hu.
Qed.

Lemma listeners_receive_next_clock_reading_witness :
  let w := demo_world [cb_listener 1; cb_db_update_callback] [] in
  let w' :=
    state_after
      (opcua_connector.datachange_notification invoke "ns=2;i=5"
         (PyStr "23.456")) w in
  dict_get "Temp1" (OpcUaConnector.latest_values (opcua_connector w'))
  = Some (Sample.mk (Some demo_value) "C" (IsoString 1000))
  ∧ trace (env w')
    = trace (env w)
      ++ omap (listener_call "Temp1" (Some demo_value) "C" (Datetime 1001))
           [cb_listener 1; cb_db_update_callback]
  ∧ db_connector w'
    = (if bool_decide
            (cb_db_update_callback ∈ [cb_listener 1; cb_db_update_callback])
       then db_updated "Temp1" (Some demo_value) "C" (Datetime 1001)
              <$> db_connector w
       else db_connector w)
  ∧ unity_connector w'
    = (if bool_decide
            (cb_on_value_update ∈ [cb_listener 1; cb_db_update_callback])
       then unity_updated "Temp1" (Some demo_value) "C" (Datetime 1001)
              <$> unity_connector w
       else unity_connector w).
Proof.
  apply (listeners_receive_next_clock_reading
           (demo_world [cb_listener 1; cb_db_update_callback] [])
           "ns=2;i=5" (PyStr "23.456") demo_node (Some demo_value));
    vm_compute; reflexivity.
Defined.

(** ** Last write wins *)

Lemma same_but_tag_refl name w : same_but_tag name w w.
Proof. by split. Qed.

Lemma same_but_tag_trans name w1 w2 w3 :
  same_but_tag name w1 w2 → same_but_tag name w2 w3 → same_but_tag name w1 w3.
Proof.
  intros H12 H23. pose proof H12 as []. pose proof H23 as [].
  split; try (etrans; eassumption); eauto.
  - intros k Hk. rewrite (sbt_latest _ _ _ H23 k Hk).
    apply (sbt_latest _ _ _ H12 k Hk).
  - intros k Hk. rewrite (sbt_db_cache _ _ _ H23 k Hk).
    apply (sbt_db_cache _ _ _ H12 k Hk).
  - intros k Hk. rewrite (sbt_unity_cache _ _ _ H23 k Hk).
    apply (sbt_unity_cache _ _ _ H12 k Hk).
Qed.

Lemma db_updated_connected name value unit ts d :
  DbConnector.connected (db_updated name value unit ts d)
  = DbConnector.connected d.
Proof. unfold db_updated. by destruct (DbConnector.connected d) eqn:E. Qed.

Lemma db_updated_current_values name value unit ts d :
  DbConnector.current_values (db_updated name value unit ts d)
  = if DbConnector.connected d
    then dict_set name (Sample.mk value unit ts) (DbConnector.current_values d)
    else DbConnector.current_values d.
Proof. unfold db_updated. by destruct (DbConnector.connected d). Qed.

(** The listeners of an event of the tag [name] touch the entries of
    [name] only. *)
Lemma listeners_run_same_but_tag l name value unit ts w :
  same_but_tag name w (listeners_run invoke l name value unit ts w).
Proof.
  pose proof (listeners_run_opcua name value unit ts l w) as Ho.
  pose proof (listeners_run_env name value unit ts l w) as He.
  pose proof (listeners_run_db name value unit ts l w) as Hd.
  pose proof (listeners_run_unity name value unit ts l w) as Hu.
  set (w' := listeners_run invoke l name value unit ts w) in *.
  assert (Hdb : db_connector w' = db_connector w
                ∨ db_connector w' = db_updated name value unit ts <$> db_connector w).
  { destruct (bool_decide (cb_db_update_callback ∈ l)); auto. }
  assert (Hun : unity_connector w' = unity_connector w
                ∨ unity_connector w'
                  = unity_updated name value unit ts <$> unity_connector w).
  { destruct (bool_decide (cb_on_value_update ∈ l)); auto. }
  clear Hd Hu.
  split.
  - by rewrite Ho.
  - by rewrite Ho.
  - by rewrite He.
  - destruct Hdb as [->| ->]; [done | by rewrite fmap_is_Some].
  - destruct Hun as [->| ->]; [done | by rewrite fmap_is_Some].
  - unfold db_connected. destruct Hdb as [->| ->]; [done|].
    destruct (db_connector w); simpl; [|done]. apply db_updated_connected.
  - intros k Hk. by rewrite Ho.
  - intros k Hk. unfold db_cache. destruct Hdb as [->| ->]; [done|].
    destruct (db_connector w) as [d|]; [|done].
    simpl. rewrite db_updated_current_values.
    destruct (DbConnector.connected d); [|done].
    by apply dict_get_set_ne.
  - intros k Hk. unfold unity_cache. destruct Hun as [->| ->]; [done|].
    destruct (unity_connector w) as [u|]; [|done].
    simpl. by apply dict_get_set_ne.
  - by rewrite Ho.
  - unfold db_cache. destruct Hdb as [->| ->]; [done|].
    destruct (db_connector w) as [d|]; simpl; [|done].
    rewrite db_updated_current_values.
    destruct (DbConnector.connected d); [|done].
    apply NoDup_keys_dict_set.
  - unfold unity_cache. destruct Hun as [->| ->]; [done|].
    destruct (unity_connector w) as [u|]; simpl; [|done].
    apply NoDup_keys_dict_set.
Qed.

(** An event touches the entries of the tag it resolves to only. *)
Lemma datachange_notification_same_but_tag node val name w :
  (∀ node_info, resolve w node = Some node_info →
                NodeInfo.name node_info = name) →
  same_but_tag name w
    (state_after (opcua_connector.datachange_notification invoke node val) w).
Proof.
  intros Hname. unfold state_after.
  destruct (resolve w node) as [node_info|] eqn:Hres.
  - destruct (opcua_connector.safe_float val) as [value|e] eqn:Hval.
    + rewrite (datachange_notification_accepted invoke node val node_info value)
        by done.
      cbn [snd]. rewrite (Hname node_info eq_refl).
      eapply same_but_tag_trans; [|apply listeners_run_same_but_tag].
      split; try done.
      * intros k Hk. simpl. by apply dict_get_set_ne.
      * simpl. apply NoDup_keys_dict_set.
    + rewrite (datachange_notification_rejected invoke node val node_info e)
        by done.
      apply same_but_tag_refl.
  - rewrite datachange_notification_unknown by done.
    apply same_but_tag_refl.
Qed.

Lemma resolve_same_nodes w w' node :
  OpcUaConnector.nodes_to_monitor (opcua_connector w')
  = OpcUaConnector.nodes_to_monitor (opcua_connector w) →
  resolve w' node = resolve w node.
Proof. unfold resolve. by intros ->. Qed.

Lemma deliver_same_but_tag node vals name w :
  (∀ node_info, resolve w node = Some node_info →
                NodeInfo.name node_info = name) →
  outcome (deliver node vals) w = Ok tt
  ∧ same_but_tag name w (state_after (deliver node vals) w).
Proof.
  revert w. induction vals as [|val vals IH]; intros w Hname.
  - split; [done | apply same_but_tag_refl].
  - pose proof (datachange_notification_same_but_tag node val name w Hname)
      as Hstep.
    unfold deliver, outcome, state_after in *. simpl. unfold bind.
    destruct (opcua_connector.datachange_notification invoke node val w)
      as [r w1] eqn:Hrun.
    assert (r = Ok tt) as ->.
    { destruct (resolve w node) as [ni|] eqn:Hres.
      - destruct (opcua_connector.safe_float val) as [value|e] eqn:Hval.
        + rewrite (datachange_notification_accepted invoke node val ni value)
            in Hrun by done. by injection Hrun as <- _.
        + rewrite (datachange_notification_rejected invoke node val ni e)
            in Hrun by done. by injection Hrun as <- _.
      - rewrite datachange_notification_unknown in Hrun by done.
        by injection Hrun as <- _. }
    simpl in Hstep.
    destruct (IH w1) as [Hok Hsame].
    { intros ni. rewrite (resolve_same_nodes w w1); [apply Hname|].
      apply Hstep. }
    split; [done|]. by eapply same_but_tag_trans.
Qed.

Lemma deliver_snoc node vals last w :
  state_after (deliver node (vals ++ [last])) w
  = state_after (opcua_connector.datachange_notification invoke node last)
      (state_after (deliver node vals) w).
Proof.
  unfold deliver, state_after. rewrite for_each_app. unfold bind.
  pose proof (deliver_same_but_tag node vals
                (match resolve w node with
                 | Some ni => NodeInfo.name ni
                 | None => ""
                 end) w) as [Hok _].
  { by intros ni ->. }
  unfold deliver, outcome in Hok.
  destruct (for_each vals _ w) as [r w1]. simpl in Hok. subst r.
  simpl. unfold bind.
  by destruct (opcua_connector.datachange_notification invoke node last w1)
    as [[[]|e] w2].
Qed.

(** C2: after the events of one tag, delivered in order, the value cache
    holds for the tag exactly the value, the unit and the timestamp of the
    last event, and so does the persistence cache, through
    [db_update_callback] and [update_value], when storage is connected and
    the callback registered; at every point of the sequence the entries of
    all other tags are as they were and each cache has at most one entry
    per tag name. *)
Theorem last_write_wins (w : World) (node : string) (node_info : NodeInfo.t)
    (vals : list PyValue) (last : PyValue) (value : option binary64) :
  resolve w node = Some node_info →
  opcua_connector.safe_float last = Ok value →
  NoDup (keys (OpcUaConnector.latest_values (opcua_connector w))) →
  NoDup (keys (db_cache w)) →
  let name := NodeInfo.name node_info in
  let unit := NodeInfo.unit node_info in
  let w1 := state_after (deliver node vals) w in
  let w2 := state_after (deliver node (vals ++ [last])) w in
  dict_get name (OpcUaConnector.latest_values (opcua_connector w2))
  = Some (Sample.mk value unit (IsoString (next_instant w1)))
  ∧ (db_connected w = true →
     cb_db_update_callback
       ∈ OpcUaConnector.value_callbacks (opcua_connector w) →
     dict_get name (db_cache w2)
     = Some (Sample.mk value unit (Datetime (next_instant (clock_read w1)))))
  ∧ (∀ k : nat,
       let wk := state_after (deliver node (take k (vals ++ [last]))) w in
       NoDup (keys (OpcUaConnector.latest_values (opcua_connector wk)))
       ∧ NoDup (keys (db_cache wk))
       ∧ ∀ other, other ≠ name →
           dict_get other (OpcUaConnector.latest_values (opcua_connector wk))
           = dict_get other
               (OpcUaConnector.latest_values (opcua_connector w))
           ∧ dict_get other (db_cache wk) = dict_get other (db_cache w)).
Proof.
  intros Hres Hval Hnd Hnd_db name unit w1 w2.
  assert (Hname : ∀ ni, resolve w node = Some ni → NodeInfo.name ni = name).
  { intros ni. rewrite Hres. by intros [= <-]. }
  destruct (deliver_same_but_tag node vals name w Hname) as [_ H1].
  fold w1 in H1.
  assert (Hres1 : resolve w1 node = Some node_info).
  { rewrite (resolve_same_nodes w w1); [done | apply H1]. }
  pose proof (datachange_notification_effect w1 node last node_info value
                Hres1 Hval) as (Hlatest & _ & Hdb & _).
  subst w2. rewrite deliver_snoc. fold w1.
  split_and!.
  - rewrite Hlatest. simpl. apply dict_get_set_eq.
  - intros Hconn Hreg. unfold db_cache. rewrite Hdb.
    rewrite (sbt_callbacks _ _ _ H1).
    rewrite bool_decide_eq_true_2 by done.
    pose proof (sbt_connected _ _ _ H1) as Hc. rewrite Hconn in Hc.
    unfold db_connected in Hc.
    destruct (db_connector w1) as [d1|]; [|done]. simpl.
    rewrite db_updated_current_values, Hc. apply dict_get_set_eq.
  - intros k wk.
    destruct (deliver_same_but_tag node (take k (vals ++ [last])) name w Hname)
      as [_ Hk]. fold wk in Hk.
    split_and!.
    + by apply Hk.
    + by apply Hk.
    + intros other Hother. split; by apply Hk.
Qed.

Lemma last_write_wins_witness :
  let w := demo_world [cb_listener 0; cb_db_update_callback] [] in
  let vals := [PyStr "1.5"; PyStr "N/A"; PyInt 7] in
  let w1 := state_after (deliver "ns=2;i=5" vals) w in
  let w2 := state_after (deliver "ns=2;i=5" (vals ++ [PyStr "23.456"])) w in
  dict_get "Temp1" (OpcUaConnector.latest_values (opcua_connector w2))
  = Some (Sample.mk (Some demo_value) "C" (IsoString (next_instant w1)))
  ∧ (db_connected w = true →
     cb_db_update_callback
       ∈ OpcUaConnector.value_callbacks (opcua_connector w) →
     dict_get "Temp1" (db_cache w2)
     = Some (Sample.mk (Some demo_value) "C"
               (Datetime (next_instant (clock_read w1)))))
  ∧ (∀ k : nat,
       let wk :=
         state_after
           (deliver "ns=2;i=5" (take k (vals ++ [PyStr "23.456"]))) w in
       NoDup (keys (OpcUaConnector.latest_values (opcua_connector wk)))
       ∧ NoDup (keys (db_cache wk))
       ∧ ∀ other, other ≠ "Temp1" →
           dict_get other (OpcUaConnector.latest_values (opcua_connector wk))
           = dict_get other
               (OpcUaConnector.latest_values (opcua_connector w))
           ∧ dict_get other (db_cache wk) = dict_get other (db_cache w)).
Proof.
  apply (last_write_wins (demo_world [cb_listener 0; cb_db_update_callback] [])
           "ns=2;i=5" demo_node [PyStr "1.5"; PyStr "N/A"; PyInt 7]
           (PyStr "23.456") (Some demo_value)).
  - reflexivity.
  - vm_compute. reflexivity.
  - simpl. apply NoDup_nil_2.
  - simpl. apply NoDup_nil_2.
Defined.

(** The cache of the example after the four events: one entry, the last
    event's. *)
Example last_write_wins_example :
  let w := demo_world [cb_listener 0; cb_db_update_callback] [] in
  let w2 :=
    state_after
      (deliver "ns=2;i=5" [PyStr "1.5"; PyStr "N/A"; PyInt 7; PyStr "23.456"])
      w in
  OpcUaConnector.latest_values (opcua_connector w2)
  = [("Temp1", Sample.mk (Some demo_value) "C" (IsoString 1006))]
  ∧ db_cache w2 = [("Temp1", Sample.mk (Some demo_value) "C" (Datetime 1007))].
Proof. vm_compute. done. Qed.

(** ** Normalization *)

(** [round_half_even] gives an integer nearest to the quotient. *)
Lemma round_half_even_nearest (num den : Z) :
  0 < den →
  Z.abs (2 * num - 2 * round_half_even num den * den) <= den.
Proof.
  intros Hden. unfold round_half_even.
  pose proof (Z.div_mod num den ltac:(lia)) as Hdm.
  pose proof (Z.mod_pos_bound num den Hden) as Hr.
  set (q := num / den) in *. set (r := num mod den) in *.
  destruct (Z.compare_spec (2 * r) den) as [Heq|Hlt|Hgt].
  - destruct (Z.even q); nia.
  - nia.
  - nia.
Qed.

(** [hundredths m e] is an integer nearest to [100 * m * 2^e]. *)
Lemma hundredths_nearest (m : positive) (e : Z) :
  let num := Zpos m * 100 * 2 ^ Z.max e 0 in
  let den := 2 ^ Z.max (- e) 0 in
  Z.abs (2 * num - 2 * hundredths m e * den) <= den.
Proof.
  unfold hundredths. destruct (Z.leb_spec 0 e) as [Hge|Hlt]; simpl.
  - rewrite (Z.max_l e 0), (Z.max_r (- e) 0) by lia.
    change (2 ^ 0) with 1. nia.
  - rewrite (Z.max_r e 0), (Z.max_l (- e) 0) by lia.
    change (2 ^ 0) with 1. rewrite Z.mul_1_r.
    apply round_half_even_nearest. apply Z.pow_pos_nonneg; lia.
Qed.

(** [float] of a protocol payload raises nothing but [ValueError] and
    [TypeError]. *)
Lemma py_float_protocol_payload (v : PyValue) (e : exn) :
  protocol_payload v → py_float v = Raise e →
  is_ValueError_or_TypeError e = true.
Proof.
  intros Hv Hraise.
  destruct v as [|b|n|x|s|s|t|l|cls]; simpl in *;
    try (by injection Hraise as <-); try discriminate.
  - unfold int_to_binary64 in Hraise.
    assert (Hbig : 2 ^ 64 < 2 ^ 1024 - 2 ^ 970) by (vm_compute; reflexivity).
    destruct (Z.leb_spec (2 ^ 1024 - 2 ^ 970) (Z.abs n)) as [Hle|Hgt];
      [|done].
    exfalso.
    assert (H63 : 2 ^ 63 < 2 ^ 64) by (vm_compute; reflexivity).
    remember (2 ^ 1024 - 2 ^ 970) as big. remember (2 ^ 64) as b64.
    remember (2 ^ 63) as b63. lia.
  - destruct (float_from_string str_float_isspace s); [done|].
    by injection Hraise as <-.
  - destruct (float_from_string bytes_isspace s); [done|].
    by injection Hraise as <-.
Qed.

(** C7: on every payload of the protocol client [safe_float] returns, and
    never raises: when [float] reads the payload as a number the result is
    that number passed through [round(., 2)], which for a finite number
    [m * 2^e] is the binary64 nearest to [n / 100] for an integer [n]
    nearest to [100 * m * 2^e]; in every other case the result is [None]. *)
Theorem safe_float_total_and_rounds (v : PyValue) :
  protocol_payload v →
  (∃ r, opcua_connector.safe_float v = Ok r)
  ∧ (∀ x, py_float v = Ok x →
          opcua_connector.safe_float v = Ok (Some (py_round2 x)))
  ∧ (∀ e, py_float v = Raise e → opcua_connector.safe_float v = Ok None)
  ∧ (∀ s m e, py_float v = Ok (S754_finite s m e) →
       ∃ n, opcua_connector.safe_float v
            = Ok (Some (decimal_to_binary64 s n (-2)))
            ∧ Z.abs (2 * (Zpos m * 100 * 2 ^ Z.max e 0)
                     - 2 * n * 2 ^ Z.max (- e) 0)
              <= 2 ^ Z.max (- e) 0).
Proof.
  intros Hv.
  assert (Hok : ∀ x, py_float v = Ok x →
                  opcua_connector.safe_float v = Ok (Some (py_round2 x))).
  { intros x Hx. unfold opcua_connector.safe_float. by rewrite Hx. }
  assert (Hraise : ∀ e, py_float v = Raise e →
                     opcua_connector.safe_float v = Ok None).
  { intros e He. unfold opcua_connector.safe_float. rewrite He.
    by rewrite (py_float_protocol_payload v e Hv He). }
  split_and!; [|done|done|].
  - destruct (py_float v) as [x|e] eqn:Hf; eauto.
  - intros s m e Hf. exists (hundredths m e). split.
    + by rewrite (Hok _ Hf).
    + apply hundredths_nearest.
Qed.

Lemma safe_float_total_and_rounds_witness :
  (∃ r, opcua_connector.safe_float (PyStr "23.456") = Ok r)
  ∧ (∀ x, py_float (PyStr "23.456") = Ok x →
          opcua_connector.safe_float (PyStr "23.456")
          = Ok (Some (py_round2 x)))
  ∧ (∀ e, py_float (PyStr "23.456") = Raise e →
          opcua_connector.safe_float (PyStr "23.456") = Ok None)
  ∧ (∀ s m e, py_float (PyStr "23.456") = Ok (S754_finite s m e) →
       ∃ n, opcua_connector.safe_float (PyStr "23.456")
            = Ok (Some (decimal_to_binary64 s n (-2)))
            ∧ Z.abs (2 * (Zpos m * 100 * 2 ^ Z.max e 0)
                     - 2 * n * 2 ^ Z.max (- e) 0)
              <= 2 ^ Z.max (- e) 0).
Proof. apply (safe_float_total_and_rounds (PyStr "23.456")). exact I. Defined.

(** The scenarios of the specification: ["23.456"] normalizes to 23.46,
    ["N/A"] and an absent payload to [None]; binary ties go to the even
    hundredth and 2.675, which is below the tie in binary, goes down. *)
Example safe_float_23_456 :
  py_float (PyStr "23.456") = Ok (S754_finite false 6602277053725147 (-48))
  ∧ opcua_connector.safe_float (PyStr "23.456") = Ok (Some demo_value).
Proof. vm_compute. done. Qed.

Example safe_float_not_a_number :
  opcua_connector.safe_float (PyStr "N/A") = Ok None
  ∧ opcua_connector.safe_float PyNone = Ok None
  ∧ opcua_connector.safe_float (PyList [PyInt 1]) = Ok None.
Proof. vm_compute. done. Qed.

Example safe_float_ties :
  opcua_connector.safe_float (PyStr "0.125")
  = Ok (Some (S754_finite false 8646911284551352 (-56)))
  ∧ opcua_connector.safe_float (PyStr "2.675")
    = Ok (Some (S754_finite false 6012305502539612 (-51)))
  ∧ opcua_connector.safe_float (PyInt 7)
    = Ok (Some (S754_finite false 7881299347898368 (-50))).
Proof. vm_compute. done. Qed.

(** An integer no Variant can carry makes [safe_float] raise. *)
Example safe_float_huge_int :
  opcua_connector.safe_float (PyInt (2 ^ 1024)) = Raise OverflowError.
Proof. vm_compute. done. Qed.

(** ** The tag registry *)

(** C5 (as stated) fails: the configuration of the example declares the
    index 2 without a node identifier, and the registry is built, with the
    tag 1 alone. *)
Lemma fails_on_missing_node_id_counterexample :
  ¬ fails_on_missing_node_id demo_config.
Proof.
  intros H.
  destruct (H {[ "node1_id" := "ns=2;i=5"; "node1_name" := "Temp1";
                 "node1_unit" := "C"; "node2_name" := "Temp2";
                 "node2_unit" := "C" ]} 2%nat) as [e He].
  - reflexivity.
  - right. left. vm_compute. eauto.
  - vm_compute. reflexivity.
  - vm_compute in He. discriminate.
Qed.

Example init_demo_config :
  opcua_connector.__init__ demo_config
  = inr (OpcUaConnector.mk [NodeInfo.mk "ns=2;i=5" "Temp1" "C"]
           false false [] false [] []).
Proof. vm_compute. reflexivity. Qed.

Lemma list_ascii_of_string_app (s1 s2 : string) :
  list_ascii_of_string (s1 +:+ s2)
  = list_ascii_of_string s1 ++ list_ascii_of_string s2.
Proof. induction s1 as [|a s1 IH]; simpl; [done | by rewrite IH]. Qed.

Lemma string_app_inj_r (s1 s2 t : string) : s1 +:+ t = s2 +:+ t → s1 = s2.
Proof.
  intros H. apply (f_equal list_ascii_of_string) in H.
  rewrite !list_ascii_of_string_app in H. apply app_inv_tail in H.
  apply (f_equal string_of_list_ascii) in H.
  by rewrite !string_of_list_ascii_of_string in H.
Qed.

(** Two indexes have different option names. *)
Lemma node_key_inj (attr : string) (i j : nat) :
  opcua_connector.node_key i attr = opcua_connector.node_key j attr → i = j.
Proof.
  unfold opcua_connector.node_key. intros H.
  apply (inj (String.app "node")) in H.
  apply string_app_inj_r in H. by apply (inj pretty) in H.
Qed.

(** A run of indexes that all have a node identifier is no longer than
    the section. *)
Lemma consecutive_ids_bound (section : gmap string string) (i k : nat) :
  (∀ j, (i ≤ j < i + k)%nat →
        is_Some (section !! opcua_connector.node_key j "_id")) →
  (k ≤ size section)%nat.
Proof.
  intros Hids.
  set (l := (fun j => opcua_connector.node_key j "_id") <$> seq i k).
  assert (Hnd : NoDup l).
  { apply NoDup_fmap_2; [|apply NoDup_seq].
    intros x y. apply node_key_inj. }
  assert (Hsub : l ⊆+ elements (dom section)).
  { apply NoDup_submseteq; [done|]. intros x Hx.
    apply list_elem_of_fmap in Hx as (j & -> & Hj).
    apply elem_of_seq in Hj. apply elem_of_elements, elem_of_dom.
    apply Hids. lia. }
  apply submseteq_length in Hsub.
  unfold l in Hsub. rewrite length_fmap, length_seq in Hsub.
  by rewrite <- size_dom.
Qed.

(** A decidable property holds from 1 up to a bound, or there is a first
    index below the bound at which it fails. *)
Lemma first_failure (P : nat → Prop) `{!∀ i, Decision (P i)} (n : nat) :
  (∀ i, (1 ≤ i ≤ n)%nat → P i)
  ∨ ∃ k, (k < n)%nat ∧ (∀ i, (1 ≤ i ≤ k)%nat → P i) ∧ ¬ P (S k).
Proof.
  induction n as [|n [Hall|(k & Hk & Hbelow & Hfail)]].
  - left. intros i Hi. lia.
  - destruct (decide (P (S n))) as [HP|HP].
    + left. intros i Hi.
      destruct (decide (i = S n)) as [->|]; [done|]. apply Hall. lia.
    + right. exists n. split_and!; [lia | done | done].
  - right. exists k. split_and!; [lia | done | done].
Qed.

(** The node identifiers of a section stop somewhere. *)
Lemma first_missing_node_id (section : gmap string string) :
  ∃ k, (k ≤ size section)%nat
       ∧ (∀ i, (1 ≤ i ≤ k)%nat →
               is_Some (section !! opcua_connector.node_key i "_id"))
       ∧ section !! opcua_connector.node_key (S k) "_id" = None.
Proof.
  destruct (first_failure
              (fun i => is_Some (section !! opcua_connector.node_key i "_id"))
              (S (size section))) as [Hall|(k & Hk & Hbelow & Hfail)].
  - exfalso.
    assert (Hb : (S (size section) ≤ size section)%nat); [|lia].
    apply (consecutive_ids_bound section 1).
    intros j Hj. apply Hall. lia.
  - exists k. split_and!; [lia | done |].
    by apply eq_None_not_Some.
Qed.

(** The option names of the loop are in lower case: [optionxform] leaves
    them as they are. *)
Lemma str_lower_String (c : ascii) (s : string) :
  configparser.str_lower (String c s)
  = String (configparser.lower_char c) (configparser.str_lower s).
Proof. reflexivity. Qed.

Lemma str_lower_app (s1 s2 : string) :
  configparser.str_lower (s1 +:+ s2)
  = configparser.str_lower s1 +:+ configparser.str_lower s2.
Proof.
  induction s1 as [|c s1 IH]; [done|].
  change (String c s1 +:+ s2) with (String c (s1 +:+ s2)).
  rewrite !str_lower_String, IH. done.
Qed.

Lemma lower_char_digit (x : N) :
  configparser.lower_char (pretty_N_char x) = pretty_N_char x.
Proof. unfold pretty_N_char. by repeat case_match. Qed.

Lemma str_lower_pretty_N_go (x : N) (s : string) :
  configparser.str_lower s = s →
  configparser.str_lower (pretty_N_go x s) = pretty_N_go x s.
Proof.
  revert s. induction (N.lt_wf_0 x) as [x _ IH]. intros s Hs.
  destruct (decide (x = 0)%N) as [->|Hx]; [by rewrite pretty_N_go_0|].
  rewrite pretty_N_go_step by lia.
  apply IH; [apply N.div_lt; lia|].
  by rewrite str_lower_String, lower_char_digit, Hs.
Qed.

Lemma str_lower_pretty_nat (i : nat) :
  configparser.str_lower (pretty i) = pretty i.
Proof.
  unfold pretty, pretty_nat, pretty, pretty_N.
  case_decide; [done|]. by apply str_lower_pretty_N_go.
Qed.

Lemma optionxform_node_key (i : nat) (attr : string) :
  configparser.str_lower attr = attr →
  configparser.optionxform (opcua_connector.node_key i attr)
  = opcua_connector.node_key i attr.
Proof.
  intros Hattr. unfold configparser.optionxform, opcua_connector.node_key.
  by rewrite !str_lower_app, str_lower_pretty_nat, Hattr.
Qed.

(** The three requests of the loop, in terms of what the section shows. *)
Lemma section_contains_node_key (section : gmap string string) (i : nat)
    (attr : string) :
  configparser.str_lower attr = attr →
  opcua_connector.section_contains section (opcua_connector.node_key i attr)
  = bool_decide (is_Some (section !! opcua_connector.node_key i attr)).
Proof.
  intros Hattr.
  unfold opcua_connector.section_contains, configparser.has_option.
  by rewrite optionxform_node_key.
Qed.

Lemma section_getitem_node_key (section : gmap string string) (i : nat)
    (attr : string) :
  configparser.str_lower attr = attr →
  opcua_connector.section_getitem section (opcua_connector.node_key i attr)
  = match shown section (opcua_connector.node_key i attr) with
    | None =>
        inl (opcua_connector.OptionKeyError
               (opcua_connector.node_key i attr))
    | Some r => opcua_connector.config_result r
    end.
Proof.
  intros Hattr. unfold opcua_connector.section_getitem.
  rewrite section_contains_node_key by done.
  unfold configparser.get_option, shown.
  rewrite optionxform_node_key by done.
  by destruct (section !! opcua_connector.node_key i attr) as [value|].
Qed.

Lemma section_get_node_key (section : gmap string string) (i : nat)
    (attr fallback : string) :
  configparser.str_lower attr = attr →
  opcua_connector.section_get section (opcua_connector.node_key i attr)
    fallback
  = match shown section (opcua_connector.node_key i attr) with
    | None => inr fallback
    | Some r => opcua_connector.config_result r
    end.
Proof.
  intros Hattr.
  unfold opcua_connector.section_get, configparser.get_option, shown.
  rewrite optionxform_node_key by done.
  by destruct (section !! opcua_connector.node_key i attr).
Qed.

Lemma shown_is_Some (section : gmap string string) (key : string) :
  is_Some (shown section key) ↔ is_Some (section !! key).
Proof. unfold shown. apply fmap_is_Some. Qed.

(** One turn of the loop. *)
Lemma monitoring_loop_end (section : gmap string string) (fuel i : nat)
    (acc : list NodeInfo.t) :
  section !! opcua_connector.node_key i "_id" = None →
  opcua_connector.monitoring_loop (S fuel) section i acc = Some (inr acc).
Proof.
  intros Hend. cbn [opcua_connector.monitoring_loop].
  rewrite section_contains_node_key by done.
  rewrite bool_decide_eq_false_2; [done|].
  rewrite Hend. by intros [? ?].
Qed.

Lemma monitoring_loop_readable (section : gmap string string) (fuel i : nat)
    (acc : list NodeInfo.t) :
  readable section i →
  opcua_connector.monitoring_loop (S fuel) section i acc
  = opcua_connector.monitoring_loop fuel section (S i)
      (acc ++ [node_at section i]).
Proof.
  intros ([node_id Hid] & [node_name Hname] & Hunit).
  cbn [opcua_connector.monitoring_loop].
  rewrite section_contains_node_key by done.
  rewrite bool_decide_eq_true_2
    by (apply shown_is_Some; rewrite Hid; by eexists).
  rewrite !section_getitem_node_key, section_get_node_key by done.
  unfold node_at. rewrite Hid, Hname. cbn.
  destruct (shown section (opcua_connector.node_key i "_unit"))
    as [[e|node_unit]|] eqn:Hu; cbn; [|done|done].
  by destruct (Hunit e).
Qed.

Lemma monitoring_loop_read_failure (section : gmap string string)
    (fuel i : nat) (acc : list NodeInfo.t) (err : opcua_connector.init_error) :
  read_failure section i err →
  opcua_connector.monitoring_loop (S fuel) section i acc = Some (inl err).
Proof.
  intros Hfail. cbn [opcua_connector.monitoring_loop].
  rewrite section_contains_node_key by done.
  rewrite bool_decide_eq_true_2; last first.
  { apply shown_is_Some.
    destruct Hfail as [(e & -> & _)|[[node_id ->] _]]; by eexists. }
  rewrite !section_getitem_node_key, section_get_node_key by done.
  destruct Hfail as [(e & -> & ->)|[[node_id ->] Hrest]]; [done|]; cbn.
  destruct Hrest as [[-> ->]|[(e & -> & ->)|[[node_name ->] (e & -> & ->)]]];
    done.
Qed.

(** An index that has a node identifier can be read, or reading it
    fails. *)
Lemma readable_or_read_failure (section : gmap string string) (i : nat) :
  is_Some (section !! opcua_connector.node_key i "_id") →
  readable section i ∨ ∃ err, read_failure section i err.
Proof.
  intros Hid. apply shown_is_Some in Hid as [r Hid].
  unfold readable, read_failure. rewrite Hid.
  destruct r as [e|node_id]; [right; eexists; left; eauto|].
  destruct (shown section (opcua_connector.node_key i "_name"))
    as [[e|node_name]|];
    [right; eexists; right; split; [eauto|]; right; left; eauto| |
     right; eexists; right; split; [eauto|]; left; eauto].
  destruct (shown section (opcua_connector.node_key i "_unit"))
    as [[e|node_unit]|].
  - right. eexists. right. split; [eauto|]. right. right. eauto.
  - left. split_and!; [eauto | eauto | congruence].
  - left. split_and!; [eauto | eauto | congruence].
Qed.

Lemma readable_not_read_failure (section : gmap string string) (i : nat)
    (err : opcua_connector.init_error) :
  readable section i → ¬ read_failure section i err.
Proof.
  intros ([node_id Hid] & [node_name Hname] & Hunit).
  unfold read_failure. rewrite Hid, Hname.
  intros [(e & ? & _)|[_ [[? _]|[(e & ? & _)|[_ (e & He & _)]]]]];
    try discriminate.
  by destruct (Hunit e).
Qed.

(** The loop over a run of readable indexes. *)
Lemma monitoring_loop_run (section : gmap string string)
    (k fuel i : nat) (acc : list NodeInfo.t) :
  (∀ j, (i ≤ j < i + k)%nat → readable section j) →
  opcua_connector.monitoring_loop (k + fuel) section i acc
  = opcua_connector.monitoring_loop fuel section (i + k)
      (acc ++ (node_at section <$> seq i k)).
Proof.
  revert i acc. induction k as [|k IH]; intros i acc Hrun.
  - by rewrite Nat.add_0_r, app_nil_r.
  - change (S k + fuel)%nat with (S (k + fuel)).
    rewrite monitoring_loop_readable by (apply Hrun; lia).
    rewrite IH by (intros j Hj; apply Hrun; lia).
    replace (S i + k)%nat with (i + S k)%nat by lia.
    by rewrite <- app_assoc.
Qed.

(** The registry of a section whose indexes 1 to [k] can be read, when it
    has no node identifier for [k + 1]. *)
Lemma load_nodes_run (section : gmap string string) (k : nat) :
  (k ≤ size section)%nat →
  (∀ i, (1 ≤ i ≤ k)%nat → readable section i) →
  section !! opcua_connector.node_key (S k) "_id" = None →
  opcua_connector.load_nodes section = inr (node_at section <$> seq 1 k).
Proof.
  intros Hk Hrun Hend. unfold opcua_connector.load_nodes.
  replace (S (size section)) with (k + S (size section - k))%nat by lia.
  rewrite monitoring_loop_run by (intros j Hj; apply Hrun; lia).
  by rewrite monitoring_loop_end.
Qed.

(** The registry of a section whose indexes below [j] can be read, when
    reading [j] fails. *)
Lemma load_nodes_read_failure (section : gmap string string) (j : nat)
    (err : opcua_connector.init_error) :
  (1 ≤ j ≤ size section)%nat →
  (∀ i, (1 ≤ i < j)%nat → readable section i) →
  read_failure section j err →
  opcua_connector.load_nodes section = inl err.
Proof.
  intros Hj Hrun Hfail. unfold opcua_connector.load_nodes.
  replace (S (size section))
    with ((j - 1) + S (S (size section - j)))%nat by lia.
  rewrite monitoring_loop_run by (intros i Hi; apply Hrun; lia).
  replace (1 + (j - 1))%nat with j by lia.
  by rewrite (monitoring_loop_read_failure _ _ _ _ err).
Qed.

Global Instance readable_dec (section : gmap string string) (i : nat) :
  Decision (readable section i).
Proof.
  unfold readable.
  destruct (shown section (opcua_connector.node_key i "_id"))
    as [[e|node_id]|];
    [right; by intros [[? ?] _] | | right; by intros [[? ?] _]].
  destruct (shown section (opcua_connector.node_key i "_name"))
    as [[e|node_name]|];
    [right; by intros (_ & [? ?] & _) | |
     right; by intros (_ & [? ?] & _)].
  destruct (shown section (opcua_connector.node_key i "_unit"))
    as [[e|node_unit]|].
  - right. intros (_ & _ & Hunit). by destruct (Hunit e).
  - left. split_and!; [eauto | eauto | congruence].
  - left. split_and!; [eauto | eauto | congruence].
Defined.

(** C5 (amended): the registry is read from the leading run of node
    identifiers.  Every section has a first index [k + 1] without a node
    identifier, and loading stops there without failing, whatever else the
    section declares at or after that index: when the indexes 1 to [k] can
    all be read (each has a name, and the texts of its options
    interpolate), the registry is exactly the tags 1 to [k], in order.
    Loading fails at the first index of the run that cannot be read, with
    the [KeyError] of its missing name or the error of the interpolation
    of one of its texts, and in no other case. *)
Theorem registry_is_the_leading_run (section : gmap string string) :
  ∃ k : nat,
    (∀ i, (1 ≤ i ≤ k)%nat →
          is_Some (section !! opcua_connector.node_key i "_id"))
    ∧ section !! opcua_connector.node_key (S k) "_id" = None
    ∧ ((∀ i, (1 ≤ i ≤ k)%nat → readable section i) →
       opcua_connector.load_nodes section
       = inr (node_at section <$> seq 1 k))
    ∧ (∀ j err, (1 ≤ j ≤ k)%nat →
                (∀ i, (1 ≤ i < j)%nat → readable section i) →
                read_failure section j err →
                opcua_connector.load_nodes section = inl err)
    ∧ (∀ err, opcua_connector.load_nodes section = inl err →
              ∃ j, (1 ≤ j ≤ k)%nat
                   ∧ (∀ i, (1 ≤ i < j)%nat → readable section i)
                   ∧ read_failure section j err).
Proof.
  destruct (first_missing_node_id section) as (k & Hk & Hids & Hend).
  exists k. split_and!; [done | done | | |].
  - intros Hrun. by apply load_nodes_run.
  - intros j err Hj Hrun Hfail.
    apply (load_nodes_read_failure section j); [lia | done | done].
  - intros err Hload.
    destruct (first_failure (readable section) k)
      as [Hrun|(j & Hj & Hrun & Hnot)].
    + rewrite (load_nodes_run section k) in Hload by done. discriminate.
    + assert (Hid : is_Some (section !! opcua_connector.node_key (S j) "_id"))
        by (apply Hids; lia).
      destruct (readable_or_read_failure section (S j) Hid)
        as [?|[err' Hfail]]; [done|].
      exists (S j). split; [lia|]. split; [intros i Hi; apply Hrun; lia|].
      rewrite (load_nodes_read_failure section (S j) err') in Hload;
        [by injection Hload as <- | lia | intros i Hi; apply Hrun; lia
        | done].
Qed.

(** The loop reaches its end within the fuel [load_nodes] gives it. *)
Lemma monitoring_loop_terminates (section : gmap string string) :
  is_Some (opcua_connector.monitoring_loop (S (size section)) section 1 []).
Proof.
  destruct (first_missing_node_id section) as (k & Hk & Hids & Hend).
  destruct (first_failure (readable section) k)
    as [Hrun|(j & Hj & Hrun & Hnot)].
  - replace (S (size section)) with (k + S (size section - k))%nat by lia.
    rewrite monitoring_loop_run by (intros i Hi; apply Hrun; lia).
    rewrite monitoring_loop_end by done. by eexists.
  - assert (Hid : is_Some (section !! opcua_connector.node_key (S j) "_id"))
      by (apply Hids; lia).
    destruct (readable_or_read_failure section (S j) Hid)
      as [?|[err Hfail]]; [done|].
    replace (S (size section))
      with (j + S (S (size section - S j)))%nat by lia.
    rewrite monitoring_loop_run by (intros i Hi; apply Hrun; lia).
    rewrite (monitoring_loop_read_failure _ _ _ _ err) by done.
    by eexists.
Qed.

(** ** History requests *)

(** While storage is connected and its cursor is there, the lookup of the
    history of a tag returns, with the rows found. *)
Lemma get_tag_history_connected (w : World) (d : DbConnector.t)
    (tag_name : string) (hours : Z) :
  db_connector w = Some d →
  DbConnector.connected d = true →
  DbConnector.cursor d = true →
  ∃ w',
    db_connector.get_tag_history tag_name hours 1000 w
    = (Ok (map (fun row => (snd row, history_unit d tag_name, fst row))
             (history_rows w d tag_name hours)), w').
Proof.
  intros Hd Hconn Hcur.
  unfold db_connector.get_tag_history, history_rows, bind at 1.
  unfold db_connector.self at 1. rewrite Hd.
  destruct (DbConnector.opc_to_db_mapping d !! tag_name) as [field_name|];
    [|by eexists].
  destruct (String.eqb field_name ""); [by eexists|].
  unfold bind at 1, db_connector.get_field_history, bind at 1.
  unfold db_connector.self at 1. rewrite Hd, Hconn. simpl.
  unfold try_except, bind at 1. rewrite Hcur. simpl.
  unfold bind at 1, emit, modify. unfold bind at 1, ask. simpl.
  destruct (history (env w) field_name hours 1000) as [rows|]; simpl.
  - unfold bind, db_connector.self. simpl. rewrite Hd. by eexists.
  - unfold bind, db_connector.self. simpl. rewrite Hd. by eexists.
Qed.

(** C9: a history request always returns a response, never an unhandled
    failure: the response is "unavailable" (503) exactly when storage is
    not connected, and while storage is connected it is "not found" (404)
    when the tag has no column or the query gives no row, and otherwise
    the rows in the order of the query, each as value, unit and
    timestamp. *)
Theorem get_history_is_structured (w : World) (u : UnityConnector.t)
    (name : string) (hours_arg : option Z) :
  unity_connector w = Some u →
  (UnityConnector.db u = true → is_Some (db_connector w)) →
  (UnityConnector.db u = false → db_connected w = false) →
  (∀ d, db_connector w = Some d →
        DbConnector.connected d = true → DbConnector.cursor d = true) →
  ∃ resp,
    outcome (unity_connector.get_history name hours_arg) w = Ok resp
    ∧ (unity_connector.status resp = 503 ↔ db_connected w = false)
    ∧ (∀ d, db_connector w = Some d → DbConnector.connected d = true →
         let rows := history_rows w d name (default 24 hours_arg) in
         (rows = [] →
          resp = unity_connector.response
                   (unity_connector.JError
                      "No history found or tag does not exist") 404)
         ∧ (rows ≠ [] →
            resp = unity_connector.response
                     (unity_connector.JList
                        (map (history_entry (history_unit d name)) rows))
                     200)).
Proof.
  intros Hu Href Hinv Hcursor.
  unfold outcome, unity_connector.get_history, bind,
    unity_connector.self, db_connector.self, ret.
  rewrite Hu. cbv zeta.
  destruct (UnityConnector.db u) eqn:Hdb; cbn [negb].
  - destruct (Href eq_refl) as [d Hd]. rewrite Hd.
    destruct (DbConnector.connected d) eqn:Hconn; cbn [negb].
    + destruct (get_tag_history_connected w d name (default 24 hours_arg)
                  Hd Hconn (Hcursor d Hd Hconn)) as [w' Hrun].
      rewrite Hrun.
      assert (Hc : db_connected w = true).
      { unfold db_connected. by rewrite Hd. }
      destruct (history_rows w d name (default 24 hours_arg))
        as [|row rows] eqn:Hrows; simpl.
      * eexists. split_and!; [done | |].
        -- simpl. rewrite Hc. split; discriminate.
        -- intros d' Hd' _. assert (d' = d) as -> by congruence.
           rewrite Hrows. split; [done | by intros []].
      * eexists. split_and!; [done | |].
        -- simpl. rewrite Hc. split; discriminate.
        -- intros d' Hd' _. assert (d' = d) as -> by congruence.
           rewrite Hrows. split; [discriminate|]. intros _.
           unfold history_entry. simpl. do 3 f_equal.
           apply map_map.
    + eexists. split_and!; [done | |].
      * simpl. unfold db_connected. by rewrite Hd, Hconn.
      * intros d' Hd' Hc'. assert (d' = d) as -> by congruence.
        by rewrite Hconn in Hc'.
  - eexists. split_and!; [done | |].
    + simpl. by rewrite (Hinv eq_refl).
    + intros d Hd Hc. pose proof (Hinv eq_refl) as Hn.
      unfold db_connected in Hn. by rewrite Hd, Hc in Hn.
Qed.

Lemma get_history_is_structured_witness :
  let w := demo_world [] [] in
  ∃ resp,
    outcome (unity_connector.get_history "Temp1" None) w = Ok resp
    ∧ (unity_connector.status resp = 503 ↔ db_connected w = false)
    ∧ (∀ d, db_connector w = Some d → DbConnector.connected d = true →
         let rows := history_rows w d "Temp1" (default 24 None) in
         (rows = [] →
          resp = unity_connector.response
                   (unity_connector.JError
                      "No history found or tag does not exist") 404)
         ∧ (rows ≠ [] →
            resp = unity_connector.response
                     (unity_connector.JList
                        (map (history_entry (history_unit d "Temp1")) rows))
                     200)).
Proof.
  apply (get_history_is_structured (demo_world [] []) demo_unity "Temp1" None).
  - reflexivity.
  - intros _. eexists. reflexivity.
  - simpl. discriminate.
  - intros d Hd _. simpl in Hd. injection Hd as <-. reflexivity.
Defined.

(** The three responses on the example: the rows of a mapped tag, "not
    found" for a tag without column, "unavailable" once storage is
    disconnected. *)
Example get_history_responses :
  let w := demo_world [] [("Temp1", Sample.mk None "C" (Datetime 990))] in
  outcome (unity_connector.get_history "Temp1" (Some 2)) w
  = Ok (unity_connector.response
          (unity_connector.JList
             [Sample.mk (Some demo_value) "C" (IsoString 900);
              Sample.mk (Some demo_value) "C" (IsoString 950)]) 200)
  ∧ outcome (unity_connector.get_history "Pressure" None) w
    = Ok (unity_connector.response
            (unity_connector.JError "No history found or tag does not exist")
            404)
  ∧ outcome (unity_connector.get_history "Temp1" None)
      (state_after db_connector.disconnect
         (set_env (set_current_thread MainThread (env w)) w))
    = Ok (unity_connector.response
            (unity_connector.JError "Database not available") 503).
Proof. vm_compute. done. Qed.

(** ** Persistence cycles *)

Lemma statements_app (tr1 tr2 : list Effect) :
  statements (tr1 ++ tr2) = statements tr1 ++ statements tr2.
Proof. apply omap_app. Qed.

Lemma collect_fields_from (current_values : PyDict Sample.t)
    (opc_to_db_mapping : gmap string string)
    (field_names placeholders : list string)
    (values : list (option binary64)) :
  let items := mapped_items current_values opc_to_db_mapping in
  fold_left
    (fun acc item =>
       let '(field_names, placeholders, values) := acc in
       let '(tag_name, value_dict) := item in
       match opc_to_db_mapping !! tag_name with
       | Some db_field =>
           (field_names ++ [db_field], placeholders ++ ["?"],
            values ++ [Sample.value value_dict])
       | None => acc
       end)
    current_values (field_names, placeholders, values)
  = (field_names ++ (fst <$> items),
     placeholders ++ replicate (length items) "?",
     values ++ (snd <$> items)).
Proof.
  revert field_names placeholders values.
  induction current_values as [|[tag_name value_dict] cv IH];
    intros field_names placeholders values; simpl.
  - by rewrite !app_nil_r.
  - destruct (opc_to_db_mapping !! tag_name) as [db_field|] eqn:Hm; simpl.
    + rewrite IH. by rewrite <- !app_assoc.
    + apply IH.
Qed.

(** The loop of a cycle collects the mapped items: one column, one
    placeholder and one value for each, absent values included. *)
Lemma collect_fields_spec (current_values : PyDict Sample.t)
    (opc_to_db_mapping : gmap string string) :
  let items := mapped_items current_values opc_to_db_mapping in
  db_connector.collect_fields current_values opc_to_db_mapping
  = ("timestamp" :: (fst <$> items),
     "NOW()" :: replicate (length items) "?",
     snd <$> items).
Proof. apply collect_fields_from. Qed.

Lemma same_answers_refl e : same_answers e e.
Proof. by split. Qed.

Lemma same_answers_trans e1 e2 e3 :
  same_answers e1 e2 → same_answers e2 e3 → same_answers e1 e3.
Proof. intros [] []. split; etrans; eassumption. Qed.

Lemma same_but_session_refl w : same_but_session w w.
Proof.
  split; first [done | apply same_answers_refl
               | by exists []; rewrite app_nil_r].
Qed.

Lemma same_but_session_trans w1 w2 w3 :
  same_but_session w1 w2 → same_but_session w2 w3 → same_but_session w1 w3.
Proof.
  intros H12 H23. pose proof H12 as []. pose proof H23 as [].
  split; first [etrans; eassumption | by eapply same_answers_trans | idtac].
  destruct (sbs_trace _ _ H12) as [r1 Hr1].
  destruct (sbs_trace _ _ H23) as [r2 Hr2].
  exists (r1 ++ r2). by rewrite Hr2, Hr1, app_assoc.
Qed.

(** Unfolds the monad and the primitives of the storage connector. *)
Ltac unfold_db :=
  unfold db_connector.conn_close, db_connector.conn_commit,
    db_connector.cursor_execute, db_connector.mariadb_connect,
    db_connector.thread_join, db_connector.thread_is_alive,
    db_connector.thread_start, db_connector.thread_new,
    db_connector.thread_exit, db_connector.config_value,
    db_connector.update, db_connector.self,
    time_sleep, server_call, emit, ask, modify, raise, ret,
    try_except, try_finally, bind, get_world in *.

(** Splits on every test the goal still makes. *)
Ltac split_test x :=
  lazymatch type of x with
  | bool => destruct x eqn:?
  | option _ => destruct x eqn:?
  | sumbool _ _ => destruct x
  | Decision _ => destruct x
  end.

Ltac split_tests :=
  repeat (simpl;
          match goal with
          | |- context [match ?x with _ => _ end] => split_test x
          | |- context [if ?x then _ else _] => split_test x
          end).

(** Closes the goals a split of [same_but_session] leaves. *)
Ltac frame_done :=
  unfold db_cache; simpl;
  repeat match goal with
         | H : db_connector _ = _ |- _ => rewrite H
         end;
  rewrite ?statements_app; simpl; rewrite ?app_nil_r;
  first [ done
        | by split
        | by rewrite !fmap_is_Some
        | by split; intros _; eexists
        | by exists []; rewrite app_nil_r
        | by eexists; rewrite <- ?app_assoc ].

Lemma disconnect_same_but_session w :
  same_but_session w (state_after db_connector.disconnect w).
Proof.
  unfold state_after, db_connector.disconnect. unfold_db.
  split_tests; split; frame_done.
Qed.

Section Keeps.
Context (R : World → World → Prop) `{!Reflexive R, !Transitive R}.

Lemma keeps_ret {A} (a : A) : keeps R (ret a).
Proof. intros w. apply reflexivity. Qed.

Lemma keeps_raise {A} (e : exn) : keeps R (@raise A e).
Proof. intros w. apply reflexivity. Qed.

Lemma keeps_liftR {A} (r : result A) : keeps R (liftR r).
Proof. intros w. apply reflexivity. Qed.

Lemma keeps_ask {A} (f : Env → A) : keeps R (ask f).
Proof. intros w. apply reflexivity. Qed.

Lemma keeps_get_world : keeps R get_world.
Proof. intros w. apply reflexivity. Qed.

Lemma keeps_server_call ok e : keeps R (server_call ok e).
Proof.
  intros w. unfold state_after, server_call.
  destruct (ok (env w)); apply reflexivity.
Qed.

Lemma keeps_bind {A B} (m : M A) (k : A → M B) :
  keeps R m → (∀ a, keeps R (k a)) → keeps R (bind m k).
Proof.
  intros Hm Hk w. specialize (Hm w). unfold state_after, bind in *.
  destruct (m w) as [[a|e] w1]; simpl in *; [|done].
  etrans; [exact Hm | apply Hk].
Qed.

Lemma keeps_try_except {A} (body : M A) catches (handler : exn → M A) :
  keeps R body → (∀ e, keeps R (handler e)) →
  keeps R (try_except body catches handler).
Proof.
  intros Hm Hh w. specialize (Hm w). unfold state_after, try_except in *.
  destruct (body w) as [[a|e] w1]; simpl in *; [done|].
  destruct (catches e); [|done].
  etrans; [exact Hm | apply Hh].
Qed.

Lemma keeps_try_finally {A} (body : M A) (final : M ()) :
  keeps R body → keeps R final → keeps R (try_finally body final).
Proof.
  intros Hm Hf w. specialize (Hm w). unfold state_after, try_finally in *.
  destruct (body w) as [r w1]; simpl in *.
  specialize (Hf w1). unfold state_after in Hf.
  destruct (final w1) as [[[]|e] w2]; simpl in *;
    (etrans; [exact Hm | exact Hf]).
Qed.

Lemma keeps_for_each {A} (l : list A) (body : A → M ()) :
  (∀ x, keeps R (body x)) → keeps R (for_each l body).
Proof.
  intros Hb. induction l as [|x l IH]; simpl.
  - apply keeps_ret.
  - apply keeps_bind; [apply Hb | intros _; apply IH].
Qed.

Lemma keeps_if {A} (b : bool) (m1 m2 : M A) :
  keeps R m1 → keeps R m2 → keeps R (if b then m1 else m2).
Proof. by destruct b. Qed.
End Keeps.

Create HintDb keeps.

(** Goes through a computation, down to the calls the hints know. *)
Ltac keeps_step :=
  first
    [ solve [auto with keeps nocore]
    | match goal with
      | |- Reflexive _ => apply _
      | |- Transitive _ => apply _
      | |- ∀ _, _ => intros ?
      end
    | apply keeps_ret | apply keeps_raise | apply keeps_liftR
    | apply keeps_ask | apply keeps_get_world | apply keeps_server_call
    | apply keeps_bind
    | apply keeps_try_except
    | apply keeps_try_finally
    | apply keeps_for_each
    | apply keeps_if ].

Ltac keeps_auto := repeat keeps_step.

Global Instance same_but_session_reflexive : Reflexive same_but_session.
Proof. intros w. apply same_but_session_refl. Qed.
Global Instance same_but_session_transitive : Transitive same_but_session.
Proof. intros w1 w2 w3. apply same_but_session_trans. Qed.

Lemma disconnect_keeps_session :
  keeps same_but_session db_connector.disconnect.
Proof. intros w. apply disconnect_same_but_session. Qed.

Lemma time_sleep_keeps_session secs : keeps same_but_session (time_sleep secs).
Proof. intros w. unfold state_after. unfold_db. split; frame_done. Qed.

Lemma connect_keeps_session : keeps same_but_session db_connector.connect.
Proof.
  intros w.
  unfold state_after, db_connector.connect, db_connector._load_tag_mappings,
    db_connector._start_logging_thread.
  unfold_db. split_tests; split; frame_done.
Qed.

#[global] Hint Resolve disconnect_keeps_session time_sleep_keeps_session
  connect_keeps_session : keeps.

Lemma _try_reconnect_keeps_session :
  keeps same_but_session db_connector._try_reconnect.
Proof. unfold db_connector._try_reconnect. keeps_auto. Qed.

(** The statements a cycle executes: the insert of the mapped items when
    storage is connected, some cached tag has a column and the cursor is
    there, and nothing otherwise; whether the insert passes or fails, no
    other statement follows in the cycle. *)
Lemma _log_current_values_statements (w : World) (d : DbConnector.t) :
  db_connector w = Some d →
  let items :=
    mapped_items (DbConnector.current_values d)
      (DbConnector.opc_to_db_mapping d) in
  statements (trace (env (state_after db_connector._log_current_values w)))
  = statements (trace (env w))
    ++ (if DbConnector.connected d && DbConnector.cursor d
           && negb (bool_decide (items = []))
        then [insert_of items] else []).
Proof.
  intros Hd. cbv zeta.
  unfold state_after, db_connector._log_current_values, bind at 1.
  unfold db_connector.self at 1. rewrite Hd.
  destruct (DbConnector.connected d) eqn:Hconn; simpl;
    [|by rewrite app_nil_r].
  destruct (dict_is_empty (DbConnector.current_values d)) eqn:Hempty; simpl.
  { destruct (DbConnector.current_values d); [|done]. simpl.
    rewrite andb_false_r. by rewrite app_nil_r. }
  rewrite collect_fields_spec. cbv zeta.
  remember (mapped_items (DbConnector.current_values d)
              (DbConnector.opc_to_db_mapping d)) as items eqn:Hitems.
  destruct items as [|item items']; simpl.
  { unfold try_except, ret. simpl. rewrite andb_false_r.
    by rewrite app_nil_r. }
  rewrite andb_true_r.
  unfold try_except, bind at 1, db_connector.cursor_execute, bind at 1.
  unfold db_connector.self at 1. rewrite Hd.
  destruct (DbConnector.cursor d) eqn:Hcur; simpl; [|by rewrite app_nil_r].
  unfold bind at 1, emit, modify.
  set (ins := EExecute _ _).
  set (w1 := set_env (set_trace (trace (env w) ++ [ins]) (env w)) w).
  assert (Hw1 : statements (trace (env w1))
                = statements (trace (env w)) ++ [insert_of (item :: items')]).
  { subst w1 ins. simpl. rewrite statements_app. simpl.
    unfold insert_of. simpl. by rewrite <- list_fmap_compose. }
  assert (Hre : ∀ w2,
            statements (trace (env w2)) = statements (trace (env w1)) →
            statements
              (trace (env (state_after db_connector._try_reconnect w2)))
            = statements (trace (env w))
              ++ [insert_of (item :: items')]).
  { intros w2 Hw2. rewrite <- Hw1, <- Hw2.
    apply _try_reconnect_keeps_session. }
  unfold server_call at 1. simpl.
  destruct (insert_ok (env w)); simpl.
  - unfold db_connector.conn_commit, bind at 1, db_connector.self at 1.
    simpl. rewrite Hd.
    destruct (DbConnector.conn d); simpl; [|done].
    unfold bind at 1, server_call. simpl.
    destruct (commit_ok (env w)); simpl.
    + rewrite statements_app. simpl. rewrite app_nil_r. exact Hw1.
    + unfold bind.
      pose proof (Hre w1 eq_refl) as H. unfold state_after in H.
      by destruct (db_connector._try_reconnect w1) as [[?|?] ?].
  - unfold bind.
    pose proof (Hre w1 eq_refl) as H. unfold state_after in H.
    by destruct (db_connector._try_reconnect w1) as [[?|?] ?].
Qed.

(** The mapped items are the cached tags that have a column. *)
Lemma elem_of_mapped_items (current_values : PyDict Sample.t)
    (opc_to_db_mapping : gmap string string) (db_field : string)
    (value : option binary64) :
  (db_field, value) ∈ mapped_items current_values opc_to_db_mapping
  ↔ ∃ tag_name value_dict,
      (tag_name, value_dict) ∈ current_values
      ∧ opc_to_db_mapping !! tag_name = Some db_field
      ∧ value = Sample.value value_dict.
Proof.
  unfold mapped_items. rewrite list_elem_of_omap. split.
  - intros ([tag_name value_dict] & Hin & Hsome). simpl in Hsome.
    destruct (opc_to_db_mapping !! tag_name) as [f|] eqn:Hm; [|done].
    simpl in Hsome. injection Hsome as <- <-. eauto.
  - intros (tag_name & value_dict & Hin & Hm & ->).
    exists (tag_name, value_dict). split; [done|]. simpl. by rewrite Hm.
Qed.

(** C1 (as stated) fails: with the single cached tag mapped and its value
    absent, no mapped tag has a value, and the cycle issues an insert,
    with SQL [NULL] for the column. *)
Lemma skips_cycle_without_present_value_counterexample :
  ¬ skips_cycle_without_present_value
      (demo_world [] [("Temp1", Sample.mk None "C" (Datetime 990))]).
Proof.
  intros H.
  specialize (H (demo_db [("Temp1", Sample.mk None "C" (Datetime 990))])
                eq_refl).
  vm_compute in H. specialize (H eq_refl). discriminate.
Qed.

Example cycle_with_absent_value :
  let w := demo_world [] [("Temp1", Sample.mk None "C" (Datetime 990))] in
  trace (env (state_after db_connector._log_current_values w))
  = [EExecute "INSERT INTO process_data (timestamp, temp1) VALUES (NOW(), ?)"
       [SqlNull];
     ECommit].
Proof. vm_compute. reflexivity. Qed.

(** C1 (amended): a persistence cycle issues at most one insert.  The
    insert covers the capture timestamp and, in cache order, the column of
    every cached tag that has a mapping, with the cached value, an absent
    value going in as SQL [NULL]; tags without mapping are left out.  No
    insert is issued when storage is not connected or no cached tag has a
    mapping. *)
Theorem cycle_inserts_the_mapped_tags (w : World) (d : DbConnector.t) :
  db_connector w = Some d →
  (DbConnector.connected d = true → DbConnector.cursor d = true) →
  let items :=
    mapped_items (DbConnector.current_values d)
      (DbConnector.opc_to_db_mapping d) in
  let w' := state_after db_connector._log_current_values w in
  (∀ db_field value,
     (db_field, value) ∈ items
     ↔ ∃ tag_name value_dict,
         (tag_name, value_dict) ∈ DbConnector.current_values d
         ∧ DbConnector.opc_to_db_mapping d !! tag_name = Some db_field
         ∧ value = Sample.value value_dict)
  ∧ (DbConnector.connected d = true → items ≠ [] →
     statements (trace (env w'))
     = statements (trace (env w))
       ++ [(db_connector.insert_query ("timestamp" :: (fst <$> items))
              ("NOW()" :: replicate (length items) "?"),
            (fun item => sql_of_value (snd item)) <$> items)])
  ∧ (DbConnector.connected d = false ∨ items = [] →
     statements (trace (env w')) = statements (trace (env w))).
Proof.
  intros Hd Hcursor items w'.
  pose proof (_log_current_values_statements w d Hd) as Hst.
  fold items w' in Hst. split_and!.
  - intros db_field value. apply elem_of_mapped_items.
  - intros Hconn Hitems. rewrite Hst, Hconn, (Hcursor Hconn).
    by rewrite bool_decide_eq_false_2.
  - intros [Hconn|Hitems]; rewrite Hst.
    + rewrite Hconn. simpl. by rewrite app_nil_r.
    + rewrite (bool_decide_eq_true_2 _ Hitems), andb_false_r.
      by rewrite app_nil_r.
Qed.

Lemma cycle_inserts_the_mapped_tags_witness :
  let cv := [("Temp1", Sample.mk (Some demo_value) "C" (Datetime 990));
             ("Flow", Sample.mk None "l/s" (Datetime 991))] in
  let w := demo_world [] cv in
  let d := demo_db cv in
  let items :=
    mapped_items (DbConnector.current_values d)
      (DbConnector.opc_to_db_mapping d) in
  let w' := state_after db_connector._log_current_values w in
  (∀ db_field value,
     (db_field, value) ∈ items
     ↔ ∃ tag_name value_dict,
         (tag_name, value_dict) ∈ DbConnector.current_values d
         ∧ DbConnector.opc_to_db_mapping d !! tag_name = Some db_field
         ∧ value = Sample.value value_dict)
  ∧ (DbConnector.connected d = true → items ≠ [] →
     statements (trace (env w'))
     = statements (trace (env w))
       ++ [(db_connector.insert_query ("timestamp" :: (fst <$> items))
              ("NOW()" :: replicate (length items) "?"),
            (fun item => sql_of_value (snd item)) <$> items)])
  ∧ (DbConnector.connected d = false ∨ items = [] →
     statements (trace (env w')) = statements (trace (env w))).
Proof.
  apply (cycle_inserts_the_mapped_tags
           (demo_world []
              [("Temp1", Sample.mk (Some demo_value) "C" (Datetime 990));
               ("Flow", Sample.mk None "l/s" (Datetime 991))])
           (demo_db
              [("Temp1", Sample.mk (Some demo_value) "C" (Datetime 990));
               ("Flow", Sample.mk None "l/s" (Datetime 991))])).
  - reflexivity.
  - reflexivity.
Defined.

(** ** The worker after a storage failure *)

(** Called by the worker thread itself, [disconnect] sets the shutdown
    event and then fails on joining the running thread: the connection is
    not closed. *)
Lemma disconnect_from_worker (w : World) (d : DbConnector.t) (th : Thread) :
  db_connector w = Some d →
  DbConnector.logging_active d = true →
  DbConnector.logging_thread d = Some th →
  th ∈ alive (env w) →
  current_thread (env w) = th →
  db_connector.disconnect w
  = (Raise (RuntimeError "cannot join current thread"),
     set_db_connector (Some (DbConnector.set_shutdown_event true d)) w).
Proof.
  intros Hd Hactive Hthread Halive Hme.
  unfold db_connector.disconnect. unfold_db.
  repeat (progress (rewrite ?Hd, ?Hactive, ?Hthread, ?Hme,
                      ?(bool_decide_eq_true_2 _ Halive),
                      ?(decide_True (P := th = th)) by done; simpl)).
  done.
Qed.

(** So the reconnection the worker attempts stops before it connects. *)
Lemma _try_reconnect_from_worker (w : World) (d : DbConnector.t)
    (th : Thread) :
  db_connector w = Some d →
  DbConnector.logging_active d = true →
  DbConnector.logging_thread d = Some th →
  th ∈ alive (env w) →
  current_thread (env w) = th →
  db_connector._try_reconnect w
  = (Ok false,
     set_db_connector (Some (DbConnector.set_shutdown_event true d)) w).
Proof.
  intros Hd Hactive Hthread Halive Hme.
  unfold db_connector._try_reconnect, try_except, bind at 1.
  by rewrite (disconnect_from_worker w d th).
Qed.

(** Once the shutdown event is set the wait ends at once. *)
Lemma interval_sleep_shutdown (n : nat) (w : World) (d : DbConnector.t) :
  db_connector w = Some d →
  DbConnector.shutdown_event d = true →
  db_connector.interval_sleep n w = (Ok tt, w).
Proof.
  intros Hd Hset. destruct n as [|n]; simpl; [done|].
  unfold bind, db_connector.self. by rewrite Hd, Hset.
Qed.

(** And the loop of the worker ends, whatever turns it had left. *)
Lemma _logging_worker_shutdown (turns : nat) (interval : Z) (w : World)
    (d : DbConnector.t) :
  db_connector w = Some d →
  DbConnector.shutdown_event d = true →
  db_connector._logging_worker turns interval w
  = (Ok db_connector.Returned, state_after db_connector.thread_exit w).
Proof.
  intros Hd Hset.
  destruct turns; simpl; unfold bind, db_connector.self;
    by rewrite Hd, Hset.
Qed.

(** A failed insert ends the worker: when a cycle of the worker thread
    meets a storage failure, the reconnection it calls sets the shutdown
    event and stops on joining the worker thread itself; no connection is
    attempted, the wait is skipped, and the loop returns with no further
    cycle, whatever the storage server would answer by then. *)
Lemma storage_failure_ends_worker (w : World) (d : DbConnector.t)
    (th : Thread) (turns : nat) (interval : Z) :
  db_connector w = Some d →
  DbConnector.connected d = true →
  DbConnector.cursor d = true →
  DbConnector.logging_active d = true →
  DbConnector.logging_thread d = Some th →
  DbConnector.shutdown_event d = false →
  th ∈ alive (env w) →
  current_thread (env w) = th →
  insert_ok (env w) = false →
  let items :=
    mapped_items (DbConnector.current_values d)
      (DbConnector.opc_to_db_mapping d) in
  items ≠ [] →
  let w' := state_after (db_connector._logging_worker (S turns) interval) w in
  outcome (db_connector._logging_worker (S turns) interval) w
  = Ok db_connector.Returned
  ∧ trace (env w')
    = trace (env w) ++ [EExecute (fst (insert_of items)) (snd (insert_of items))]
  ∧ (th ∉ alive (env w'))
  ∧ db_connector w' = Some (DbConnector.set_shutdown_event true d).
Proof.
  intros Hd Hconn Hcur Hactive Hthread Hevent Halive Hme Hfail items Hitems.
  assert (Hne : dict_is_empty (DbConnector.current_values d) = false).
  { unfold items in Hitems.
    destruct (DbConnector.current_values d); [by exfalso; apply Hitems|done]. }
  set (ins := EExecute (fst (insert_of items)) (snd (insert_of items))).
  set (w1 := set_env (set_trace (trace (env w) ++ [ins]) (env w)) w).
  set (w2 := set_db_connector
               (Some (DbConnector.set_shutdown_event true d)) w1).
  assert (Hcycle : db_connector._log_current_values w = (Ok tt, w2)).
  { unfold db_connector._log_current_values, bind at 1.
    unfold db_connector.self at 1. rewrite Hd, Hconn, Hne. simpl.
    rewrite collect_fields_spec. cbv zeta. fold items.
    assert (Hlen : (length ("timestamp" :: items.*1) <=? 1)%nat = false).
    { apply Nat.leb_gt. simpl. rewrite length_fmap.
      destruct items; [done | simpl; lia]. }
    rewrite Hlen.
    assert (Hins : EExecute
                     (db_connector.insert_query ("timestamp" :: items.*1)
                        ("NOW()" :: replicate (length items) "?"))
                     (map sql_of_value items.*2)
                   = ins).
    { subst ins. unfold insert_of. cbn [fst snd]. f_equal.
      by rewrite <- list_fmap_compose. }
    unfold try_except, bind at 1, db_connector.cursor_execute, bind at 1.
    unfold db_connector.self at 1. rewrite Hd, Hcur. cbn [negb].
    unfold bind at 1, emit, modify. unfold server_call at 1.
    cbn [env set_env insert_ok set_trace].
    rewrite Hfail. unfold bind.
    rewrite Hins. fold w1.
    by rewrite (_try_reconnect_from_worker w1 d th). }
  assert (Hturn : db_connector.worker_turn interval w = (Ok tt, w2)).
  { unfold db_connector.worker_turn, bind at 1, try_except, bind at 1.
    unfold db_connector.self at 1. rewrite Hd, Hconn, Hne. simpl.
    rewrite Hcycle.
    by apply (interval_sleep_shutdown _ w2
                (DbConnector.set_shutdown_event true d)). }
  assert (Hrun : db_connector._logging_worker (S turns) interval w
                 = (Ok db_connector.Returned,
                    state_after db_connector.thread_exit w2)).
  { simpl. unfold bind at 1, db_connector.self at 1. rewrite Hd, Hevent.
    unfold bind at 1. rewrite Hturn.
    by apply (_logging_worker_shutdown turns interval w2
                (DbConnector.set_shutdown_event true d)). }
  cbv zeta. unfold outcome, state_after at 1 2 3. rewrite Hrun.
  split_and!; try done.
  unfold state_after, db_connector.thread_exit, modify. simpl.
  rewrite Hme. intros Hin%list_elem_of_filter. by destruct Hin.
Qed.

(** C4 fails on the code: in the example the storage server refuses the
    insert of the first cycle.  The worker returns from its loop in that
    very turn: the only effect is the failed insert, there is no
    disconnection, no pause of two seconds, no attempt to connect and no
    second cycle, although the turns allowed were not used up and the
    storage server accepts connections; the connector still claims to be
    connected and its worker thread is over. *)
Theorem worker_ends_after_storage_failure :
  let w := demo_failing_storage in
  let w' := state_after (db_connector._logging_worker 3 2) w in
  outcome (db_connector._logging_worker 3 2) w = Ok db_connector.Returned
  ∧ trace (env w')
    = [EExecute
         "INSERT INTO process_data (timestamp, temp1) VALUES (NOW(), ?)"
         [SqlDouble demo_value]]
  ∧ connects (trace (env w')) = 0%nat
  ∧ db_server_up (env w') = true
  ∧ alive (env w') = []
  ∧ db_connected w' = true
  ∧ (DbConnector.shutdown_event <$> db_connector w') = Some true.
Proof. vm_compute. done. Qed.

(** With a storage server that accepts the insert the same worker keeps
    looping: three cycles in three turns. *)
Example worker_loops_while_storage_works :
  let w0 := demo_world []
              [("Temp1", Sample.mk (Some demo_value) "C" (Datetime 990))] in
  let w := as_thread (LoggingThread 0) w0 in
  outcome (db_connector._logging_worker 3 2) w = Ok db_connector.Looping
  ∧ length
      (statements
         (trace (env (state_after (db_connector._logging_worker 3 2) w))))
    = 3%nat.
Proof. vm_compute. done. Qed.

Lemma storage_failure_ends_worker_witness :
  let w := demo_failing_storage in
  let d := demo_db [("Temp1", Sample.mk (Some demo_value) "C" (Datetime 990))] in
  let items :=
    mapped_items (DbConnector.current_values d)
      (DbConnector.opc_to_db_mapping d) in
  let w' := state_after (db_connector._logging_worker (S 2) 2) w in
  outcome (db_connector._logging_worker (S 2) 2) w
  = Ok db_connector.Returned
  ∧ trace (env w')
    = trace (env w) ++ [EExecute (fst (insert_of items)) (snd (insert_of items))]
  ∧ (LoggingThread 0 ∉ alive (env w'))
  ∧ db_connector w' = Some (DbConnector.set_shutdown_event true d).
Proof.
  apply (storage_failure_ends_worker demo_failing_storage
           (demo_db [("Temp1", Sample.mk (Some demo_value) "C" (Datetime 990))])
           (LoggingThread 0) 2 2); try reflexivity.
  - apply list_elem_of_here.
  - vm_compute. discriminate.
Defined.

(** ** Reconnection *)









(** On the example, a reconnection made from the main thread succeeds,
    and the cycle after it writes to the new column. *)
Example reconnect_then_cycle :
  let w' := state_after db_connector._try_reconnect demo_remapped_storage in
  outcome db_connector._try_reconnect demo_remapped_storage = Ok true
  ∧ trace (env (state_after db_connector._log_current_values w'))
    = [EJoin (LoggingThread 0); EDbClose; ESleep 2; EDbConnect;
       ESelectTagnames; EThreadStart (LoggingThread 1) 2;
       EExecute
         "INSERT INTO process_data (timestamp, temp1_v2) VALUES (NOW(), ?)"
         [SqlDouble demo_value];
       ECommit].
Proof. vm_compute. done. Qed.

(** On the example whose mapping cannot be read, the reconnection
    succeeds all the same, the mapping is empty, and the cycle after it
    records nothing although a value is cached. *)
Example reconnect_without_mapping :
  let w' :=
    state_after db_connector._try_reconnect demo_unreadable_mapping in
  outcome db_connector._try_reconnect demo_unreadable_mapping = Ok true
  ∧ (DbConnector.opc_to_db_mapping <$> db_connector w') = Some ∅
  ∧ db_cache w' ≠ []
  ∧ statements
      (trace (env (state_after db_connector._log_current_values
                     (as_thread (LoggingThread 1) w'))))
    = [].
Proof. vm_compute. split_and!; done. Qed.

(** ** Startup *)

Global Instance without_listener_reflexive : Reflexive without_listener.
Proof. by intros w H. Qed.
Global Instance without_listener_transitive : Transitive without_listener.
Proof.
  intros w1 w2 w3 H12 H23 H1. destruct (H12 H1) as (H2 & Hd & Hu).
  destruct (H23 H2) as (H3 & Hd' & Hu'). split_and!; by etrans.
Qed.

Global Instance caches_stay_empty_reflexive : Reflexive caches_stay_empty.
Proof. by intros w. Qed.
Global Instance caches_stay_empty_transitive : Transitive caches_stay_empty.
Proof.
  intros w1 w2 w3 (Hd & Hu & Hs) (Hd' & Hu' & Hs'). split_and!; auto.
Qed.

Global Instance same_caches_reflexive : Reflexive same_caches.
Proof. by intros w. Qed.
Global Instance same_caches_transitive : Transitive same_caches.
Proof.
  intros w1 w2 w3 (Hn & Hd & Hu & Hs) (Hn' & Hd' & Hu' & Hs').
  split_and!; try (by etrans). auto.
Qed.

Lemma keeps_weaken {A} (R R' : World → World → Prop) (m : M A) :
  (∀ w w', R w w' → R' w w') → keeps R m → keeps R' m.
Proof. intros HR Hm w. apply HR, Hm. Qed.

Lemma same_but_session_same_caches w w' :
  same_but_session w w' → same_caches w w'.
Proof.
  intros H. split_and!.
  - by rewrite (sbs_opcua _ _ H).
  - apply (sbs_db_cache _ _ H).
  - unfold unity_cache. by rewrite (sbs_unity _ _ H).
  - by rewrite (sbs_unity _ _ H).
Qed.

Lemma same_caches_caches_stay_empty w w' :
  same_caches w w' → caches_stay_empty w w'.
Proof. intros (_ & Hd & Hu & Hs). split_and!; [by rewrite Hd | by rewrite Hu | done]. Qed.

(** *** The protocol connector before any listener is registered *)

Lemma opcua_update_without_listener (f : OpcUaConnector.t → OpcUaConnector.t) :
  (∀ o, OpcUaConnector.value_callbacks (f o) = OpcUaConnector.value_callbacks o) →
  keeps without_listener (opcua_connector.update f).
Proof. intros Hf w Hw. simpl. by rewrite Hf. Qed.

Lemma datetime_now_without_listener : keeps without_listener datetime_now.
Proof. by intros w Hw. Qed.

Lemma opcua_self_without_listener : keeps without_listener opcua_connector.self.
Proof. by intros w Hw. Qed.

(** Without listener, a notification only reads the clock. *)
Lemma _notify_callbacks_without_listener inv name value unit :
  keeps without_listener (opcua_connector._notify_callbacks inv name value unit).
Proof.
  intros w Hw. unfold state_after. rewrite _notify_callbacks_spec.
  rewrite Hw. by simpl.
Qed.

Ltac without_listener_auto :=
  repeat first
    [ apply datetime_now_without_listener
    | apply opcua_self_without_listener
    | apply _notify_callbacks_without_listener
    | apply opcua_update_without_listener; intros ?; reflexivity
    | keeps_step
    | match goal with
      | |- keeps _ (match ?x with _ => _ end) => destruct x
      end ].

Lemma opcua_disconnect_without_listener :
  keeps without_listener opcua_connector.disconnect.
Proof. unfold opcua_connector.disconnect. without_listener_auto. Qed.

Lemma opcua_connect_without_listener :
  keeps without_listener opcua_connector.connect.
Proof.
  unfold opcua_connector.connect.
  pose proof opcua_disconnect_without_listener.
  without_listener_auto; assumption.
Qed.

Lemma subscribe_to_nodes_without_listener inv :
  keeps without_listener (opcua_connector.subscribe_to_nodes inv).
Proof.
  unfold opcua_connector.subscribe_to_nodes, opcua_connector.subscribe_node,
    opcua_connector.store_latest.
  without_listener_auto.
Qed.

(** *** What leaves the caches as they are *)

Lemma session_keeps_same_caches {A} (m : M A) :
  keeps same_but_session m → keeps same_caches m.
Proof. apply keeps_weaken. apply same_but_session_same_caches. Qed.

Lemma db_update_same_caches (f : DbConnector.t → DbConnector.t) :
  (∀ d, DbConnector.current_values (f d) = DbConnector.current_values d) →
  keeps same_caches (db_connector.update f).
Proof.
  intros Hf w. unfold state_after, db_connector.update, same_caches, db_cache.
  destruct (db_connector w) as [d|] eqn:Hd; simpl; [|by rewrite Hd].
  by rewrite Hf.
Qed.

Lemma unity_update_same_caches (f : UnityConnector.t → UnityConnector.t) :
  (∀ u, UnityConnector.latest_values (f u) = UnityConnector.latest_values u) →
  keeps same_caches (unity_connector.update f).
Proof.
  intros Hf w.
  unfold state_after, unity_connector.update, same_caches, unity_cache.
  destruct (unity_connector w) as [u|] eqn:Hu; simpl; [|by rewrite Hu].
  by rewrite Hf.
Qed.

Lemma opcua_update_same_caches (f : OpcUaConnector.t → OpcUaConnector.t) :
  (∀ o, OpcUaConnector.nodes_to_monitor (f o)
        = OpcUaConnector.nodes_to_monitor o) →
  keeps same_caches (opcua_connector.update f).
Proof. intros Hf w. unfold same_caches. simpl. by rewrite Hf. Qed.

Lemma db_self_same_caches : keeps same_caches db_connector.self.
Proof. intros w. unfold state_after, db_connector.self. by destruct (db_connector w). Qed.

Lemma unity_self_same_caches : keeps same_caches unity_connector.self.
Proof.
  intros w. unfold state_after, unity_connector.self.
  by destruct (unity_connector w).
Qed.

Lemma opcua_self_same_caches : keeps same_caches opcua_connector.self.
Proof. by intros w. Qed.

Lemma emit_same_caches ef : keeps same_caches (emit ef).
Proof. by intros w. Qed.

Lemma config_value_same_caches {A} (v : option A) :
  keeps same_caches (db_connector.config_value v).
Proof. intros w. by destruct v. Qed.

Ltac same_caches_auto :=
  repeat first
    [ apply db_self_same_caches
    | apply unity_self_same_caches
    | apply opcua_self_same_caches
    | apply emit_same_caches
    | apply config_value_same_caches
    | apply db_update_same_caches; intros ?; reflexivity
    | apply unity_update_same_caches; intros ?; reflexivity
    | apply opcua_update_same_caches; intros ?; reflexivity
    | apply session_keeps_same_caches; solve [auto with keeps nocore]
    | keeps_step
    | match goal with
      | |- keeps _ (match ?x with _ => _ end) => destruct x
      | |- keeps _ (let '(_, _) := ?x in _) => destruct x
      end ].

Lemma cursor_execute_same_caches query params :
  keeps same_caches (db_connector.cursor_execute query params).
Proof. unfold db_connector.cursor_execute. same_caches_auto. Qed.

Lemma conn_commit_same_caches : keeps same_caches db_connector.conn_commit.
Proof. unfold db_connector.conn_commit. same_caches_auto. Qed.

Lemma _try_reconnect_same_caches : keeps same_caches db_connector._try_reconnect.
Proof. apply session_keeps_same_caches, _try_reconnect_keeps_session. Qed.

Lemma db_connect_same_caches : keeps same_caches db_connector.connect.
Proof. apply session_keeps_same_caches, connect_keeps_session. Qed.

Lemma db_disconnect_same_caches : keeps same_caches db_connector.disconnect.
Proof. apply session_keeps_same_caches, disconnect_keeps_session. Qed.

Lemma log_event_same_caches event_type message severity :
  keeps same_caches (db_connector.log_event event_type message severity).
Proof.
  unfold db_connector.log_event.
  pose proof cursor_execute_same_caches. pose proof conn_commit_same_caches.
  same_caches_auto; auto.
Qed.

Lemma _log_current_values_same_caches :
  keeps same_caches db_connector._log_current_values.
Proof.
  unfold db_connector._log_current_values.
  pose proof cursor_execute_same_caches. pose proof conn_commit_same_caches.
  pose proof _try_reconnect_same_caches.
  same_caches_auto; auto.
Qed.

Lemma interval_sleep_same_caches n :
  keeps same_caches (db_connector.interval_sleep n).
Proof.
  induction n as [|n IH]; simpl; [apply keeps_ret; apply _|].
  unfold time_sleep. same_caches_auto; auto.
Qed.

Lemma worker_turn_same_caches interval :
  keeps same_caches (db_connector.worker_turn interval).
Proof.
  unfold db_connector.worker_turn.
  pose proof _log_current_values_same_caches.
  pose proof interval_sleep_same_caches.
  same_caches_auto; auto.
Qed.

Lemma get_value_same_caches name :
  keeps same_caches (unity_connector.get_value name).
Proof. unfold unity_connector.get_value. same_caches_auto. Qed.

Lemma get_history_same_caches name hours_arg :
  keeps same_caches (unity_connector.get_history name hours_arg).
Proof.
  unfold unity_connector.get_history, db_connector.get_tag_history,
    db_connector.get_field_history.
  same_caches_auto.
Qed.

(** Anything but a live event leaves the caches as they are. *)
Lemma perform_same_caches (a : Activity) (w : World) :
  (∀ node val, a ≠ DataChange node val) →
  same_caches w (state_after (perform a) w).
Proof.
  intros Hnot. destruct a as [node val|th interval|name|name hours_arg].
  - by destruct (Hnot node val).
  - unfold perform, state_after.
    pose proof (worker_turn_same_caches interval (as_thread th w)) as H.
    unfold state_after in H. destruct H as (Hn & Hd & Hu & Hs).
    by split_and!.
  - pose proof (get_value_same_caches name).
    assert (keeps same_caches (perform (ValueRequest name))) as H'
      by (unfold perform; same_caches_auto; auto).
    apply H'.
  - pose proof (get_history_same_caches name hours_arg).
    assert (keeps same_caches (perform (HistoryRequest name hours_arg))) as H'
      by (unfold perform; same_caches_auto; auto).
    apply H'.
Qed.

(** *** What leaves empty caches empty *)

Lemma same_caches_keeps_empty {A} (m : M A) :
  keeps same_caches m → keeps caches_stay_empty m.
Proof. apply keeps_weaken. apply same_caches_caches_stay_empty. Qed.

Lemma opcua_update_caches_stay_empty (f : OpcUaConnector.t → OpcUaConnector.t) :
  keeps caches_stay_empty (opcua_connector.update f).
Proof. by intros w. Qed.

Lemma opcua_self_caches_stay_empty :
  keeps caches_stay_empty opcua_connector.self.
Proof. by intros w. Qed.

Lemma new_db_connector_caches_stay_empty enabled log_interval :
  keeps caches_stay_empty
    (modify (set_db_connector
               (Some (db_connector.__init__ enabled log_interval)))).
Proof. by intros w. Qed.

Lemma new_unity_connector_caches_stay_empty :
  keeps caches_stay_empty
    (modify (set_unity_connector (Some unity_connector.__init__))).
Proof. intros w. split_and!; [done | done | by eexists]. Qed.

Ltac caches_stay_empty_auto :=
  repeat first
    [ apply opcua_update_caches_stay_empty
    | apply opcua_self_caches_stay_empty
    | apply new_db_connector_caches_stay_empty
    | apply new_unity_connector_caches_stay_empty
    | apply same_caches_keeps_empty;
      first [ apply db_connect_same_caches
            | apply db_disconnect_same_caches
            | apply log_event_same_caches
            | apply config_value_same_caches
            | apply unity_update_same_caches; intros ?; reflexivity ]
    | keeps_step
    | match goal with
      | |- keeps _ (match ?x with _ => _ end) => destruct x
      end ].

Lemma opcua_disconnect_caches_stay_empty :
  keeps caches_stay_empty opcua_connector.disconnect.
Proof. unfold opcua_connector.disconnect. caches_stay_empty_auto. Qed.

Lemma unity_start_caches_stay_empty :
  keeps caches_stay_empty unity_connector.start.
Proof.
  unfold unity_connector.start, unity_connector.stop,
    opcua_connector.add_value_callback.
  caches_stay_empty_auto.
Qed.

(** What [main] has done when it reaches its serving loop, started on a
    process without listener, storage connector and HTTP surface. *)
Lemma main_serving (database_enabled : option bool) (log_interval : option Z)
    (w0 w' : World) :
  OpcUaConnector.value_callbacks (opcua_connector w0) = [] →
  db_connector w0 = None →
  unity_connector w0 = None →
  main database_enabled log_interval w0 = (Ok Serving, w') →
  db_cache w' = [] ∧ unity_cache w' = [] ∧ is_Some (unity_connector w').
Proof.
  intros Hcb Hdb Hun H. unfold main, bind at 1 in H.
  pose proof (opcua_connect_without_listener w0 Hcb) as H1.
  unfold state_after in H1.
  destruct (opcua_connector.connect w0) as [[[]|e] w1]; simpl in *;
    [|discriminate|discriminate].
  destruct H1 as (Hcb1 & Hdb1 & Hun1).
  unfold bind at 1 in H.
  pose proof (subscribe_to_nodes_without_listener invoke w1 Hcb1) as H2.
  unfold state_after in H2.
  destruct (opcua_connector.subscribe_to_nodes invoke w1) as [[[]|e] w2];
    simpl in *; [| |discriminate].
  2:{ unfold bind in H.
      by destruct (opcua_connector.disconnect w2) as [[?|?] ?]. }
  destruct H2 as (Hcb2 & Hdb2 & Hun2).
  unfold bind at 1 in H.
  match type of H with
  | (let (_, _) := ?m w2 in _) = _ =>
      assert (Hk : keeps caches_stay_empty m);
        [|specialize (Hk w2); unfold state_after in Hk;
          destruct (m w2) as [[[]|e] w3]; [|discriminate]]
  end.
  { pose proof opcua_disconnect_caches_stay_empty.
    unfold opcua_connector.add_value_callback. caches_stay_empty_auto. }
  simpl in Hk. destruct Hk as (Hk_db & _ & _).
  unfold bind at 1, modify in H.
  set (w4 := set_unity_connector (Some unity_connector.__init__) w3) in H.
  match type of H with
  | ?m w4 = _ =>
      assert (Hk : keeps caches_stay_empty m);
        [|specialize (Hk w4); unfold state_after in Hk; rewrite H in Hk]
  end.
  { pose proof opcua_disconnect_caches_stay_empty.
    pose proof unity_start_caches_stay_empty.
    unfold unity_connector.set_db_connector.
    caches_stay_empty_auto; auto. }
  simpl in Hk. destruct Hk as (Hdb' & Hun' & Hs').
  split_and!.
  - apply Hdb'. subst w4. unfold db_cache in *. simpl. apply Hk_db.
    by rewrite Hdb2, Hdb1, Hdb.
  - by apply Hun'.
  - apply Hs'. by eexists.
Qed.

(** *** Until the first live event *)





(** The process [main] finds has no listener, no storage connector and no
    HTTP surface. *)
Lemma process_start_fresh (config : opcua_connector.ConfigParser) (e : Env)
    (w0 : World) :
  process_start config e = inr w0 →
  OpcUaConnector.value_callbacks (opcua_connector w0) = []
  ∧ db_connector w0 = None
  ∧ unity_connector w0 = None.
Proof.
  unfold process_start, opcua_connector.__init__. intros H.
  repeat match type of H with
         | context [match ?x with _ => _ end] =>
             lazymatch x with
             | context [match _ with _ => _ end] => fail
             | _ => destruct x; try discriminate
             end
         end.
  injection H as <-. by split_and!.
Qed.



(** On the example: after startup the seeded value of [Temp1] is in the
    cache of the protocol connector, the HTTP surface answers "not found"
    and the persistence cache is empty; the first live event of [Temp1]
    fills both. *)
Example seeded_value_is_not_served :
  let w0 := mkWorld (OpcUaConnector.mk [demo_node] false false [] false [] [])
              None None demo_start_env in
  let w' := state_after (main (Some true) (Some 2)) w0 in
  let w'' :=
    state_after (perform (DataChange "ns=2;i=5" (PyStr "1.5"))) w' in
  outcome (main (Some true) (Some 2)) w0 = Ok Serving
  ∧ OpcUaConnector.latest_values (opcua_connector w')
    = [("Temp1", Sample.mk (Some demo_value) "C" (IsoString 1000))]
  ∧ OpcUaConnector.value_callbacks (opcua_connector w')
    = [cb_db_update_callback; cb_on_value_update]
  ∧ unity_connector.status <$> outcome_value (unity_connector.get_value "Temp1") w'
    = Some 404
  ∧ db_cache w' = []
  ∧ unity_connector.status <$> outcome_value (unity_connector.get_value "Temp1") w''
    = Some 200
  ∧ keys (db_cache w'') = ["Temp1"].
Proof. vm_compute. done. Qed.

(** ** The invariant of the storage session *)

Global Instance wf_kept_reflexive : Reflexive wf_kept.
Proof. intros w H. exact H. Qed.
Global Instance wf_kept_transitive : Transitive wf_kept.
Proof. intros w1 w2 w3 H12 H23 H1. apply H23, H12, H1. Qed.

(** Closes the goals on the invariant that a split on the tests of a
    method leaves. *)
Ltac wf_done :=
  intros Hwf d' Hd' Hc'; simpl in *; simplify_eq; simpl in *;
  first [ done
        | by split
        | match goal with
          | H : db_connector _ = Some ?d |- _ => by apply (Hwf d)
          end ].

Lemma db_disconnect_wf_kept : keeps wf_kept db_connector.disconnect.
Proof.
  intros w. unfold state_after, db_connector.disconnect. unfold_db.
  split_tests; wf_done.
Qed.

Lemma db_connect_wf_kept : keeps wf_kept db_connector.connect.
Proof.
  intros w.
  unfold state_after, db_connector.connect, db_connector._load_tag_mappings,
    db_connector._start_logging_thread.
  unfold_db. split_tests; wf_done.
Qed.

Lemma time_sleep_wf_kept secs : keeps wf_kept (time_sleep secs).
Proof. intros w H. exact H. Qed.

Lemma _try_reconnect_wf_kept : keeps wf_kept db_connector._try_reconnect.
Proof.
  unfold db_connector._try_reconnect.
  pose proof db_disconnect_wf_kept. pose proof db_connect_wf_kept.
  pose proof time_sleep_wf_kept.
  keeps_auto; auto.
Qed.

Lemma cursor_execute_wf_kept query params :
  keeps wf_kept (db_connector.cursor_execute query params).
Proof.
  intros w. unfold state_after, db_connector.cursor_execute. unfold_db.
  split_tests; wf_done.
Qed.

Lemma conn_commit_wf_kept : keeps wf_kept db_connector.conn_commit.
Proof.
  intros w. unfold state_after, db_connector.conn_commit. unfold_db.
  split_tests; wf_done.
Qed.

Lemma db_self_wf_kept : keeps wf_kept db_connector.self.
Proof.
  intros w. unfold state_after, db_connector.self.
  by destruct (db_connector w).
Qed.

(** A persistence cycle, reconnection included, keeps the invariant. *)
Lemma _log_current_values_wf_kept :
  keeps wf_kept db_connector._log_current_values.
Proof.
  unfold db_connector._log_current_values.
  pose proof cursor_execute_wf_kept. pose proof conn_commit_wf_kept.
  pose proof _try_reconnect_wf_kept. pose proof db_self_wf_kept.
  repeat first
    [ keeps_step
    | match goal with
      | |- keeps _ (let '(_, _) := ?x in _) => destruct x
      end ]; auto.
Qed.

(** Writing a value into the persistence cache keeps the invariant. *)
Lemma update_value_wf_kept tag_name value unit timestamp :
  keeps wf_kept (db_connector.update_value tag_name value unit timestamp).
Proof.
  intros w. unfold state_after, db_connector.update_value. unfold_db.
  split_tests; wf_done.
Qed.

(** The storage connector [main] creates satisfies the invariant. *)
Lemma new_db_connector_wf enabled log_interval w :
  session_wf
    (set_db_connector (Some (db_connector.__init__ enabled log_interval)) w).
Proof. intros d [= <-]. simpl. discriminate. Qed.

(** ** What the HTTP surface refers to *)

Global Instance same_attachment_reflexive : Reflexive same_attachment.
Proof. by intros w. Qed.
Global Instance same_attachment_transitive : Transitive same_attachment.
Proof.
  intros w1 w2 w3 (Hc & Hs & Hu) (Hc' & Hs' & Hu').
  split_and!; [by etrans | auto | by etrans].
Qed.

Lemma same_attachment_wf w w' :
  same_attachment w w' → attachment_wf w → attachment_wf w'.
Proof.
  intros (Hc & Hs & Hu) Hwf u' Hu'. rewrite Hu' in Hu.
  destruct (unity_connector w) as [u|] eqn:Hw; [|done].
  simpl in Hu. injection Hu as Hdb. destruct (Hwf u Hw) as [H1 H2].
  rewrite Hdb, Hc. split; auto.
Qed.

Lemma opcua_update_same_attachment (f : OpcUaConnector.t → OpcUaConnector.t) :
  keeps same_attachment (opcua_connector.update f).
Proof. by intros w. Qed.

Lemma opcua_self_same_attachment : keeps same_attachment opcua_connector.self.
Proof. by intros w. Qed.

Lemma unity_update_same_attachment (f : UnityConnector.t → UnityConnector.t) :
  (∀ u, UnityConnector.db (f u) = UnityConnector.db u) →
  keeps same_attachment (unity_connector.update f).
Proof.
  intros Hf w. unfold state_after, unity_connector.update, same_attachment.
  destruct (unity_connector w) as [u|] eqn:Hu; simpl; [|by rewrite Hu].
  by rewrite Hf.
Qed.

Lemma unity_self_same_attachment : keeps same_attachment unity_connector.self.
Proof.
  intros w. unfold state_after, unity_connector.self.
  by destruct (unity_connector w).
Qed.

Ltac same_attachment_auto :=
  repeat first
    [ apply opcua_update_same_attachment
    | apply opcua_self_same_attachment
    | apply unity_self_same_attachment
    | apply unity_update_same_attachment; intros ?; reflexivity
    | keeps_step
    | match goal with
      | |- keeps _ (match ?x with _ => _ end) => destruct x
      end ].

Lemma opcua_disconnect_same_attachment :
  keeps same_attachment opcua_connector.disconnect.
Proof. unfold opcua_connector.disconnect. same_attachment_auto. Qed.

Lemma unity_start_same_attachment :
  keeps same_attachment unity_connector.start.
Proof.
  unfold unity_connector.start, unity_connector.stop,
    opcua_connector.add_value_callback.
  same_attachment_auto.
Qed.

(** When [main] reaches its serving loop the HTTP surface refers to the
    storage connector, or storage is not connected. *)
Lemma main_serving_attachment (database_enabled : option bool)
    (log_interval : option Z) (w0 w' : World) :
  main database_enabled log_interval w0 = (Ok Serving, w') →
  attachment_wf w'.
Proof.
  intros H. unfold main, bind at 1 in H.
  destruct (opcua_connector.connect w0) as [[[]|e] w1]; simpl in *;
    [|discriminate|discriminate].
  unfold bind at 1 in H.
  destruct (opcua_connector.subscribe_to_nodes invoke w1) as [[[]|e] w2];
    simpl in *; [| |discriminate].
  2:{ unfold bind in H.
      by destruct (opcua_connector.disconnect w2) as [[?|?] ?]. }
  unfold bind at 1 in H.
  match type of H with
  | (let (_, _) := ?m w2 in _) = _ =>
      destruct (m w2) as [[[]|e] w3]; [|discriminate]
  end.
  unfold bind at 1, modify in H.
  set (w4 := set_unity_connector (Some unity_connector.__init__) w3) in H.
  unfold bind at 1 in H.
  match type of H with
  | (let (_, _) := ?m w4 in _) = _ =>
      assert (Hw5 : ∃ w5, m w4 = (Ok tt, w5) ∧ attachment_wf w5)
  end.
  { unfold bind, get_world, unity_connector.set_db_connector,
      unity_connector.update. subst w4. simpl.
    destruct (db_connector w3) as [d|] eqn:Hd3;
      [destruct (DbConnector.connected d) eqn:Hc3|];
      (eexists; split; [reflexivity|]); intros u [= <-]; simpl;
      unfold db_connected; simpl; rewrite Hd3; split; try discriminate;
      by eauto. }
  destruct Hw5 as (w5 & Hrun & Hwf5). rewrite Hrun in H.
  unfold bind at 1 in H.
  pose proof (unity_start_same_attachment w5) as Hs.
  unfold state_after in Hs.
  destruct (unity_connector.start w5) as [[[]|e] w6]; simpl in *.
  - injection H as <-. by apply (same_attachment_wf w5 w6).
  - unfold bind in H.
    destruct (opcua_connector.disconnect w6) as [[?|?] w7]; [|discriminate].
    destruct (get_world w7) as [[?|?] w8]; [|discriminate].
    match type of H with
    | (let (_, _) := ?m in _) = _ => destruct m as [[?|?] ?]
    end; discriminate.
  - discriminate.
Qed.

(** ** The invariant of the running gateway *)

Global Instance link_kept_reflexive : Reflexive link_kept.
Proof. by intros w. Qed.
Global Instance link_kept_transitive : Transitive link_kept.
Proof.
  intros w1 w2 w3 (Hs & Hu) (Hs' & Hu'). split; [auto | by etrans].
Qed.

(** A step that touches neither the storage connector nor the HTTP
    surface. *)
Lemma untouched_wf_kept {A} (m : M A) :
  (∀ w, db_connector (state_after m w) = db_connector w) →
  keeps wf_kept m.
Proof. intros Hm w Hwf d Hd. rewrite Hm in Hd. by apply Hwf. Qed.

Lemma untouched_link_kept {A} (m : M A) :
  (∀ w, db_connector (state_after m w) = db_connector w
        ∧ unity_connector (state_after m w) = unity_connector w) →
  keeps link_kept m.
Proof. intros Hm w. destruct (Hm w) as [Hd Hu]. split; by rewrite ?Hd, ?Hu. Qed.

Lemma db_update_link_kept (f : DbConnector.t → DbConnector.t) :
  keeps link_kept (db_connector.update f).
Proof.
  intros w. unfold state_after, db_connector.update.
  destruct (db_connector w) as [d|] eqn:Hd; simpl; [|done].
  split; [by eexists | done].
Qed.

Lemma db_self_link_kept : keeps link_kept db_connector.self.
Proof.
  intros w. unfold state_after, db_connector.self.
  by destruct (db_connector w).
Qed.

Lemma unity_update_link_kept (f : UnityConnector.t → UnityConnector.t) :
  (∀ u, UnityConnector.db (f u) = UnityConnector.db u) →
  keeps link_kept (unity_connector.update f).
Proof.
  intros Hf w. unfold state_after, unity_connector.update, link_kept.
  destruct (unity_connector w) as [u|] eqn:Hu; simpl; [|by rewrite Hu].
  by rewrite Hf.
Qed.

Lemma unity_self_link_kept : keeps link_kept unity_connector.self.
Proof.
  intros w. unfold state_after, unity_connector.self.
  by destruct (unity_connector w).
Qed.

Lemma unity_update_wf_kept (f : UnityConnector.t → UnityConnector.t) :
  keeps wf_kept (unity_connector.update f).
Proof.
  apply untouched_wf_kept. intros w.
  unfold state_after, unity_connector.update.
  by destruct (unity_connector w).
Qed.

Lemma unity_self_wf_kept : keeps wf_kept unity_connector.self.
Proof.
  apply untouched_wf_kept. intros w.
  unfold state_after, unity_connector.self.
  by destruct (unity_connector w).
Qed.

(** The steps on the rest of the process: the protocol connector, the
    clock, the trace, the thread table. *)
Ltac untouched :=
  first [ apply untouched_wf_kept | apply untouched_link_kept ];
  intros ?; done.

Ltac invariant_auto :=
  repeat first
    [ apply db_self_wf_kept | apply db_self_link_kept
    | apply unity_self_wf_kept | apply unity_self_link_kept
    | apply unity_update_wf_kept
    | apply unity_update_link_kept; intros ?; reflexivity
    | apply db_update_link_kept
    | match goal with
      | |- keeps _ (opcua_connector.update _) => untouched
      | |- keeps _ opcua_connector.self => untouched
      | |- keeps _ datetime_now => untouched
      | |- keeps _ (emit _) => untouched
      | |- keeps _ (time_sleep _) => untouched
      | |- keeps _ db_connector.thread_new => untouched
      | |- keeps _ (modify _) => untouched
      end
    | keeps_step
    | match goal with
      | |- keeps _ (match ?x with _ => _ end) => destruct x
      | |- keeps _ (let '(_, _) := ?x in _) => destruct x
      end ].

Lemma worker_turn_link_kept interval :
  keeps link_kept (db_connector.worker_turn interval).
Proof.
  assert (∀ n, keeps link_kept (db_connector.interval_sleep n)) as Hsleep.
  { induction n as [|n IH]; simpl; invariant_auto. }
  unfold db_connector.worker_turn, db_connector._log_current_values,
    db_connector.cursor_execute, db_connector.conn_commit,
    db_connector._try_reconnect, db_connector.disconnect,
    db_connector.connect, db_connector._load_tag_mappings,
    db_connector._start_logging_thread, db_connector.mariadb_connect,
    db_connector.conn_close, db_connector.thread_start,
    db_connector.thread_join, db_connector.thread_is_alive,
    db_connector.config_value.
  invariant_auto.
Qed.

Lemma worker_turn_wf_kept interval :
  keeps wf_kept (db_connector.worker_turn interval).
Proof.
  assert (∀ n, keeps wf_kept (db_connector.interval_sleep n)) as Hsleep.
  { induction n as [|n IH]; simpl; invariant_auto. }
  pose proof _log_current_values_wf_kept.
  unfold db_connector.worker_turn. invariant_auto.
Qed.

Lemma invoke_wf_kept callback name value unit timestamp :
  keeps wf_kept (invoke callback name value unit timestamp).
Proof.
  pose proof update_value_wf_kept.
  destruct callback; unfold invoke, db_update_callback,
    unity_connector.on_value_update; invariant_auto.
Qed.

Lemma invoke_link_kept callback name value unit timestamp :
  keeps link_kept (invoke callback name value unit timestamp).
Proof.
  destruct callback; unfold invoke, db_update_callback,
    unity_connector.on_value_update, db_connector.update_value;
    invariant_auto.
Qed.

Lemma datachange_notification_wf_kept node val :
  keeps wf_kept (opcua_connector.datachange_notification invoke node val).
Proof.
  pose proof invoke_wf_kept.
  unfold opcua_connector.datachange_notification,
    opcua_connector._notify_callbacks, opcua_connector.store_latest.
  invariant_auto.
Qed.

Lemma datachange_notification_link_kept node val :
  keeps link_kept (opcua_connector.datachange_notification invoke node val).
Proof.
  pose proof invoke_link_kept.
  unfold opcua_connector.datachange_notification,
    opcua_connector._notify_callbacks, opcua_connector.store_latest.
  invariant_auto.
Qed.

Lemma get_value_wf_kept name : keeps wf_kept (unity_connector.get_value name).
Proof. unfold unity_connector.get_value. invariant_auto. Qed.

Lemma get_value_link_kept name :
  keeps link_kept (unity_connector.get_value name).
Proof. unfold unity_connector.get_value. invariant_auto. Qed.

Lemma get_history_wf_kept name hours_arg :
  keeps wf_kept (unity_connector.get_history name hours_arg).
Proof.
  unfold unity_connector.get_history, db_connector.get_tag_history,
    db_connector.get_field_history.
  invariant_auto.
Qed.

Lemma get_history_link_kept name hours_arg :
  keeps link_kept (unity_connector.get_history name hours_arg).
Proof.
  unfold unity_connector.get_history, db_connector.get_tag_history,
    db_connector.get_field_history.
  invariant_auto.
Qed.

Lemma perform_wf_kept (a : Activity) : keeps wf_kept (perform a).
Proof.
  pose proof datachange_notification_wf_kept.
  pose proof get_value_wf_kept. pose proof get_history_wf_kept.
  destruct a as [node val|th interval|name|name hours_arg];
    unfold perform; [auto| |invariant_auto..].
  intros w Hwf. apply (worker_turn_wf_kept interval (as_thread th w)).
  exact Hwf.
Qed.

Lemma perform_link_kept (a : Activity) : keeps link_kept (perform a).
Proof.
  pose proof datachange_notification_link_kept.
  pose proof get_value_link_kept. pose proof get_history_link_kept.
  destruct a as [node val|th interval|name|name hours_arg];
    unfold perform; [auto| |invariant_auto..].
  intros w. apply (worker_turn_link_kept interval (as_thread th w)).
Qed.

(** *** While storage is not connected *)

Global Instance same_connection_reflexive : Reflexive same_connection.
Proof. by intros w. Qed.
Global Instance same_connection_transitive : Transitive same_connection.
Proof. intros w1 w2 w3 H12 H23. unfold same_connection in *. by etrans. Qed.

Lemma untouched_same_connection {A} (m : M A) :
  (∀ w, db_connector (state_after m w) = db_connector w) →
  keeps same_connection m.
Proof. intros Hm w. unfold same_connection, db_connected. by rewrite Hm. Qed.

Lemma db_update_same_connection (f : DbConnector.t → DbConnector.t) :
  (∀ d, DbConnector.connected (f d) = DbConnector.connected d) →
  keeps same_connection (db_connector.update f).
Proof.
  intros Hf w.
  unfold state_after, db_connector.update, same_connection, db_connected.
  destruct (db_connector w) as [d|] eqn:Hd; simpl; [|by rewrite Hd].
  by rewrite Hf.
Qed.

Lemma db_self_same_connection : keeps same_connection db_connector.self.
Proof.
  apply untouched_same_connection. intros w.
  unfold state_after, db_connector.self.
  by destruct (db_connector w) eqn:Hd.
Qed.

Lemma unity_self_same_connection : keeps same_connection unity_connector.self.
Proof.
  apply untouched_same_connection. intros w.
  unfold state_after, unity_connector.self.
  by destruct (unity_connector w) eqn:Hu.
Qed.

Lemma unity_update_same_connection (f : UnityConnector.t → UnityConnector.t) :
  keeps same_connection (unity_connector.update f).
Proof.
  apply untouched_same_connection. intros w.
  unfold state_after, unity_connector.update.
  by destruct (unity_connector w) eqn:Hu.
Qed.

Ltac same_connection_auto :=
  repeat first
    [ apply db_self_same_connection
    | apply unity_self_same_connection
    | apply unity_update_same_connection
    | apply db_update_same_connection; intros ?; reflexivity
    | match goal with
      | |- keeps _ (opcua_connector.update _) =>
          apply untouched_same_connection; intros ?; done
      | |- keeps _ opcua_connector.self =>
          apply untouched_same_connection; intros ?; done
      | |- keeps _ datetime_now =>
          apply untouched_same_connection; intros ?; done
      | |- keeps _ (emit _) =>
          apply untouched_same_connection; intros ?; done
      | |- keeps _ (time_sleep _) =>
          apply untouched_same_connection; intros ?; done
      end
    | keeps_step
    | match goal with
      | |- keeps _ (match ?x with _ => _ end) => destruct x
      end ].

Lemma interval_sleep_same_connection n :
  keeps same_connection (db_connector.interval_sleep n).
Proof. induction n as [|n IH]; simpl; same_connection_auto. Qed.

Lemma datachange_notification_same_connection node val :
  keeps same_connection
    (opcua_connector.datachange_notification invoke node val).
Proof.
  assert (∀ callback name value unit timestamp,
            keeps same_connection
              (invoke callback name value unit timestamp)) as Hinvoke.
  { intros []; intros; unfold invoke, db_update_callback,
      unity_connector.on_value_update, db_connector.update_value;
      same_connection_auto. }
  unfold opcua_connector.datachange_notification,
    opcua_connector._notify_callbacks, opcua_connector.store_latest.
  same_connection_auto.
Qed.

Lemma get_value_same_connection name :
  keeps same_connection (unity_connector.get_value name).
Proof. unfold unity_connector.get_value. same_connection_auto. Qed.

Lemma get_history_same_connection name hours_arg :
  keeps same_connection (unity_connector.get_history name hours_arg).
Proof.
  unfold unity_connector.get_history, db_connector.get_tag_history,
    db_connector.get_field_history.
  same_connection_auto.
Qed.

(** A worker that finds storage not connected leaves it so: it records
    nothing and does not reconnect. *)
Lemma worker_turn_stays_disconnected interval w :
  db_connected w = false →
  db_connected (state_after (db_connector.worker_turn interval) w) = false.
Proof.
  intros Hc. unfold db_connector.worker_turn, state_after, bind at 1.
  match goal with
  | |- db_connected (snd (let (_, _) := ?m w in _)) = _ =>
      assert (∃ r, m w = (r, w)) as [r ->]
  end.
  { unfold try_except, bind, db_connector.self, db_connected in *.
    destruct (db_connector w) as [d|]; simpl; [|by eexists].
    rewrite Hc. simpl. by eexists. }
  pose proof (interval_sleep_same_connection (Z.to_nat interval) w) as Hs.
  unfold same_connection, state_after in Hs.
  destruct r as [[]|e]; simpl; [by rewrite Hs | done].
Qed.

(** Storage that is not connected stays so whatever goes on: only the
    worker reconnects, and only after it has found storage connected. *)
Lemma perform_stays_disconnected (a : Activity) (w : World) :
  db_connected w = false →
  db_connected (state_after (perform a) w) = false.
Proof.
  intros Hc.
  pose proof datachange_notification_same_connection.
  pose proof get_value_same_connection.
  pose proof get_history_same_connection.
  destruct a as [node val|th interval|name|name hours_arg].
  - unfold perform.
    by rewrite (datachange_notification_same_connection node val w).
  - unfold perform, state_after.
    by apply (worker_turn_stays_disconnected interval (as_thread th w)).
  - assert (keeps same_connection (perform (ValueRequest name))) as Hk
      by (unfold perform; same_connection_auto).
    by rewrite (Hk w).
  - assert (keeps same_connection (perform (HistoryRequest name hours_arg)))
      as Hk by (unfold perform; same_connection_auto).
    by rewrite (Hk w).
Qed.

(** Every activity keeps the invariant of the running gateway. *)
Lemma perform_gateway_wf (a : Activity) (w : World) :
  gateway_wf w → gateway_wf (state_after (perform a) w).
Proof.
  intros [Hs Ha]. split; [by apply (perform_wf_kept a w)|].
  destruct (perform_link_kept a w) as [Hsome Hflag].
  pose proof (perform_stays_disconnected a w) as Hdis.
  intros u' Hu'. rewrite Hu' in Hflag.
  destruct (unity_connector w) as [u|] eqn:Hu; [|done].
  simpl in Hflag. injection Hflag as Hdb.
  destruct (Ha u Hu) as [H1 H2]. rewrite Hdb. split; auto.
Qed.

Lemma perform_all_gateway_wf (activities : list Activity) (w : World) :
  gateway_wf w → gateway_wf (state_after (perform_all activities) w).
Proof.
  revert w. induction activities as [|a activities IH]; intros w Hwf.
  - exact Hwf.
  - pose proof (perform_gateway_wf a w Hwf) as Ha.
    specialize (IH (state_after (perform a) w) Ha).
    unfold perform_all in *. simpl. unfold state_after, bind in *.
    destruct (perform a w) as [[[]|e] w1]; simpl in *; [exact IH | exact Ha].
Qed.

(** *** Startup establishes the invariant *)

Lemma main_wf_kept database_enabled log_interval :
  keeps wf_kept (main database_enabled log_interval).
Proof.
  pose proof invoke_wf_kept. pose proof db_connect_wf_kept.
  pose proof db_disconnect_wf_kept. pose proof cursor_execute_wf_kept.
  pose proof conn_commit_wf_kept.
  assert (keeps wf_kept
            (modify (set_db_connector
               (Some (db_connector.__init__ database_enabled log_interval)))))
    as Hnew by (intros w _; apply new_db_connector_wf).
  unfold main, opcua_connector.connect, opcua_connector.subscribe_to_nodes,
    opcua_connector.subscribe_node, opcua_connector._notify_callbacks,
    opcua_connector.store_latest, opcua_connector.disconnect,
    opcua_connector.add_value_callback, db_connector.config_value,
    db_connector.log_event, unity_connector.set_db_connector,
    unity_connector.start, unity_connector.stop.
  unfold opcua_connector.add_value_callback.
  invariant_auto.
Qed.

(** Started on a process without storage connector, [main] reaches its
    serving loop with the invariant of the running gateway. *)
Lemma main_serving_gateway_wf (database_enabled : option bool)
    (log_interval : option Z) (w0 w' : World) :
  db_connector w0 = None →
  main database_enabled log_interval w0 = (Ok Serving, w') →
  gateway_wf w'.
Proof.
  intros Hdb H. split.
  - pose proof (main_wf_kept database_enabled log_interval w0) as Hk.
    unfold state_after in Hk. rewrite H in Hk. apply Hk.
    intros d Hd. by rewrite Hdb in Hd.
  - by apply (main_serving_attachment database_enabled log_interval w0).
Qed.


(** The invariant gives what a history request relies on: a storage
    connector when the HTTP surface refers to one, no connection when it
    refers to none, a cursor when storage is connected. *)
Lemma gateway_wf_history_request (w : World) (u : UnityConnector.t) :
  gateway_wf w →
  unity_connector w = Some u →
  (UnityConnector.db u = true → is_Some (db_connector w))
  ∧ (UnityConnector.db u = false → db_connected w = false)
  ∧ (∀ d, db_connector w = Some d →
          DbConnector.connected d = true → DbConnector.cursor d = true).
Proof.
  intros [Hs Ha] Hu. destruct (Ha u Hu) as [H1 H2].
  split_and!; [done | done |].
  intros d Hd Hc. by destruct (Hs d Hd Hc).
Qed.

(** Every state the gateway reaches from its start has the invariant. *)
Lemma served_gateway_wf (database_enabled : option bool)
    (log_interval : option Z) (w0 w' : World) (activities : list Activity) :
  db_connector w0 = None →
  main database_enabled log_interval w0 = (Ok Serving, w') →
  gateway_wf (state_after (perform_all activities) w').
Proof.
  intros Hdb Hmain. apply perform_all_gateway_wf.
  by apply (main_serving_gateway_wf database_enabled log_interval w0).
Qed.

(** * Further properties of the code *)

(** ** The protocol connector: connecting and disconnecting *)

(** Calls to the server leave the process as it is. *)
Lemma for_each_server_call {A} (l : list A) ok e w :
  ∃ r, for_each l (fun _ => server_call ok e) w = (r, w).
Proof.
  induction l as [|x l [r IH]]; [by eexists|].
  cbn [for_each]. unfold bind. unfold server_call at 1.
  destruct (ok (env w)); [|by eexists].
  rewrite IH. destruct r; by eexists.
Qed.

Lemma opcua_disconnect_spec (w : World) :
  let o := opcua_connector w in
  ∃ subscription,
    opcua_connector.disconnect w
    = (Ok tt,
       set_opcua
         (OpcUaConnector.mk (OpcUaConnector.nodes_to_monitor o) false
            subscription (OpcUaConnector.handles o)
            (OpcUaConnector.connected o && negb (OpcUaConnector.client o))
            (OpcUaConnector.latest_values o)
            (OpcUaConnector.value_callbacks o)) w)
    ∧ (OpcUaConnector.subscription o = false → subscription = false).
Proof.
  intros o. subst o. unfold opcua_connector.disconnect.
  destruct w as [[nodes client sub handles connected latest callbacks] d u e].
  unfold opcua_connector.self, opcua_connector.update, bind at 1.
  cbn -[for_each].
  destruct sub; cbn -[for_each].
  - unfold try_except, bind at 1.
    match goal with
    | |- context [for_each ?l ?f ?w0] =>
        destruct (for_each_server_call l opc_disconnect_ok UaError w0)
          as [r Hr]; rewrite Hr
    end.
    destruct r as [[]|err]; cbn;
      unfold bind, server_call, modify, try_finally, try_except, ret; cbn;
      destruct (opc_disconnect_ok e) eqn:Hok, client; cbn; rewrite ?Hok; cbn;
      eexists; (split; [rewrite ?andb_true_r, ?andb_false_r; reflexivity|done]).
  - unfold bind, server_call, modify, try_finally, try_except, ret; cbn.
    destruct (opc_disconnect_ok e) eqn:Hok, client; cbn; rewrite ?Hok; cbn;
      eexists; (split; [rewrite ?andb_true_r, ?andb_false_r; reflexivity|done]).
Qed.

(** What connecting does: the certificates, then the client, then the
    session; any failure ends in [disconnect]. *)
Lemma opcua_connect_spec (w : World) :
  let o := opcua_connector w in
  let ok := certificates_ok (env w) && opc_connect_ok (env w) in
  ∃ subscription,
    opcua_connector.connect w
    = (Ok ok,
       set_opcua
         (OpcUaConnector.mk (OpcUaConnector.nodes_to_monitor o) ok
            subscription (OpcUaConnector.handles o)
            (ok || OpcUaConnector.connected o && negb (OpcUaConnector.client o)
                   && negb (certificates_ok (env w)))
            (OpcUaConnector.latest_values o)
            (OpcUaConnector.value_callbacks o)) w)
    ∧ (OpcUaConnector.subscription o = false → subscription = false)
    ∧ (ok = true → subscription = OpcUaConnector.subscription o).
Proof.
  intros o ok. subst o ok. unfold opcua_connector.connect, try_except.
  unfold bind at 1. unfold server_call at 1.
  destruct (certificates_ok (env w)) eqn:Hcert; cbn [andb].
  - unfold bind at 1. unfold opcua_connector.update at 1, modify.
    unfold bind at 1. unfold server_call at 1. cbn [env set_opcua].
    destruct (opc_connect_ok (env w)) eqn:Hconn.
    + destruct w as [[nodes client sub handles connected latest callbacks] d u e].
      cbn. eexists. split_and!; [reflexivity|done|done].
    + cbn [is_Exception]. unfold bind.
      match goal with
      | |- context [opcua_connector.disconnect ?w0] =>
          destruct (opcua_disconnect_spec w0) as (sub' & -> & Hsub)
      end.
      destruct w as [[nodes client sub handles connected latest callbacks] d u e].
      cbn in *. exists sub'. rewrite !andb_false_r. cbn.
      split_and!; [reflexivity|done|done].
  - cbn [is_Exception]. unfold bind.
    destruct (opcua_disconnect_spec w) as (sub' & -> & Hsub).
    destruct w as [[nodes client sub handles connected latest callbacks] d u e].
    cbn in *. exists sub'. rewrite andb_true_r.
    split_and!; [reflexivity|done|done].
Qed.

(** ** The protocol connector: subscribing *)

(** What the loop of [subscribe_to_nodes] does with one node: a node the
    server accepts gets a handle, whether its first read succeeds or not;
    a node the server refuses gets none. *)
Lemma subscribe_node_effect (node_info : NodeInfo.t) (w : World) :
  ∃ w',
    opcua_connector.subscribe_node invoke node_info w = (Ok tt, w')
    ∧ OpcUaConnector.handles (opcua_connector w')
      = OpcUaConnector.handles (opcua_connector w)
        ++ (if subscribe_ok (env w) (NodeInfo.id node_info)
            then [NodeInfo.id node_info] else [])
    ∧ OpcUaConnector.nodes_to_monitor (opcua_connector w')
      = OpcUaConnector.nodes_to_monitor (opcua_connector w)
    ∧ OpcUaConnector.subscription (opcua_connector w')
      = OpcUaConnector.subscription (opcua_connector w)
    ∧ OpcUaConnector.client (opcua_connector w')
      = OpcUaConnector.client (opcua_connector w)
    ∧ OpcUaConnector.connected (opcua_connector w')
      = OpcUaConnector.connected (opcua_connector w)
    ∧ subscribe_ok (env w') = subscribe_ok (env w).
Proof.
  unfold opcua_connector.subscribe_node.
  unfold try_except at 1. unfold bind at 1. unfold bind at 1.
  unfold ask at 1.
  destruct (subscribe_ok (env w) (NodeInfo.id node_info)) eqn:Hok.
  2:{ unfold raise. cbn. exists w. rewrite app_nil_r. by split_and!. }
  unfold ret at 1. unfold bind at 1.
  unfold opcua_connector.update at 1, modify.
  set (w1 := set_opcua _ w).
  unfold try_except at 1. unfold bind at 1. unfold bind at 1.
  unfold ask at 1. unfold liftR at 1.
  destruct (node_value (env w1) (NodeInfo.id node_info)) as [raw|err] eqn:Hraw.
  2:{ cbn [is_Exception]. unfold ret. exists w1. subst w1. by split_and!. }
  unfold bind at 1. unfold liftR at 1.
  destruct (opcua_connector.safe_float raw) as [value|err] eqn:Hval.
  2:{ cbn [is_Exception]. unfold ret. exists w1. subst w1. by split_and!. }
  unfold bind at 1. unfold datetime_now at 1.
  unfold bind at 1. unfold opcua_connector.store_latest at 1,
    opcua_connector.update at 1, modify.
  rewrite _notify_callbacks_spec.
  eexists. split; [reflexivity|].
  rewrite listeners_run_opcua, listeners_run_env. subst w1. by split_and!.
Qed.

Lemma subscribe_loop_effect (nodes : list NodeInfo.t) (w : World) :
  ∃ w',
    for_each nodes (opcua_connector.subscribe_node invoke) w = (Ok tt, w')
    ∧ OpcUaConnector.handles (opcua_connector w')
      = OpcUaConnector.handles (opcua_connector w)
        ++ filter (fun id => subscribe_ok (env w) id = true)
             (NodeInfo.id <$> nodes)
    ∧ OpcUaConnector.nodes_to_monitor (opcua_connector w')
      = OpcUaConnector.nodes_to_monitor (opcua_connector w)
    ∧ OpcUaConnector.subscription (opcua_connector w')
      = OpcUaConnector.subscription (opcua_connector w)
    ∧ OpcUaConnector.client (opcua_connector w')
      = OpcUaConnector.client (opcua_connector w)
    ∧ OpcUaConnector.connected (opcua_connector w')
      = OpcUaConnector.connected (opcua_connector w).
Proof.
  revert w. induction nodes as [|n nodes IH]; intros w.
  - exists w. rewrite app_nil_r. by split_and!.
  - cbn [for_each]. unfold bind.
    destruct (subscribe_node_effect n w)
      as (w1 & -> & Hh & Hn & Hs & Hcl & Hco & Hok).
    destruct (IH w1) as (w' & -> & Hh' & Hn' & Hs' & Hcl' & Hco').
    exists w'. split; [done|].
    rewrite Hh', Hh, Hn', Hs', Hcl', Hco', Hok.
    split_and!; try done.
    rewrite fmap_cons, filter_cons, <- app_assoc.
    destruct (subscribe_ok (env w) (NodeInfo.id n)) eqn:E.
    + rewrite decide_True by done. done.
    + rewrite decide_False by (by intros ?). done.
Qed.

(** X1: [disconnect] of the protocol connector never raises, whatever
    the server answers; afterwards there is no client, and the connector
    is not connected unless it claimed to be connected without a client;
    the registry, the handles, the cache, the listeners and the rest of
    the process are as before, and a subscription that was dropped stays
    dropped. *)
Theorem opcua_disconnect_releases_the_client (w : World) :
  let o := opcua_connector w in
  let w' := state_after opcua_connector.disconnect w in
  let o' := opcua_connector w' in
  outcome opcua_connector.disconnect w = Ok tt
  ∧ OpcUaConnector.client o' = false
  ∧ OpcUaConnector.connected o'
    = OpcUaConnector.connected o && negb (OpcUaConnector.client o)
  ∧ (OpcUaConnector.subscription o = false →
     OpcUaConnector.subscription o' = false)
  ∧ OpcUaConnector.nodes_to_monitor o' = OpcUaConnector.nodes_to_monitor o
  ∧ OpcUaConnector.handles o' = OpcUaConnector.handles o
  ∧ OpcUaConnector.latest_values o' = OpcUaConnector.latest_values o
  ∧ OpcUaConnector.value_callbacks o' = OpcUaConnector.value_callbacks o
  ∧ db_connector w' = db_connector w
  ∧ unity_connector w' = unity_connector w
  ∧ env w' = env w.
Proof.
  intros o w' o'. subst o' w'. unfold state_after, outcome.
  destruct (opcua_disconnect_spec w) as (sub' & Heq & Hsub).
  rewrite Heq. cbn. by split_and!.
Qed.

(** X2: [connect] of the protocol connector never raises; it returns
    [True] exactly when the certificates are there and the server accepts
    the session, and then the connector has a client and is connected;
    when it returns [False] the client has been released again.  The
    registry, the handles, the cache and the listeners are as before. *)
Theorem opcua_connect_outcome (w : World) :
  let o := opcua_connector w in
  let ok := certificates_ok (env w) && opc_connect_ok (env w) in
  let w' := state_after opcua_connector.connect w in
  let o' := opcua_connector w' in
  outcome opcua_connector.connect w = Ok ok
  ∧ OpcUaConnector.client o' = ok
  ∧ (ok = true → OpcUaConnector.connected o' = true)
  ∧ (ok = false → OpcUaConnector.connected o = false →
     OpcUaConnector.connected o' = false)
  ∧ (ok = false → certificates_ok (env w) = true →
     OpcUaConnector.connected o' = false)
  ∧ OpcUaConnector.nodes_to_monitor o' = OpcUaConnector.nodes_to_monitor o
  ∧ OpcUaConnector.handles o' = OpcUaConnector.handles o
  ∧ OpcUaConnector.latest_values o' = OpcUaConnector.latest_values o
  ∧ OpcUaConnector.value_callbacks o' = OpcUaConnector.value_callbacks o
  ∧ db_connector w' = db_connector w
  ∧ unity_connector w' = unity_connector w
  ∧ env w' = env w.
Proof.
  intros o ok w' o'. subst o' w'. unfold state_after, outcome.
  destruct (opcua_connect_spec w) as (sub' & Heq & _).
  rewrite Heq. cbn. fold o ok. split_and!; try done.
  - by intros ->.
  - intros -> ->. done.
  - intros -> ->. cbn. by rewrite andb_false_r.
Qed.

(** What [subscribe_to_nodes] does on a connected connector whose server
    creates the subscription. *)
Lemma subscribe_to_nodes_accepted (w : World) :
  OpcUaConnector.connected (opcua_connector w) = true →
  OpcUaConnector.client (opcua_connector w) = true →
  create_subscription_ok (env w) = true →
  ∃ w1,
    opcua_connector.subscribe_to_nodes invoke w = (Ok true, w1)
    ∧ OpcUaConnector.handles (opcua_connector w1)
      = filter (fun id => subscribe_ok (env w) id = true)
          (NodeInfo.id
             <$> OpcUaConnector.nodes_to_monitor (opcua_connector w))
    ∧ OpcUaConnector.subscription (opcua_connector w1) = true
    ∧ OpcUaConnector.connected (opcua_connector w1) = true
    ∧ OpcUaConnector.nodes_to_monitor (opcua_connector w1)
      = OpcUaConnector.nodes_to_monitor (opcua_connector w).
Proof.
  intros Hco Hcl Hcreate.
  unfold opcua_connector.subscribe_to_nodes, bind, opcua_connector.self,
    try_except, server_call, opcua_connector.update, modify, ret.
  rewrite Hco, Hcl. cbn -[for_each opcua_connector.subscribe_node].
  rewrite Hcreate.
  cbn -[for_each opcua_connector.subscribe_node].
  match goal with
  | |- context [for_each ?l ?f ?w0] =>
      destruct (subscribe_loop_effect l w0)
        as (w1 & -> & Hh & Hn & Hs & _ & Hc)
  end.
  exists w1. cbn in *. by rewrite Hh, Hn, Hs, Hc.
Qed.

(** X3: while the connector is connected and the server creates the
    subscription, [subscribe_to_nodes] returns [True] whatever happens to
    the nodes: the handles are those of the nodes the server accepted, in
    the order of the registry, whether their first read succeeded or
    not, and a node the server refused is left out without any error. *)
Theorem subscribe_to_nodes_keeps_the_accepted_nodes (w : World) :
  OpcUaConnector.connected (opcua_connector w) = true →
  OpcUaConnector.client (opcua_connector w) = true →
  create_subscription_ok (env w) = true →
  let w' := state_after (opcua_connector.subscribe_to_nodes invoke) w in
  outcome (opcua_connector.subscribe_to_nodes invoke) w = Ok true
  ∧ OpcUaConnector.handles (opcua_connector w')
    = filter (fun id => subscribe_ok (env w) id = true)
        (NodeInfo.id <$> OpcUaConnector.nodes_to_monitor (opcua_connector w))
  ∧ OpcUaConnector.subscription (opcua_connector w') = true
  ∧ OpcUaConnector.connected (opcua_connector w') = true
  ∧ OpcUaConnector.nodes_to_monitor (opcua_connector w')
    = OpcUaConnector.nodes_to_monitor (opcua_connector w).
Proof.
  intros Hco Hcl Hcreate w'. subst w'.
  destruct (subscribe_to_nodes_accepted w Hco Hcl Hcreate) as (w1 & Heq & H).
  unfold state_after, outcome. by rewrite Heq.
Qed.

Lemma subscribe_to_nodes_keeps_the_accepted_nodes_witness :
  let w := demo_world [cb_listener 1] [] in
  let w' := state_after (opcua_connector.subscribe_to_nodes invoke) w in
  outcome (opcua_connector.subscribe_to_nodes invoke) w = Ok true
  ∧ OpcUaConnector.handles (opcua_connector w')
    = filter (fun id => subscribe_ok (env w) id = true)
        (NodeInfo.id <$> OpcUaConnector.nodes_to_monitor (opcua_connector w))
  ∧ OpcUaConnector.subscription (opcua_connector w') = true
  ∧ OpcUaConnector.connected (opcua_connector w') = true
  ∧ OpcUaConnector.nodes_to_monitor (opcua_connector w')
    = OpcUaConnector.nodes_to_monitor (opcua_connector w).
Proof.
  apply (subscribe_to_nodes_keeps_the_accepted_nodes
           (demo_world [cb_listener 1] [])); reflexivity.
Defined.

(** X4: [subscribe_to_nodes] on a connector that is not connected, or
    has no client, or whose server refuses to create the subscription,
    returns [False] and changes nothing: no node is subscribed, no value
    is read, no listener is called. *)
Theorem subscribe_to_nodes_refused (w : World) :
  OpcUaConnector.connected (opcua_connector w) = false
  ∨ OpcUaConnector.client (opcua_connector w) = false
  ∨ create_subscription_ok (env w) = false →
  opcua_connector.subscribe_to_nodes invoke w = (Ok false, w).
Proof.
  intros H. unfold opcua_connector.subscribe_to_nodes.
  unfold bind at 1. unfold opcua_connector.self at 1.
  destruct (OpcUaConnector.connected (opcua_connector w)) eqn:Hco;
    [|done].
  destruct (OpcUaConnector.client (opcua_connector w)) eqn:Hcl; [|done].
  destruct H as [H|[H|H]]; [done|done|].
  cbn [negb orb]. unfold try_except, bind at 1. unfold server_call at 1.
  by rewrite H.
Qed.

Lemma subscribe_to_nodes_refused_witness :
  opcua_connector.subscribe_to_nodes invoke
    (mkWorld (OpcUaConnector.mk [demo_node] false false [] false [] [])
       None None demo_start_env)
  = (Ok false,
     mkWorld (OpcUaConnector.mk [demo_node] false false [] false [] [])
       None None demo_start_env).
Proof.
  apply (subscribe_to_nodes_refused
           (mkWorld (OpcUaConnector.mk [demo_node] false false [] false [] [])
              None None demo_start_env)).
  left. reflexivity.
Defined.

(** ** Events that are dropped, events that erase *)

(** X5: an event of a node that is not in the registry, and an event
    whose payload is an integer too large for a [float], are dropped: the
    handler returns, nothing is cached and no listener is called. *)
Theorem datachange_notification_drops_the_event (w : World) (node : string)
    (val : PyValue) :
  resolve w node = None
  ∨ (∃ n, val = PyInt n ∧ 2 ^ 1024 - 2 ^ 970 <= Z.abs n) →
  opcua_connector.datachange_notification invoke node val w = (Ok tt, w).
Proof.
  intros [Hnone|(n & -> & Hn)].
  - by apply datachange_notification_unknown.
  - destruct (resolve w node) as [node_info|] eqn:Hres.
    + apply (datachange_notification_rejected invoke node (PyInt n) node_info
               OverflowError); [exact Hres|].
      unfold opcua_connector.safe_float, py_float, int_to_binary64.
      by rewrite (proj2 (Z.leb_le _ _) Hn).
    + by apply datachange_notification_unknown.
Qed.

Lemma datachange_notification_drops_the_event_witness :
  opcua_connector.datachange_notification invoke "ns=2;i=5"
    (PyInt (2 ^ 1024)) (demo_world [cb_listener 1] [])
  = (Ok tt, demo_world [cb_listener 1] []).
Proof.
  apply (datachange_notification_drops_the_event
           (demo_world [cb_listener 1] []) "ns=2;i=5" (PyInt (2 ^ 1024))).
  right. exists (2 ^ 1024). split; [reflexivity|].
  vm_compute. discriminate.
Defined.

(** X6: an event of a monitored node whose payload is no number (a
    text that does not read as a float, [None], a list, ...) is not
    dropped: it replaces the cached value of the tag by [None], in the
    cache of the protocol connector and, through the listeners of the
    gateway, in the persistence cache and in the cache of the HTTP
    surface. *)
Theorem unreadable_payload_erases_the_value (w : World) (node : string)
    (val : PyValue) (node_info : NodeInfo.t) (e : exn) :
  resolve w node = Some node_info →
  py_float val = Raise e →
  is_ValueError_or_TypeError e = true →
  let name := NodeInfo.name node_info in
  let unit := NodeInfo.unit node_info in
  let callbacks := OpcUaConnector.value_callbacks (opcua_connector w) in
  let t_cache := clock (env w) (clock_reads (env w)) in
  let t_listeners := clock (env w) (S (clock_reads (env w))) in
  let w' :=
    state_after (opcua_connector.datachange_notification invoke node val) w in
  dict_get name (OpcUaConnector.latest_values (opcua_connector w'))
  = Some (Sample.mk None unit (IsoString t_cache))
  ∧ (cb_db_update_callback ∈ callbacks → db_connected w = true →
     dict_get name (db_cache w')
     = Some (Sample.mk None unit (Datetime t_listeners)))
  ∧ (cb_on_value_update ∈ callbacks → is_Some (unity_connector w) →
     dict_get name (unity_cache w')
     = Some (Sample.mk None unit (IsoString t_listeners))).
Proof.
  intros Hres Hpy He name unit callbacks t_cache t_listeners w'.
  assert (opcua_connector.safe_float val = Ok None) as Hval.
  { unfold opcua_connector.safe_float. by rewrite Hpy, He. }
  destruct (datachange_notification_effect w node val node_info None Hres Hval)
    as (Ho & _ & Hd & Hu).
  fold name unit callbacks w' in Ho, Hd, Hu. split_and!.
  - rewrite Ho. cbn. apply dict_get_set_eq.
  - intros Hin Hc. unfold db_cache. rewrite Hd.
    rewrite bool_decide_true by done.
    unfold db_connected in Hc.
    destruct (db_connector w) as [d|]; [|done]. cbn.
    rewrite db_updated_current_values, Hc. apply dict_get_set_eq.
  - intros Hin [u Hsome]. unfold unity_cache. rewrite Hu, Hsome.
    rewrite bool_decide_true by done. cbn. apply dict_get_set_eq.
Qed.

Lemma unreadable_payload_erases_the_value_witness :
  let w := demo_world [cb_db_update_callback; cb_on_value_update]
             [("Temp1", Sample.mk (Some demo_value) "C" (Datetime 990))] in
  let w' :=
    state_after
      (opcua_connector.datachange_notification invoke "ns=2;i=5"
         (PyStr "N/A")) w in
  dict_get "Temp1" (OpcUaConnector.latest_values (opcua_connector w'))
  = Some (Sample.mk None "C" (IsoString 1000))
  ∧ (cb_db_update_callback ∈ [cb_db_update_callback; cb_on_value_update] →
     db_connected w = true →
     dict_get "Temp1" (db_cache w')
     = Some (Sample.mk None "C" (Datetime 1001)))
  ∧ (cb_on_value_update ∈ [cb_db_update_callback; cb_on_value_update] →
     is_Some (unity_connector w) →
     dict_get "Temp1" (unity_cache w')
     = Some (Sample.mk None "C" (IsoString 1001))).
Proof.
  apply (unreadable_payload_erases_the_value
           (demo_world [cb_db_update_callback; cb_on_value_update]
              [("Temp1", Sample.mk (Some demo_value) "C" (Datetime 990))])
           "ns=2;i=5" (PyStr "N/A") demo_node ValueError);
    reflexivity.
Defined.

(** ** The storage connector: connecting *)

(** X7: with storage disabled in the configuration, [connect] returns
    [False] and does nothing: no attempt to reach the storage server, no
    worker thread, the connector as it was. *)
Theorem db_connect_disabled (w : World) (d : DbConnector.t) :
  db_connector w = Some d →
  DbConnector.enabled d = Some false →
  db_connector.connect w = (Ok false, w).
Proof.
  intros Hd He. unfold db_connector.connect. unfold_db.
  rewrite Hd. cbn. by rewrite He.
Qed.

Lemma db_connect_disabled_witness :
  let w := mkWorld (demo_opcua [])
             (Some (db_connector.__init__ (Some false) (Some 60)))
             None demo_start_env in
  db_connector.connect w = (Ok false, w).
Proof.
  apply (db_connect_disabled
           (mkWorld (demo_opcua [])
              (Some (db_connector.__init__ (Some false) (Some 60)))
              None demo_start_env)
           (db_connector.__init__ (Some false) (Some 60)));
    reflexivity.
Defined.







(** ** The storage connector: the column mapping *)

Lemma dict_of_rows_snoc (rows : list (string * string)) (row : string * string) :
  db_connector.dict_of_rows (rows ++ [row])
  = <[fst row := snd row]> (db_connector.dict_of_rows rows).
Proof. unfold db_connector.dict_of_rows. by rewrite fold_left_app. Qed.

(** X11: the column mapping built from the rows of [tagnames] gives,
    for a tag, the column of the last row of that tag, and nothing for a
    tag without row: a later row replaces an earlier one. *)
Theorem dict_of_rows_last_row_wins (rows : list (string * string))
    (tag : string) :
  db_connector.dict_of_rows rows !! tag
  = snd <$> last (filter (fun row => fst row = tag) rows).
Proof.
  induction rows as [|row rows IH] using rev_ind; [done|].
  rewrite dict_of_rows_snoc, filter_app, filter_cons, filter_nil.
  destruct (decide (fst row = tag)) as [<-|Hne].
  - by rewrite lookup_insert_eq, last_snoc.
  - rewrite lookup_insert_ne by done. by rewrite app_nil_r.
Qed.

Lemma mapped_items_empty (current_values : PyDict Sample.t) :
  mapped_items current_values ∅ = [].
Proof.
  unfold mapped_items. induction current_values as [|x l IH]; [done|].
  cbn. by rewrite lookup_empty.
Qed.

(** X12: when the query for the column mapping fails, the mapping the
    connector had is lost, not kept: [_load_tag_mappings] returns with an
    empty mapping, and from then on a persistence cycle issues no insert,
    whatever the cache holds. *)
Theorem failed_mapping_query_stops_persistence (w : World)
    (d : DbConnector.t) :
  db_connector w = Some d →
  DbConnector.cursor d = true →
  tagnames (env w) = None →
  let w1 := state_after db_connector._load_tag_mappings w in
  outcome db_connector._load_tag_mappings w = Ok tt
  ∧ db_connector w1 = Some (DbConnector.set_opc_to_db_mapping ∅ d)
  ∧ statements (trace (env (state_after db_connector._log_current_values w1)))
    = statements (trace (env w)).
Proof.
  intros Hd Hcur Htag w1.
  assert (db_connector._load_tag_mappings w
          = (Ok tt,
             set_db_connector (Some (DbConnector.set_opc_to_db_mapping ∅ d))
               (set_env (set_trace (trace (env w) ++ [ESelectTagnames])
                           (env w)) w))) as Heq.
  { unfold db_connector._load_tag_mappings. unfold_db.
    rewrite Hd. cbn. rewrite Hcur. cbn. rewrite Htag. cbn. by rewrite Hd. }
  assert (w1 = snd (db_connector._load_tag_mappings w)) as -> by done.
  unfold outcome. rewrite Heq. cbn [fst snd].
  split_and!; [done|done|].
  rewrite (_log_current_values_statements _
             (DbConnector.set_opc_to_db_mapping ∅ d)) by reflexivity.
  cbn [DbConnector.current_values DbConnector.opc_to_db_mapping
       DbConnector.set_opc_to_db_mapping].
  rewrite mapped_items_empty, bool_decide_true by done.
  rewrite andb_false_r, app_nil_r. cbn.
  rewrite statements_app. cbn. by rewrite app_nil_r.
Qed.

Lemma failed_mapping_query_stops_persistence_witness :
  let d := demo_db [("Temp1", Sample.mk (Some demo_value) "C" (Datetime 990))] in
  let w0 := demo_world []
              [("Temp1", Sample.mk (Some demo_value) "C" (Datetime 990))] in
  let w := set_env (set_tagnames None (env w0)) w0 in
  let w1 := state_after db_connector._load_tag_mappings w in
  outcome db_connector._load_tag_mappings w = Ok tt
  ∧ db_connector w1 = Some (DbConnector.set_opc_to_db_mapping ∅ d)
  ∧ statements (trace (env (state_after db_connector._log_current_values w1)))
    = statements (trace (env w)).
Proof.
  apply (failed_mapping_query_stops_persistence
           (set_env
              (set_tagnames None
                 (env (demo_world []
                         [("Temp1",
                           Sample.mk (Some demo_value) "C" (Datetime 990))])))
              (demo_world []
                 [("Temp1", Sample.mk (Some demo_value) "C" (Datetime 990))]))
           (demo_db
              [("Temp1", Sample.mk (Some demo_value) "C" (Datetime 990))]));
    reflexivity.
Defined.

(** ** The storage connector: disconnecting *)

(** What [disconnect] does when the thread that calls it is not the
    worker thread it would wait for. *)
Lemma db_disconnect_spec (w : World) (d : DbConnector.t) :
  db_connector w = Some d →
  (DbConnector.logging_active d = true →
   DbConnector.logging_thread d ≠ Some (current_thread (env w))) →
  let joined :=
    match DbConnector.logging_thread d with
    | Some th =>
        if DbConnector.logging_active d && bool_decide (th ∈ alive (env w))
        then [EJoin th] else []
    | None => []
    end in
  let closed := if DbConnector.conn d then [EDbClose] else [] in
  db_connector.disconnect w
  = (Ok tt,
     set_db_connector
       (Some (DbConnector.mk (DbConnector.enabled d)
                (DbConnector.log_interval d) false
                (DbConnector.cursor d && negb (DbConnector.conn d))
                (DbConnector.connected d && negb (DbConnector.conn d))
                (DbConnector.current_values d)
                (DbConnector.opc_to_db_mapping d) false
                (DbConnector.logging_thread d)
                (DbConnector.shutdown_event d
                 || DbConnector.logging_active d)))
       (set_env (set_trace (trace (env w) ++ joined ++ closed) (env w)) w)).
Proof.
  intros Hd Hth joined closed. subst joined closed.
  unfold db_connector.disconnect. unfold_db.
  destruct w as [o dd u e]. cbn in Hd. subst dd.
  destruct d as [en li conn cursor connected cv mapping la lt se].
  destruct e as [ck cr cur alv ts c1 c2 c3 c4 sok nv up tn iok cok clok hist
                 lr hok tr].
  cbn in *.
  destruct la; cbn.
  - destruct lt as [th|]; cbn.
    + destruct (bool_decide (th ∈ alv)) eqn:Halive; cbn.
      * destruct (decide (th = cur)) as [->|Hne];
          [by destruct Hth|].
        cbn. destruct conn; cbn;
          [destruct clok; cbn|];
          rewrite ?andb_false_r, ?andb_true_r, ?orb_true_r, ?app_nil_r,
            <- ?app_assoc; reflexivity.
      * destruct conn; cbn;
          [destruct clok; cbn|];
          rewrite ?andb_false_r, ?andb_true_r, ?orb_true_r, ?app_nil_r,
            <- ?app_assoc; reflexivity.
    + destruct conn; cbn;
        [destruct clok; cbn|];
        rewrite ?andb_false_r, ?andb_true_r, ?orb_true_r, ?app_nil_r,
          <- ?app_assoc; reflexivity.
  - destruct conn; cbn;
      [destruct clok; cbn|];
      destruct lt; cbn;
      rewrite ?andb_false_r, ?andb_true_r, ?orb_false_r, ?app_nil_r,
        <- ?app_assoc; reflexivity.
Qed.

(** X13: [disconnect] of the storage connector, called from a thread
    other than the worker thread it waits for, returns: the worker is told
    to stop, the connection is closed even when closing it fails, and the
    connector is left without connection and not connected; the cached
    values and the column mapping survive, no statement is executed, and a
    second [disconnect] does nothing at all. *)
Theorem db_disconnect_closes_the_session (w : World) (d : DbConnector.t) :
  db_connector w = Some d →
  (DbConnector.logging_active d = true →
   DbConnector.logging_thread d ≠ Some (current_thread (env w))) →
  let w' := state_after db_connector.disconnect w in
  outcome db_connector.disconnect w = Ok tt
  ∧ (∃ d', db_connector w' = Some d'
           ∧ DbConnector.conn d' = false
           ∧ DbConnector.logging_active d' = false
           ∧ (DbConnector.conn d = true →
              DbConnector.connected d' = false
              ∧ DbConnector.cursor d' = false)
           ∧ (DbConnector.logging_active d = true →
              DbConnector.shutdown_event d' = true)
           ∧ DbConnector.current_values d' = DbConnector.current_values d
           ∧ DbConnector.opc_to_db_mapping d'
             = DbConnector.opc_to_db_mapping d)
  ∧ statements (trace (env w')) = statements (trace (env w))
  ∧ alive (env w') = alive (env w)
  ∧ db_connector.disconnect w' = (Ok tt, w').
Proof.
  intros Hd Hth w'. subst w'. unfold state_after, outcome.
  rewrite (db_disconnect_spec w d Hd Hth). cbn [fst snd].
  split_and!.
  - done.
  - eexists. split; [reflexivity|]. cbn. split_and!; try done.
    + intros ->. by rewrite !andb_false_r.
    + intros ->. by rewrite orb_true_r.
  - cbn. rewrite !statements_app.
    destruct (DbConnector.logging_thread d) as [th|],
      (DbConnector.conn d); cbn;
      try destruct (DbConnector.logging_active d && bool_decide (th ∈ alive (env w)));
      cbn; by rewrite ?app_nil_r.
  - done.
  - match goal with
    | |- db_connector.disconnect ?w1 = _ =>
        rewrite (db_disconnect_spec w1 _ eq_refl) by (cbn; discriminate)
    end.
    cbn. f_equal. destruct w as [o dd u e].
    destruct e as [ck cr cur alv ts c1 c2 c3 c4 sok nv up tn iok cok clok hist
                   lr hok tr].
    cbn. unfold set_db_connector, set_env, set_trace. cbn.
    rewrite !andb_true_r, orb_false_r.
    destruct (DbConnector.logging_thread d); by rewrite !app_nil_r.
Qed.

Lemma db_disconnect_closes_the_session_witness :
  let d := demo_db [("Temp1", Sample.mk (Some demo_value) "C" (Datetime 990))] in
  let w := demo_world []
             [("Temp1", Sample.mk (Some demo_value) "C" (Datetime 990))] in
  let w' := state_after db_connector.disconnect w in
  outcome db_connector.disconnect w = Ok tt
  ∧ (∃ d', db_connector w' = Some d'
           ∧ DbConnector.conn d' = false
           ∧ DbConnector.logging_active d' = false
           ∧ (DbConnector.conn d = true →
              DbConnector.connected d' = false
              ∧ DbConnector.cursor d' = false)
           ∧ (DbConnector.logging_active d = true →
              DbConnector.shutdown_event d' = true)
           ∧ DbConnector.current_values d' = DbConnector.current_values d
           ∧ DbConnector.opc_to_db_mapping d'
             = DbConnector.opc_to_db_mapping d)
  ∧ statements (trace (env w')) = statements (trace (env w))
  ∧ alive (env w') = alive (env w)
  ∧ db_connector.disconnect w' = (Ok tt, w').
Proof.
  apply (db_disconnect_closes_the_session
           (demo_world []
              [("Temp1", Sample.mk (Some demo_value) "C" (Datetime 990))])
           (demo_db
              [("Temp1", Sample.mk (Some demo_value) "C" (Datetime 990))])).
  - reflexivity.
  - intros _. discriminate.
Defined.

(** ** The storage connector: events and history *)

(** X14: [log_event] does nothing and returns [False] while storage is
    not connected; connected, it executes one insert into [event_log]
    with the three texts, commits, and returns whether both went well; a
    failure is only reported, the connector stays connected and no
    reconnection is attempted. *)
Theorem log_event_outcome (w : World) (d : DbConnector.t)
    (event_type message severity : string) :
  db_connector w = Some d →
  let w' :=
    state_after (db_connector.log_event event_type message severity) w in
  let ok := insert_ok (env w) && commit_ok (env w) in
  (DbConnector.connected d = false →
   db_connector.log_event event_type message severity w = (Ok false, w))
  ∧ (DbConnector.connected d = true →
     DbConnector.cursor d = true →
     DbConnector.conn d = true →
     outcome (db_connector.log_event event_type message severity) w = Ok ok
     ∧ db_connector w' = Some d
     ∧ trace (env w')
       = trace (env w)
         ++ [EExecute
               "INSERT INTO event_log (timestamp, event_type, message, severity) VALUES (NOW(), ?, ?, ?)"
               [SqlText event_type; SqlText message; SqlText severity]]
         ++ (if ok then [ECommit] else [])).
Proof.
  intros Hd w' ok. subst w' ok. split.
  - intros Hc. unfold db_connector.log_event. unfold_db.
    rewrite Hd. cbn. by rewrite Hc.
  - intros Hc Hcur Hconn.
    unfold state_after, outcome, db_connector.log_event. unfold_db.
    rewrite Hd. cbn. rewrite Hc. cbn. rewrite ?Hd. cbn. rewrite Hcur. cbn.
    destruct (insert_ok (env w)) eqn:Hins; cbn; rewrite ?Hd; cbn.
    + rewrite Hconn. cbn.
      destruct (commit_ok (env w)) eqn:Hcom; cbn;
        rewrite <- ?app_assoc, ?app_nil_r; by split_and!.
    + rewrite ?app_nil_r. by split_and!.
Qed.

Lemma log_event_outcome_witness :
  let d := demo_db [] in
  let w := demo_world [] [] in
  let w' :=
    state_after (db_connector.log_event "system" "started" "info") w in
  let ok := insert_ok (env w) && commit_ok (env w) in
  (DbConnector.connected d = false →
   db_connector.log_event "system" "started" "info" w = (Ok false, w))
  ∧ (DbConnector.connected d = true →
     DbConnector.cursor d = true →
     DbConnector.conn d = true →
     outcome (db_connector.log_event "system" "started" "info") w = Ok ok
     ∧ db_connector w' = Some d
     ∧ trace (env w')
       = trace (env w)
         ++ [EExecute
               "INSERT INTO event_log (timestamp, event_type, message, severity) VALUES (NOW(), ?, ?, ?)"
               [SqlText "system"; SqlText "started"; SqlText "info"]]
         ++ (if ok then [ECommit] else [])).
Proof.
  apply (log_event_outcome (demo_world [] []) (demo_db [])
           "system" "started" "info").
  reflexivity.
Defined.

(** X15: the history of a tag that has no column, or whose column is
    the empty text, or asked while storage is not connected, is empty, and
    no query reaches the storage server. *)
Theorem history_without_column_or_connection (w : World)
    (d : DbConnector.t) (tag_name : string) (hours limit : Z) :
  db_connector w = Some d →
  DbConnector.opc_to_db_mapping d !! tag_name = None
  ∨ DbConnector.opc_to_db_mapping d !! tag_name = Some ""
  ∨ DbConnector.connected d = false →
  db_connector.get_tag_history tag_name hours limit w = (Ok [], w).
Proof.
  intros Hd H.
  unfold db_connector.get_tag_history, db_connector.get_field_history.
  unfold_db. rewrite Hd. cbn.
  destruct (DbConnector.opc_to_db_mapping d !! tag_name) as [field|] eqn:Hm;
    [|done].
  destruct (String.eqb field "") eqn:Hf; [done|].
  destruct H as [H|[H|H]]; [done| |].
  - injection H as ->. done.
  - rewrite Hd. cbn. rewrite H. cbn. by rewrite Hd.
Qed.

Lemma history_without_column_or_connection_witness :
  db_connector.get_tag_history "Pressure" 24 1000 (demo_world [] [])
  = (Ok [], demo_world [] []).
Proof.
  apply (history_without_column_or_connection (demo_world [] [])
           (demo_db []) "Pressure" 24 1000).
  - reflexivity.
  - left. reflexivity.
Defined.

(** ** The worker thread at rest *)

Lemma interval_sleep_spec (n : nat) (w : World) (d : DbConnector.t) :
  db_connector w = Some d →
  DbConnector.shutdown_event d = false →
  db_connector.interval_sleep n w
  = (Ok tt,
     set_env (set_trace (trace (env w) ++ replicate n (ESleep 1)) (env w)) w).
Proof.
  revert w. induction n as [|n IH]; intros w Hd Hs.
  - cbn. unfold ret. f_equal. rewrite app_nil_r.
    destruct w as [o dd u e]. by destruct e.
  - cbn [db_connector.interval_sleep]. unfold_db. rewrite Hd, Hs.
    rewrite IH by done. cbn. by rewrite <- app_assoc.
Qed.

(** X16: a turn of the worker that finds storage not connected, or the
    persistence cache empty, only sleeps: as many pauses of one second as
    the interval has seconds, no statement, no attempt to connect, the
    connector as it was. *)
Theorem idle_worker_turn_only_sleeps (w : World) (d : DbConnector.t)
    (interval : Z) :
  db_connector w = Some d →
  DbConnector.shutdown_event d = false →
  DbConnector.connected d = false ∨ DbConnector.current_values d = [] →
  db_connector.worker_turn interval w
  = (Ok tt,
     set_env
       (set_trace (trace (env w) ++ replicate (Z.to_nat interval) (ESleep 1))
          (env w)) w).
Proof.
  intros Hd Hs Hidle. unfold db_connector.worker_turn.
  unfold bind at 1, try_except, bind at 1. unfold db_connector.self at 1.
  rewrite Hd.
  assert (DbConnector.connected d
          && negb (dict_is_empty (DbConnector.current_values d)) = false)
    as ->.
  { destruct Hidle as [->| ->]; [done | apply andb_false_r]. }
  unfold ret at 1. by apply (interval_sleep_spec _ _ d).
Qed.

Lemma idle_worker_turn_only_sleeps_witness :
  let w := as_thread (LoggingThread 0) (demo_world [] []) in
  db_connector.worker_turn 2 w
  = (Ok tt,
     set_env
       (set_trace (trace (env w) ++ replicate (Z.to_nat 2) (ESleep 1))
          (env w)) w).
Proof.
  apply (idle_worker_turn_only_sleeps
           (as_thread (LoggingThread 0) (demo_world [] [])) (demo_db []) 2).
  - reflexivity.
  - reflexivity.
  - right. reflexivity.
Defined.

(** ** The HTTP surface *)

(** X17: what [on_value_update] stores for a name is what [get_value]
    serves for it, with the status 200 and the timestamp as text; the
    answers for the other names are as before, [get_all_values] shows the
    whole cache, and serving a value changes nothing. *)
Theorem value_served_as_last_updated (w : World) (u : UnityConnector.t)
    (name : string) (value : option binary64) (unit : string)
    (timestamp : PyTime) :
  unity_connector w = Some u →
  let sample := Sample.mk value unit (isoformat_or_str timestamp) in
  let w1 :=
    state_after (unity_connector.on_value_update name value unit timestamp)
      w in
  outcome (unity_connector.on_value_update name value unit timestamp) w
  = Ok tt
  ∧ unity_connector.get_value name w1
    = (Ok (unity_connector.response (unity_connector.JSample sample) 200),
       w1)
  ∧ (∀ other, other ≠ name →
       outcome (unity_connector.get_value other) w1
       = outcome (unity_connector.get_value other) w)
  ∧ unity_connector.get_all_values w1
    = (Ok (unity_connector.response
             (unity_connector.JDict
                (dict_set name sample (UnityConnector.latest_values u)))
             200), w1).
Proof.
  intros Hu sample w1. subst w1 sample.
  unfold state_after, outcome, unity_connector.on_value_update,
    unity_connector.get_value, unity_connector.get_all_values,
    unity_connector.update, unity_connector.self, bind, ret.
  rewrite Hu. cbn. rewrite dict_get_set_eq. split_and!; try done.
  intros other Hne. rewrite dict_get_set_ne by congruence.
  by destruct (dict_get other (UnityConnector.latest_values u)).
Qed.

Lemma value_served_as_last_updated_witness :
  let w := demo_world [] [] in
  let sample := Sample.mk (Some demo_value) "C" (isoformat_or_str (Datetime 7)) in
  let w1 :=
    state_after
      (unity_connector.on_value_update "Temp1" (Some demo_value) "C"
         (Datetime 7)) w in
  outcome (unity_connector.on_value_update "Temp1" (Some demo_value) "C"
             (Datetime 7)) w
  = Ok tt
  ∧ unity_connector.get_value "Temp1" w1
    = (Ok (unity_connector.response (unity_connector.JSample sample) 200),
       w1)
  ∧ (∀ other, other ≠ "Temp1" →
       outcome (unity_connector.get_value other) w1
       = outcome (unity_connector.get_value other) w)
  ∧ unity_connector.get_all_values w1
    = (Ok (unity_connector.response
             (unity_connector.JDict
                (dict_set "Temp1" sample
                   (UnityConnector.latest_values demo_unity)))
             200), w1).
Proof.
  apply (value_served_as_last_updated (demo_world [] []) demo_unity
           "Temp1" (Some demo_value) "C" (Datetime 7)).
  reflexivity.
Defined.

(** X18: [start] registers [on_value_update] with the protocol
    connector before it creates the HTTP server: it returns whether the
    server could be created, and when it could not the surface is marked
    as not running but its listener stays registered, after the listeners
    that were there. *)
Theorem unity_start_registers_first (w : World) (u : UnityConnector.t) :
  unity_connector w = Some u →
  let ok := http_server_ok (env w) in
  unity_connector.start w
  = (Ok ok,
     set_unity_connector (Some (UnityConnector.set_running ok u))
       (set_opcua
          (OpcUaConnector.set_value_callbacks
             (OpcUaConnector.value_callbacks (opcua_connector w)
              ++ [cb_on_value_update]) (opcua_connector w)) w)).
Proof.
  intros Hu ok. subst ok.
  unfold unity_connector.start, unity_connector.stop,
    opcua_connector.add_value_callback, opcua_connector.update,
    unity_connector.update, try_except, bind, modify, server_call, ret.
  cbn. destruct (http_server_ok (env w)); cbn; by rewrite Hu.
Qed.

Lemma unity_start_registers_first_witness :
  let w := demo_world [cb_db_update_callback] [] in
  let ok := http_server_ok (env w) in
  unity_connector.start w
  = (Ok ok,
     set_unity_connector (Some (UnityConnector.set_running ok demo_unity))
       (set_opcua
          (OpcUaConnector.set_value_callbacks
             (OpcUaConnector.value_callbacks (opcua_connector w)
              ++ [cb_on_value_update]) (opcua_connector w)) w)).
Proof.
  apply (unity_start_registers_first (demo_world [cb_db_update_callback] [])
           demo_unity).
  reflexivity.
Defined.

(** ** The caches and the registry *)

Lemma keys_dict_set_subseteq {V} (k : string) (v : V) (d : PyDict V)
    (names : list string) :
  k ∈ names → keys d ⊆ names → keys (dict_set k v d) ⊆ names.
Proof.
  intros Hk Hd. rewrite keys_dict_set. destruct (dict_mem k d); [done|].
  intros x [Hx|Hx%list_elem_of_singleton]%elem_of_app; [by apply Hd|].
  by subst.
Qed.

Lemma resolve_registry_name (w : World) (node : string)
    (node_info : NodeInfo.t) :
  resolve w node = Some node_info →
  NodeInfo.name node_info ∈ registry_names w.
Proof.
  unfold resolve, registry_names. intros [Hin _]%find_some.
  apply list_elem_of_fmap. exists node_info. split; [done|].
  by apply list_elem_of_In.
Qed.

(** An event keeps the caches within the registry. *)
Lemma datachange_within_registry (node : string) (val : PyValue) (w : World) :
  caches_within_registry w →
  caches_within_registry
    (state_after (opcua_connector.datachange_notification invoke node val) w).
Proof.
  intros (Hsome & Hnu & Hsu & Hnd & Hsd).
  destruct (resolve w node) as [node_info|] eqn:Hres.
  2:{ unfold state_after.
      rewrite (datachange_notification_unknown invoke node val w Hres).
      by split_and!. }
  destruct (opcua_connector.safe_float val) as [value|e] eqn:Hval.
  2:{ unfold state_after.
      rewrite (datachange_notification_rejected invoke node val node_info e w
                 Hres Hval).
      by split_and!. }
  pose proof (resolve_registry_name w node node_info Hres) as Hname.
  destruct (datachange_notification_effect w node val node_info value
              Hres Hval) as (Ho & _ & Hd & Hu).
  cbv zeta in Ho, Hd, Hu.
  unfold caches_within_registry, registry_names, unity_cache, db_cache.
  rewrite Ho, Hd, Hu. cbn [OpcUaConnector.nodes_to_monitor
                            OpcUaConnector.set_latest_values].
  fold (registry_names w).
  unfold unity_cache, db_cache in *.
  destruct Hsome as [u Hsome]. rewrite Hsome in *.
  split_and!.
  - destruct (bool_decide (cb_on_value_update ∈ _)); cbn; by eexists.
  - destruct (bool_decide (cb_on_value_update ∈ _)); cbn; [|done].
    by apply NoDup_keys_dict_set.
  - destruct (bool_decide (cb_on_value_update ∈ _)); cbn; [|done].
    by apply keys_dict_set_subseteq.
  - destruct (bool_decide (cb_db_update_callback ∈ _)); [|done].
    destruct (db_connector w) as [d|]; cbn; [|done].
    rewrite db_updated_current_values.
    destruct (DbConnector.connected d); [|done]. by apply NoDup_keys_dict_set.
  - destruct (bool_decide (cb_db_update_callback ∈ _)); [|done].
    destruct (db_connector w) as [d|]; cbn; [|done].
    rewrite db_updated_current_values.
    destruct (DbConnector.connected d); [|done].
    by apply keys_dict_set_subseteq.
Qed.

Lemma perform_within_registry (a : Activity) (w : World) :
  caches_within_registry w →
  caches_within_registry (state_after (perform a) w).
Proof.
  intros Hwf.
  assert ((∀ node val, a ≠ DataChange node val) →
          caches_within_registry (state_after (perform a) w)) as Hother.
  { intros Hne. destruct (perform_same_caches a w Hne) as (Hn & Hd & Hu & Hs).
    destruct Hwf as (Hsome & Hnu & Hsu & Hnd & Hsd).
    unfold caches_within_registry, registry_names. rewrite Hn, Hd, Hu.
    split_and!; auto. }
  destruct a as [node val|th interval|name|name hours_arg];
    try (by apply Hother).
  by apply datachange_within_registry.
Qed.

Lemma perform_all_within_registry (activities : list Activity) (w : World) :
  caches_within_registry w →
  caches_within_registry (state_after (perform_all activities) w).
Proof.
  revert w. induction activities as [|a activities IH]; intros w Hwf.
  - exact Hwf.
  - pose proof (perform_within_registry a w Hwf) as Ha.
    specialize (IH (state_after (perform a) w) Ha).
    unfold perform_all in *. cbn [for_each]. unfold state_after, bind in *.
    destruct (perform a w) as [[[]|e] w1]; cbn in *; [exact IH | exact Ha].
Qed.

(** X19: in every state the gateway reaches once it serves, the status
    route answers, and the number of values it reports is at most the
    number of monitored nodes: the cache of the HTTP surface holds one
    entry a tag at most, for tags of the registry only.  The route reads
    the clock once and changes nothing else. *)
Theorem status_counts_within_registry
    (config : opcua_connector.ConfigParser) (e : Env)
    (database_enabled : option bool) (log_interval : option Z)
    (w0 w' : World) (activities : list Activity) :
  process_start config e = inr w0 →
  main database_enabled log_interval w0 = (Ok Serving, w') →
  let w := state_after (perform_all activities) w' in
  ∃ st,
    get_status w = (Ok st, clock_read w)
    ∧ (values_count st ≤ nodes_monitoring st)%nat
    ∧ nodes_monitoring st
      = length (OpcUaConnector.nodes_to_monitor (opcua_connector w))
    ∧ opcua_connected st = OpcUaConnector.connected (opcua_connector w)
    ∧ server_time st = IsoString (next_instant w).
Proof.
  intros Hstart Hmain w.
  destruct (process_start_fresh config e w0 Hstart) as (Hcb & Hdb & Hun).
  destruct (main_serving database_enabled log_interval w0 w' Hcb Hdb Hun Hmain)
    as (Hdc & Huc & Hsome).
  assert (caches_within_registry w') as Hwf'.
  { unfold caches_within_registry. rewrite Hdc, Huc. cbn.
    split_and!; [done|constructor|set_solver|constructor|set_solver]. }
  pose proof (perform_all_within_registry activities w' Hwf')
    as ([u Hu] & Hnu & Hsu & _ & _).
  fold w in Hu, Hnu, Hsu.
  unfold get_status, unity_connector.self, opcua_connector.self, bind,
    datetime_now, ret. rewrite Hu. cbn.
  eexists. split; [reflexivity|]. cbn. split_and!; try done.
  unfold unity_cache in Hnu, Hsu. rewrite Hu in Hnu, Hsu.
  unfold keys, registry_names in *.
  rewrite <- (length_fmap fst (UnityConnector.latest_values u)),
    <- (length_fmap NodeInfo.name
          (OpcUaConnector.nodes_to_monitor (opcua_connector w))).
  apply submseteq_length, NoDup_submseteq; done.
Qed.

Lemma status_counts_within_registry_witness :
  let w0 := mkWorld (OpcUaConnector.mk [demo_node] false false [] false [] [])
              None None demo_start_env in
  let w' := state_after (main (Some true) (Some 2)) w0 in
  let w :=
    state_after
      (perform_all [DataChange "ns=2;i=5" (PyStr "1.5");
                    DataChange "ns=2;i=5" (PyStr "2.5");
                    WorkerTurn (LoggingThread 0) 2]) w' in
  ∃ st,
    get_status w = (Ok st, clock_read w)
    ∧ (values_count st ≤ nodes_monitoring st)%nat
    ∧ nodes_monitoring st
      = length (OpcUaConnector.nodes_to_monitor (opcua_connector w))
    ∧ opcua_connected st = OpcUaConnector.connected (opcua_connector w)
    ∧ server_time st = IsoString (next_instant w).
Proof.
  apply (status_counts_within_registry demo_config demo_start_env
           (Some true) (Some 2)
           (mkWorld (OpcUaConnector.mk [demo_node] false false [] false [] [])
              None None demo_start_env)
           (state_after (main (Some true) (Some 2))
              (mkWorld
                 (OpcUaConnector.mk [demo_node] false false [] false [] [])
                 None None demo_start_env))
           [DataChange "ns=2;i=5" (PyStr "1.5");
            DataChange "ns=2;i=5" (PyStr "2.5");
            WorkerTurn (LoggingThread 0) 2]).
  - vm_compute. reflexivity.
  - vm_compute. reflexivity.
Defined.

(** ** Startup *)

(** The process as [main] finds it. *)
Lemma process_start_shape (config : opcua_connector.ConfigParser) (e : Env)
    (w0 : World) :
  process_start config e = inr w0 →
  ∃ nodes,
    w0 = mkWorld (OpcUaConnector.mk nodes false false [] false [] [])
           None None e.
Proof.
  unfold process_start, opcua_connector.__init__. intros H.
  repeat match type of H with
         | context [match ?x with _ => _ end] =>
             lazymatch x with
             | context [match _ with _ => _ end] => fail
             | _ => destruct x; try discriminate
             end
         end.
  injection H as <-. by eexists.
Qed.

(** X20: when the certificates are missing, or the OPC-UA server
    refuses the session, or it refuses to create the subscription, [main]
    returns 1 and leaves the process as it found it: the client is
    released again, no node is subscribed, no value is read, and neither
    the storage connector nor the HTTP surface is created. *)
Theorem main_gives_up_without_opcua
    (config : opcua_connector.ConfigParser) (e : Env)
    (database_enabled : option bool) (log_interval : option Z) (w0 : World) :
  process_start config e = inr w0 →
  certificates_ok e && opc_connect_ok e && create_subscription_ok e = false →
  main database_enabled log_interval w0 = (Ok (Exit 1), w0).
Proof.
  intros [nodes ->]%process_start_shape Hflags.
  unfold main, opcua_connector.connect, opcua_connector.subscribe_to_nodes,
    opcua_connector.disconnect, opcua_connector.update,
    opcua_connector.self, try_except, try_finally, bind, server_call,
    modify, ret.
  cbn -[for_each].
  destruct (certificates_ok e) eqn:Hc; cbn -[for_each]; [|done].
  destruct (opc_connect_ok e) eqn:Ho; cbn -[for_each].
  - cbn in Hflags. rewrite Hflags. cbn.
    by destruct (opc_disconnect_ok e).
  - by destruct (opc_disconnect_ok e).
Qed.

Lemma main_gives_up_without_opcua_witness :
  let e := mkEnv (fun n => 1000 + Z.of_nat n) 0 MainThread [] 0
             true false true true (fun _ => true) (fun _ => Ok PyNone)
             true None true true true (fun _ _ _ => None) (fun _ => None)
             true [] in
  let w0 := mkWorld (OpcUaConnector.mk [demo_node] false false [] false [] [])
              None None e in
  main (Some true) (Some 60) w0 = (Ok (Exit 1), w0).
Proof.
  apply (main_gives_up_without_opcua demo_config
           (mkEnv (fun n => 1000 + Z.of_nat n) 0 MainThread [] 0
              true false true true (fun _ => true) (fun _ => Ok PyNone)
              true None true true true (fun _ _ _ => None) (fun _ => None)
              true [])
           (Some true) (Some 60)).
  - vm_compute. reflexivity.
  - reflexivity.
Defined.

(** ** Storage that is down at startup *)

Lemma connects_app (tr1 tr2 : list Effect) :
  connects (tr1 ++ tr2) = (connects tr1 + connects tr2)%nat.
Proof. unfold connects. by rewrite omap_app, length_app. Qed.

Global Instance no_connection_attempt_reflexive :
  Reflexive no_connection_attempt.
Proof. by intros w. Qed.
Global Instance no_connection_attempt_transitive :
  Transitive no_connection_attempt.
Proof.
  intros w1 w2 w3 H12 H23. unfold no_connection_attempt in *. by etrans.
Qed.

Lemma untouched_trace_no_connection_attempt {A} (m : M A) :
  (∀ w, trace (env (state_after m w)) = trace (env w)) →
  keeps no_connection_attempt m.
Proof. intros Hm w. unfold no_connection_attempt. by rewrite Hm. Qed.

Lemma emit_no_connection_attempt (ef : Effect) :
  ef ≠ EDbConnect → keeps no_connection_attempt (emit ef).
Proof.
  intros Hef w. unfold no_connection_attempt, state_after, emit, modify.
  cbn [snd env set_env trace set_trace]. rewrite connects_app.
  destruct ef; cbn; try lia. done.
Qed.

Lemma db_self_no_connection_attempt :
  keeps no_connection_attempt db_connector.self.
Proof.
  apply untouched_trace_no_connection_attempt. intros w.
  unfold state_after, db_connector.self. by destruct (db_connector w).
Qed.

Lemma db_update_no_connection_attempt (f : DbConnector.t → DbConnector.t) :
  keeps no_connection_attempt (db_connector.update f).
Proof.
  apply untouched_trace_no_connection_attempt. intros w.
  unfold state_after, db_connector.update. by destruct (db_connector w).
Qed.

Lemma unity_self_no_connection_attempt :
  keeps no_connection_attempt unity_connector.self.
Proof.
  apply untouched_trace_no_connection_attempt. intros w.
  unfold state_after, unity_connector.self. by destruct (unity_connector w).
Qed.

Lemma unity_update_no_connection_attempt
    (f : UnityConnector.t → UnityConnector.t) :
  keeps no_connection_attempt (unity_connector.update f).
Proof.
  apply untouched_trace_no_connection_attempt. intros w.
  unfold state_after, unity_connector.update.
  by destruct (unity_connector w).
Qed.

Ltac no_connection_attempt_auto :=
  repeat first
    [ apply db_self_no_connection_attempt
    | apply db_update_no_connection_attempt
    | apply unity_self_no_connection_attempt
    | apply unity_update_no_connection_attempt
    | apply emit_no_connection_attempt; discriminate
    | match goal with
      | |- keeps _ (opcua_connector.update _) =>
          apply untouched_trace_no_connection_attempt; intros ?; done
      | |- keeps _ opcua_connector.self =>
          apply untouched_trace_no_connection_attempt; intros ?; done
      | |- keeps _ datetime_now =>
          apply untouched_trace_no_connection_attempt; intros ?; done
      | |- keeps _ (time_sleep _) =>
          apply emit_no_connection_attempt; discriminate
      end
    | keeps_step
    | match goal with
      | |- keeps _ (match ?x with _ => _ end) => destruct x
      end ].

Lemma interval_sleep_no_connection_attempt n :
  keeps no_connection_attempt (db_connector.interval_sleep n).
Proof. induction n as [|n IH]; cbn; no_connection_attempt_auto. Qed.

Lemma datachange_notification_no_connection_attempt node val :
  keeps no_connection_attempt
    (opcua_connector.datachange_notification invoke node val).
Proof.
  assert (∀ callback name value unit timestamp,
            keeps no_connection_attempt
              (invoke callback name value unit timestamp)) as Hinvoke.
  { intros []; intros; unfold invoke, db_update_callback,
      unity_connector.on_value_update, db_connector.update_value;
      no_connection_attempt_auto. }
  unfold opcua_connector.datachange_notification,
    opcua_connector._notify_callbacks, opcua_connector.store_latest.
  no_connection_attempt_auto.
Qed.

Lemma get_value_no_connection_attempt name :
  keeps no_connection_attempt (unity_connector.get_value name).
Proof. unfold unity_connector.get_value. no_connection_attempt_auto. Qed.

Lemma get_history_no_connection_attempt name hours_arg :
  keeps no_connection_attempt (unity_connector.get_history name hours_arg).
Proof.
  unfold unity_connector.get_history, db_connector.get_tag_history,
    db_connector.get_field_history.
  no_connection_attempt_auto.
Qed.

Lemma worker_turn_no_connection_attempt interval w :
  db_connected w = false →
  no_connection_attempt w
    (state_after (db_connector.worker_turn interval) w).
Proof.
  intros Hc. unfold db_connector.worker_turn, state_after, bind at 1.
  match goal with
  | |- no_connection_attempt _ (snd (let (_, _) := ?m w in _)) =>
      assert (∃ r, m w = (r, w)) as [r ->]
  end.
  { unfold try_except, bind, db_connector.self, db_connected in *.
    destruct (db_connector w) as [d|]; cbn; [|by eexists].
    rewrite Hc. cbn. by eexists. }
  pose proof (interval_sleep_no_connection_attempt (Z.to_nat interval) w)
    as Hs.
  unfold state_after in Hs. destruct r as [[]|e]; cbn; [exact Hs | done].
Qed.

(** While storage is not connected nothing connects it, and nothing
    tries to. *)
Lemma perform_while_disconnected (a : Activity) (w : World) :
  db_connected w = false →
  db_connected (state_after (perform a) w) = false
  ∧ no_connection_attempt w (state_after (perform a) w).
Proof.
  intros Hc. split; [by apply perform_stays_disconnected|].
  pose proof get_value_no_connection_attempt.
  pose proof get_history_no_connection_attempt.
  destruct a as [node val|th interval|name|name hours_arg].
  - apply datachange_notification_no_connection_attempt.
  - unfold perform, state_after.
    apply (worker_turn_no_connection_attempt interval (as_thread th w)).
    exact Hc.
  - assert (keeps no_connection_attempt (perform (ValueRequest name))) as Hk
      by (unfold perform; no_connection_attempt_auto).
    apply Hk.
  - assert (keeps no_connection_attempt
              (perform (HistoryRequest name hours_arg))) as Hk
      by (unfold perform; no_connection_attempt_auto).
    apply Hk.
Qed.

Lemma perform_all_while_disconnected (activities : list Activity) (w : World) :
  db_connected w = false →
  db_connected (state_after (perform_all activities) w) = false
  ∧ no_connection_attempt w (state_after (perform_all activities) w).
Proof.
  revert w. induction activities as [|a activities IH]; intros w Hc.
  - by split.
  - destruct (perform_while_disconnected a w Hc) as [Hc1 Hn1].
    destruct (IH (state_after (perform a) w) Hc1) as [Hc2 Hn2].
    unfold perform_all in *. cbn [for_each]. unfold state_after, bind in *.
    destruct (perform a w) as [[[]|e] w1]; cbn in *.
    + split; [done | by etrans].
    + by split.
Qed.

(** What a history request gets while storage is not connected. *)
Lemma get_history_unavailable (w : World) (u : UnityConnector.t)
    (name : string) (hours_arg : option Z) :
  unity_connector w = Some u →
  (UnityConnector.db u = true → is_Some (db_connector w)) →
  db_connected w = false →
  unity_connector.get_history name hours_arg w
  = (Ok (unity_connector.response
           (unity_connector.JError "Database not available") 503), w).
Proof.
  intros Hu Hdb Hc.
  unfold unity_connector.get_history, unity_connector.self,
    db_connector.self, bind, ret. rewrite Hu.
  destruct (UnityConnector.db u); cbn; [|done].
  destruct (Hdb eq_refl) as [d Hd]. unfold db_connected in Hc.
  rewrite Hd in *. by rewrite Hc.
Qed.

(** X21: storage that is not connected when [main] reaches its serving
    loop (disabled, or unreachable at startup) is never connected
    afterwards: whatever events, worker turns and requests follow, no
    attempt to connect is made, and every history request is answered
    with the status 503, the state unchanged. *)
Theorem storage_down_at_startup_is_never_retried
    (config : opcua_connector.ConfigParser) (e : Env)
    (database_enabled : option bool) (log_interval : option Z)
    (w0 w' : World) (activities : list Activity) (name : string)
    (hours_arg : option Z) :
  process_start config e = inr w0 →
  main database_enabled log_interval w0 = (Ok Serving, w') →
  db_connected w' = false →
  let w := state_after (perform_all activities) w' in
  db_connected w = false
  ∧ connects (trace (env w)) = connects (trace (env w'))
  ∧ unity_connector.get_history name hours_arg w
    = (Ok (unity_connector.response
             (unity_connector.JError "Database not available") 503), w).
Proof.
  intros Hstart Hmain Hc w.
  destruct (process_start_fresh config e w0 Hstart) as (Hcb & Hdb & Hun).
  destruct (perform_all_while_disconnected activities w' Hc) as [Hc' Hn].
  fold w in Hc', Hn. split_and!; [done|done|].
  pose proof (served_gateway_wf database_enabled log_interval w0 w'
                activities Hdb Hmain) as [_ Ha].
  fold w in Ha.
  destruct (main_serving database_enabled log_interval w0 w' Hcb Hdb Hun Hmain)
    as (_ & _ & Hsome).
  assert (is_Some (unity_connector w)) as [u Hu].
  { assert (keeps link_kept (perform_all activities)) as Hk
      by (apply keeps_for_each; [apply _|apply _|apply perform_link_kept]).
    destruct (Hk w') as [_ Hflag]. fold w in Hflag.
    apply (fmap_is_Some UnityConnector.db). rewrite Hflag.
    by apply fmap_is_Some. }
  destruct (Ha u Hu) as [H1 _].
  by apply (get_history_unavailable w u).
Qed.

Lemma storage_down_at_startup_is_never_retried_witness :
  let w0 := mkWorld (OpcUaConnector.mk [demo_node] false false [] false [] [])
              None None demo_storage_down_env in
  let w' := state_after (main (Some true) (Some 2)) w0 in
  let w :=
    state_after
      (perform_all [DataChange "ns=2;i=5" (PyStr "1.5");
                    WorkerTurn (LoggingThread 0) 2;
                    HistoryRequest "Temp1" None]) w' in
  db_connected w = false
  ∧ connects (trace (env w)) = connects (trace (env w'))
  ∧ unity_connector.get_history "Temp1" None w
    = (Ok (unity_connector.response
             (unity_connector.JError "Database not available") 503), w).
Proof.
  apply (storage_down_at_startup_is_never_retried demo_config
           demo_storage_down_env (Some true) (Some 2)
           (mkWorld (OpcUaConnector.mk [demo_node] false false [] false [] [])
              None None demo_storage_down_env)
           (state_after (main (Some true) (Some 2))
              (mkWorld
                 (OpcUaConnector.mk [demo_node] false false [] false [] [])
                 None None demo_storage_down_env))
           [DataChange "ns=2;i=5" (PyStr "1.5");
            WorkerTurn (LoggingThread 0) 2;
            HistoryRequest "Temp1" None]
           "Temp1" None).
  - vm_compute. reflexivity.
  - vm_compute. reflexivity.
  - vm_compute. reflexivity.
Defined.

(** ** The end of the process *)

Lemma log_event_connected (w : World) (d : DbConnector.t)
    (event_type message severity : string) :
  db_connector w = Some d →
  DbConnector.connected d = true →
  DbConnector.cursor d = true →
  DbConnector.conn d = true →
  let ok := insert_ok (env w) && commit_ok (env w) in
  db_connector.log_event event_type message severity w
  = (Ok ok,
     set_env
       (set_trace
          (trace (env w)
           ++ [EExecute
                 "INSERT INTO event_log (timestamp, event_type, message, severity) VALUES (NOW(), ?, ?, ?)"
                 [SqlText event_type; SqlText message; SqlText severity]]
           ++ (if ok then [ECommit] else []))
          (env w)) w).
Proof.
  intros Hd Hc Hcur Hconn ok. subst ok.
  unfold db_connector.log_event. unfold_db.
  rewrite Hd. cbn. rewrite Hc. cbn. rewrite ?Hd. cbn. rewrite Hcur. cbn.
  destruct (insert_ok (env w)) eqn:Hins; cbn; rewrite ?Hd; cbn.
  - rewrite Hconn. cbn.
    destruct (commit_ok (env w)) eqn:Hcom; cbn;
      by rewrite <- ?app_assoc, ?app_nil_r.
  - done.
Qed.

(** The storage part of the handler and of the [finally] block. *)
Lemma db_disconnect_post (w : World) (d : DbConnector.t) :
  db_connector w = Some d →
  session_wf w →
  DbConnector.logging_thread d ≠ Some (current_thread (env w)) →
  ∃ w1,
    db_connector.disconnect w = (Ok tt, w1)
    ∧ opcua_connector w1 = opcua_connector w
    ∧ unity_connector w1 = unity_connector w
    ∧ db_connected w1 = false
    ∧ (∃ d1, db_connector w1 = Some d1
             ∧ DbConnector.logging_thread d1 = DbConnector.logging_thread d)
    ∧ current_thread (env w1) = current_thread (env w)
    ∧ statements (trace (env w1)) = statements (trace (env w)).
Proof.
  intros Hd Hwf Hth.
  rewrite (db_disconnect_spec w d Hd (fun _ => Hth)).
  eexists. split; [reflexivity|]. unfold db_connected. cbn.
  split_and!; try done.
  - destruct (DbConnector.connected d) eqn:Hc; [|done].
    destruct (Hwf d Hd Hc) as [-> _]. done.
  - by eexists.
  - rewrite !statements_app.
    destruct (DbConnector.logging_thread d) as [th|],
      (DbConnector.conn d); cbn;
      try destruct (DbConnector.logging_active d
                    && bool_decide (th ∈ alive (env w)));
      cbn; by rewrite ?app_nil_r.
Qed.

(** What the [finally] block of [main] does. *)
Lemma main_finally_post (w : World) :
  serving_wf w →
  ∃ w2,
    main_finally w = (Ok tt, w2)
    ∧ all_closed w2
    ∧ statements (trace (env w2))
      = statements (trace (env w))
        ++ (if db_connected w then [stop_event] else []).
Proof.
  intros ([u Hu] & Hcl & Hwf & Hth).
  unfold main_finally. unfold bind at 1. unfold bind at 1, get_world at 1.
  rewrite Hu. unfold unity_connector.stop, unity_connector.update at 1.
  rewrite Hu. set (w1 := set_unity_connector _ w).
  unfold bind at 1.
  destruct (opcua_disconnect_spec w1) as (sub & -> & _).
  set (w2 := set_opcua _ w1).
  assert (OpcUaConnector.client (opcua_connector w2) = false
          ∧ OpcUaConnector.connected (opcua_connector w2) = false
          ∧ (UnityConnector.running <$> unity_connector w2) = Some false)
    as (Hcl2 & Hco2 & Hrun2).
  { subst w2 w1. cbn. split_and!; try done.
    destruct (OpcUaConnector.connected (opcua_connector w)) eqn:Hc; [|done].
    by rewrite (Hcl eq_refl). }
  unfold bind at 1, get_world at 1.
  change (db_connector w2) with (db_connector w).
  change (db_connected w) with
    (match db_connector w with
     | Some d => DbConnector.connected d | None => false end).
  destruct (db_connector w) as [d|] eqn:Hd.
  2:{ exists w2. rewrite app_nil_r. unfold all_closed, db_connected.
      change (db_connector w2) with (db_connector w). rewrite Hd.
      by split_and!. }
  destruct (DbConnector.connected d) eqn:Hc.
  2:{ exists w2. rewrite app_nil_r. unfold all_closed, db_connected.
      change (db_connector w2) with (db_connector w). rewrite Hd, Hc.
      by split_and!. }
  destruct (Hwf d Hd Hc) as [Hconn Hcur].
  unfold bind at 1.
  rewrite (log_event_connected w2 d) by done.
  set (w3 := set_env _ w2).
  assert (session_wf w3) as Hwf3.
  { intros d' Hd'. apply Hwf. exact Hd'. }
  destruct (db_disconnect_post w3 d Hd Hwf3 (Hth d eq_refl))
    as (w4 & -> & Ho4 & Hu4 & Hc4 & _ & _ & Hst4).
  exists w4. unfold all_closed. rewrite Ho4, Hu4, Hc4, Hst4.
  split_and!; try done.
  subst w3. cbn [env set_env trace set_trace]. rewrite !statements_app.
  change (trace (env w2)) with (trace (env w)).
  destruct (insert_ok (env w2) && commit_ok (env w2)); cbn;
    by rewrite ?app_nil_r.
Qed.

(** What [signal_handler] does before it exits. *)
Lemma signal_handler_post (w : World) :
  serving_wf w →
  ∃ w1,
    signal_handler w = (Ok tt, w1)
    ∧ serving_wf w1
    ∧ db_connected w1 = false
    ∧ statements (trace (env w1)) = statements (trace (env w)).
Proof.
  intros ([u Hu] & Hcl & Hwf & Hth).
  unfold signal_handler. unfold bind at 1. unfold bind at 1, get_world at 1.
  rewrite Hu.
  assert (∃ u1,
            (if UnityConnector.running u then unity_connector.stop
             else ret ()) w
            = (Ok tt, set_unity_connector (Some u1) w)) as [u1 ->].
  { destruct (UnityConnector.running u).
    - unfold unity_connector.stop, unity_connector.update. rewrite Hu.
      by eexists.
    - exists u. unfold ret. f_equal. destruct w. cbn in *. by subst. }
  set (w1 := set_unity_connector _ w).
  unfold bind at 1. unfold bind at 1, opcua_connector.self at 1.
  assert (∃ o2,
            (if OpcUaConnector.connected (opcua_connector w1)
             then opcua_connector.disconnect else ret ()) w1
            = (Ok tt, set_opcua o2 w1)
            ∧ OpcUaConnector.connected o2 = false) as (o2 & -> & Hco2).
  { change (opcua_connector w1) with (opcua_connector w).
    destruct (OpcUaConnector.connected (opcua_connector w)) eqn:Hc.
    - destruct (opcua_disconnect_spec w1) as (sub & -> & _).
      eexists. split; [reflexivity|]. cbn. by rewrite Hc, (Hcl eq_refl).
    - exists (opcua_connector w). split; [|done].
      done. }
  set (w2 := set_opcua _ w1).
  unfold bind at 1, get_world at 1.
  change (db_connector w2) with (db_connector w).
  assert (serving_wf w2 ∧ statements (trace (env w2))
                          = statements (trace (env w))) as [Hs2 Hst2].
  { split; [|done]. split_and!.
    - by eexists.
    - subst w2. cbn. by rewrite Hco2.
    - intros d' Hd'. apply Hwf. exact Hd'.
    - intros d' Hd'. apply Hth. exact Hd'. }
  destruct (db_connector w) as [d|] eqn:Hd.
  2:{ exists w2. unfold db_connected.
      change (db_connector w2) with (db_connector w). by rewrite Hd. }
  destruct (DbConnector.connected d) eqn:Hc.
  2:{ exists w2. unfold db_connected.
      change (db_connector w2) with (db_connector w). by rewrite Hd, Hc. }
  assert (session_wf w2) as Hwf2 by (intros d' Hd'; apply Hwf; exact Hd').
  destruct (db_disconnect_post w2 d Hd Hwf2 (Hth d eq_refl))
    as (w3 & -> & Ho3 & Hu3 & Hc3 & (d3 & Hd3 & Hlt3) & Hct3 & Hst3).
  exists w3. split; [done|]. split; [|split; [done | by rewrite Hst3]].
  unfold serving_wf. split_and!.
  - rewrite Hu3. by eexists.
  - rewrite Ho3. subst w2. cbn. by rewrite Hco2.
  - intros d' Hd' Hc'. unfold db_connected in Hc3. rewrite Hd' in Hc3.
    congruence.
  - intros d' Hd'. rewrite Hd' in Hd3. injection Hd3 as ->.
    rewrite Hlt3, Hct3. by apply Hth.
Qed.

(** The end by a signal: the handler has disconnected storage before the
    [finally] block runs. *)
Lemma main_ends_by_signal (w : World) :
  serving_wf w →
  let w' := state_after (main_ends TerminationSignal) w in
  outcome (main_ends TerminationSignal) w = Ok (Exit 0)
  ∧ all_closed w'
  ∧ statements (trace (env w')) = statements (trace (env w)).
Proof.
  intros Hs w'. subst w'.
  unfold state_after, outcome, main_ends, try_finally, bind.
  destruct (signal_handler_post w Hs) as (w1 & -> & Hs1 & Hc1 & Hst1).
  unfold ret.
  destruct (main_finally_post w1 Hs1) as (w2 & -> & Hclosed & Hst2).
  cbn. rewrite Hc1, app_nil_r in Hst2. split_and!; [done|done|].
  by rewrite Hst2.
Qed.


(** ** The invariants of a serving gateway *)

Global Instance client_wf_kept_reflexive : Reflexive client_wf_kept.
Proof. intros w H. exact H. Qed.
Global Instance client_wf_kept_transitive : Transitive client_wf_kept.
Proof. intros w1 w2 w3 H12 H23 H1. apply H23, H12, H1. Qed.

Global Instance worker_wf_kept_reflexive : Reflexive worker_wf_kept.
Proof. intros w H. exact H. Qed.
Global Instance worker_wf_kept_transitive : Transitive worker_wf_kept.
Proof. intros w1 w2 w3 H12 H23 H1. apply H23, H12, H1. Qed.

Lemma untouched_client_wf_kept {A} (m : M A) :
  (∀ w, OpcUaConnector.connected (opcua_connector (state_after m w))
        = OpcUaConnector.connected (opcua_connector w)
        ∧ OpcUaConnector.client (opcua_connector (state_after m w))
          = OpcUaConnector.client (opcua_connector w)) →
  keeps client_wf_kept m.
Proof.
  intros Hm w Hwf. destruct (Hm w) as [Hco Hcl]. unfold client_wf.
  by rewrite Hco, Hcl.
Qed.

Lemma untouched_worker_wf_kept {A} (m : M A) :
  (∀ w, DbConnector.logging_thread <$> db_connector (state_after m w)
        = DbConnector.logging_thread <$> db_connector w) →
  keeps worker_wf_kept m.
Proof.
  intros Hm w Hwf d' Hd'. specialize (Hm w). rewrite Hd' in Hm.
  destruct (db_connector w) as [d|] eqn:Hd; [|done].
  injection Hm as ->. by apply Hwf.
Qed.

Lemma opcua_disconnect_client_wf_kept :
  keeps client_wf_kept opcua_connector.disconnect.
Proof.
  intros w Hwf. unfold state_after.
  destruct (opcua_disconnect_spec w) as (sub & -> & _).
  unfold client_wf. cbn.
  destruct (OpcUaConnector.connected (opcua_connector w)) eqn:Hc; [|done].
  by rewrite (Hwf Hc).
Qed.

Lemma opcua_connect_client_wf_kept :
  keeps client_wf_kept opcua_connector.connect.
Proof.
  intros w Hwf. unfold state_after.
  destruct (opcua_connect_spec w) as (sub & -> & _).
  unfold client_wf in *. cbn.
  destruct (certificates_ok (env w) && opc_connect_ok (env w)); [done|].
  cbn. destruct (OpcUaConnector.connected (opcua_connector w)) eqn:Hc;
    [|done].
  by rewrite (Hwf eq_refl).
Qed.

Lemma db_self_untouched w :
  state_after db_connector.self w = w.
Proof.
  unfold state_after, db_connector.self. by destruct (db_connector w).
Qed.

Lemma db_update_opcua (f : DbConnector.t → DbConnector.t) w :
  opcua_connector (state_after (db_connector.update f) w)
  = opcua_connector w.
Proof.
  unfold state_after, db_connector.update. by destruct (db_connector w).
Qed.

Lemma unity_self_untouched w :
  state_after unity_connector.self w = w.
Proof.
  unfold state_after, unity_connector.self. by destruct (unity_connector w).
Qed.

Lemma unity_update_frame (f : UnityConnector.t → UnityConnector.t) w :
  opcua_connector (state_after (unity_connector.update f) w)
  = opcua_connector w
  ∧ db_connector (state_after (unity_connector.update f) w)
    = db_connector w.
Proof.
  unfold state_after, unity_connector.update.
  by destruct (unity_connector w).
Qed.

(** Goes through a computation for the two invariants. *)
Ltac serving_step :=
  first
    [ apply opcua_disconnect_client_wf_kept
    | apply opcua_connect_client_wf_kept
    | match goal with
      | |- keeps client_wf_kept db_connector.self =>
          apply untouched_client_wf_kept; intros ?;
          by rewrite db_self_untouched
      | |- keeps worker_wf_kept db_connector.self =>
          apply untouched_worker_wf_kept; intros ?;
          by rewrite db_self_untouched
      | |- keeps client_wf_kept unity_connector.self =>
          apply untouched_client_wf_kept; intros ?;
          by rewrite unity_self_untouched
      | |- keeps worker_wf_kept unity_connector.self =>
          apply untouched_worker_wf_kept; intros ?;
          by rewrite unity_self_untouched
      | |- keeps client_wf_kept (db_connector.update _) =>
          apply untouched_client_wf_kept; intros ?;
          by rewrite db_update_opcua
      | |- keeps client_wf_kept (unity_connector.update ?f) =>
          apply untouched_client_wf_kept; intros w0;
          by rewrite (proj1 (unity_update_frame f w0))
      | |- keeps worker_wf_kept (unity_connector.update ?f) =>
          apply untouched_worker_wf_kept; intros w0;
          by rewrite (proj2 (unity_update_frame f w0))
      | |- keeps client_wf_kept (opcua_connector.update _) =>
          apply untouched_client_wf_kept; intros ?; done
      | |- keeps worker_wf_kept (opcua_connector.update _) =>
          apply untouched_worker_wf_kept; intros ?; done
      | |- keeps _ opcua_connector.self =>
          first [ apply untouched_client_wf_kept
                | apply untouched_worker_wf_kept ]; intros ?; done
      | |- keeps _ datetime_now =>
          first [ apply untouched_client_wf_kept
                | apply untouched_worker_wf_kept ]; intros ?; done
      | |- keeps _ (emit _) =>
          first [ apply untouched_client_wf_kept
                | apply untouched_worker_wf_kept ]; intros ?; done
      | |- keeps _ (time_sleep _) =>
          first [ apply untouched_client_wf_kept
                | apply untouched_worker_wf_kept ]; intros ?; done
      | |- keeps _ (modify (set_unity_connector _)) =>
          first [ apply untouched_client_wf_kept
                | apply untouched_worker_wf_kept ]; intros ?; done
      | |- keeps client_wf_kept (modify (set_db_connector _)) =>
          apply untouched_client_wf_kept; intros ?; done
      end
    | keeps_step
    | match goal with
      | |- keeps _ (match ?x with _ => _ end) => destruct x
      | |- keeps _ (let '(_, _) := ?x in _) => destruct x
      end ].

Ltac serving_auto := repeat serving_step.

(** *** The client of the protocol connector *)

Lemma db_session_client_wf_kept {A} (m : M A) :
  keeps same_but_session m → keeps client_wf_kept m.
Proof.
  apply keeps_weaken. intros w w' H Hwf. unfold client_wf.
  by rewrite (sbs_opcua _ _ H).
Qed.

Lemma invoke_client_wf_kept callback name value unit timestamp :
  keeps client_wf_kept (invoke callback name value unit timestamp).
Proof.
  apply untouched_client_wf_kept. intros w.
  by rewrite invoke_opcua.
Qed.

Lemma subscribe_to_nodes_client_wf_kept :
  keeps client_wf_kept (opcua_connector.subscribe_to_nodes invoke).
Proof.
  pose proof invoke_client_wf_kept.
  unfold opcua_connector.subscribe_to_nodes, opcua_connector.subscribe_node,
    opcua_connector._notify_callbacks, opcua_connector.store_latest.
  serving_auto.
Qed.

Lemma datachange_notification_client_wf_kept node val :
  keeps client_wf_kept
    (opcua_connector.datachange_notification invoke node val).
Proof.
  pose proof invoke_client_wf_kept.
  unfold opcua_connector.datachange_notification,
    opcua_connector._notify_callbacks, opcua_connector.store_latest.
  serving_auto.
Qed.

Lemma worker_turn_client_wf_kept interval :
  keeps client_wf_kept (db_connector.worker_turn interval).
Proof.
  assert (∀ n, keeps client_wf_kept (db_connector.interval_sleep n)) as Hsleep.
  { induction n as [|n IH]; cbn; serving_auto. }
  assert (keeps client_wf_kept db_connector.disconnect) as Hdis
    by apply db_session_client_wf_kept, disconnect_keeps_session.
  assert (keeps client_wf_kept db_connector.connect) as Hcon
    by apply db_session_client_wf_kept, connect_keeps_session.
  unfold db_connector.worker_turn, db_connector._log_current_values,
    db_connector.cursor_execute, db_connector.conn_commit,
    db_connector._try_reconnect.
  serving_auto.
Qed.

Lemma perform_client_wf_kept (a : Activity) : keeps client_wf_kept (perform a).
Proof.
  pose proof datachange_notification_client_wf_kept.
  destruct a as [node val|th interval|name|name hours_arg];
    unfold perform; [auto| | |].
  - intros w Hwf. apply (worker_turn_client_wf_kept interval (as_thread th w)).
    exact Hwf.
  - unfold unity_connector.get_value. serving_auto.
  - unfold unity_connector.get_history, db_connector.get_tag_history,
      db_connector.get_field_history.
    serving_auto.
Qed.

Lemma main_client_wf_kept database_enabled log_interval :
  keeps client_wf_kept (main database_enabled log_interval).
Proof.
  pose proof subscribe_to_nodes_client_wf_kept.
  assert (keeps client_wf_kept db_connector.disconnect) as Hdis
    by apply db_session_client_wf_kept, disconnect_keeps_session.
  assert (keeps client_wf_kept db_connector.connect) as Hcon
    by apply db_session_client_wf_kept, connect_keeps_session.
  unfold main, opcua_connector.add_value_callback, db_connector.config_value,
    db_connector.log_event, db_connector.cursor_execute,
    db_connector.conn_commit, unity_connector.set_db_connector,
    unity_connector.start, unity_connector.stop.
  unfold opcua_connector.add_value_callback.
  serving_auto.
Qed.

(** *** The worker thread *)

Lemma db_update_worker_wf_kept (f : DbConnector.t → DbConnector.t) :
  (∀ d, DbConnector.logging_thread (f d) = DbConnector.logging_thread d) →
  keeps worker_wf_kept (db_connector.update f).
Proof.
  intros Hf. apply untouched_worker_wf_kept. intros w.
  unfold state_after, db_connector.update.
  destruct (db_connector w) as [d|] eqn:Hd; cbn; [|by rewrite Hd].
  by rewrite Hf.
Qed.

(** A new worker thread is never the main thread. *)
Lemma _start_logging_thread_worker_wf_kept :
  keeps worker_wf_kept db_connector._start_logging_thread.
Proof.
  intros w Hwf d' Hd'. revert Hd'.
  unfold state_after, db_connector._start_logging_thread. unfold_db.
  destruct (db_connector w) as [d|] eqn:Hd; cbn;
    [|by intros; apply (Hwf d'); congruence].
  destruct (DbConnector.enabled d) as [[]|]; cbn;
    try (by intros Hd'; apply (Hwf d'); congruence).
  destruct (DbConnector.log_interval d); cbn; rewrite ?Hd; cbn.
  - intros [= <-]. cbn. discriminate.
  - intros Hd'. apply (Hwf d'); congruence.
Qed.

Lemma new_db_connector_worker_wf_kept enabled log_interval :
  keeps worker_wf_kept
    (modify (set_db_connector
               (Some (db_connector.__init__ enabled log_interval)))).
Proof. intros w _ d [= <-]. cbn. discriminate. Qed.

Ltac worker_auto :=
  repeat first
    [ apply _start_logging_thread_worker_wf_kept
    | apply new_db_connector_worker_wf_kept
    | apply db_update_worker_wf_kept; intros ?; reflexivity
    | serving_step ].

Lemma db_connect_worker_wf_kept : keeps worker_wf_kept db_connector.connect.
Proof.
  unfold db_connector.connect, db_connector._load_tag_mappings,
    db_connector.mariadb_connect, db_connector.config_value.
  worker_auto.
Qed.

Lemma db_disconnect_worker_wf_kept :
  keeps worker_wf_kept db_connector.disconnect.
Proof.
  unfold db_connector.disconnect, db_connector.conn_close,
    db_connector.thread_join, db_connector.thread_is_alive.
  worker_auto.
Qed.

Lemma invoke_worker_wf_kept callback name value unit timestamp :
  keeps worker_wf_kept (invoke callback name value unit timestamp).
Proof.
  destruct callback; unfold invoke, db_update_callback,
    unity_connector.on_value_update, db_connector.update_value;
    worker_auto.
Qed.

Lemma subscribe_to_nodes_worker_wf_kept :
  keeps worker_wf_kept (opcua_connector.subscribe_to_nodes invoke).
Proof.
  pose proof invoke_worker_wf_kept.
  unfold opcua_connector.subscribe_to_nodes, opcua_connector.subscribe_node,
    opcua_connector._notify_callbacks, opcua_connector.store_latest.
  worker_auto.
Qed.

Lemma datachange_notification_worker_wf_kept node val :
  keeps worker_wf_kept
    (opcua_connector.datachange_notification invoke node val).
Proof.
  pose proof invoke_worker_wf_kept.
  unfold opcua_connector.datachange_notification,
    opcua_connector._notify_callbacks, opcua_connector.store_latest.
  worker_auto.
Qed.

Lemma worker_turn_worker_wf_kept interval :
  keeps worker_wf_kept (db_connector.worker_turn interval).
Proof.
  assert (∀ n, keeps worker_wf_kept (db_connector.interval_sleep n)) as Hsleep.
  { induction n as [|n IH]; cbn; worker_auto. }
  pose proof db_connect_worker_wf_kept.
  pose proof db_disconnect_worker_wf_kept.
  unfold db_connector.worker_turn, db_connector._log_current_values,
    db_connector.cursor_execute, db_connector.conn_commit,
    db_connector._try_reconnect.
  worker_auto.
Qed.

Lemma perform_worker_wf_kept (a : Activity) : keeps worker_wf_kept (perform a).
Proof.
  pose proof datachange_notification_worker_wf_kept.
  destruct a as [node val|th interval|name|name hours_arg];
    unfold perform; [auto| | |].
  - intros w Hwf. apply (worker_turn_worker_wf_kept interval (as_thread th w)).
    exact Hwf.
  - unfold unity_connector.get_value. worker_auto.
  - unfold unity_connector.get_history, db_connector.get_tag_history,
      db_connector.get_field_history.
    worker_auto.
Qed.

Lemma main_worker_wf_kept database_enabled log_interval :
  keeps worker_wf_kept (main database_enabled log_interval).
Proof.
  pose proof subscribe_to_nodes_worker_wf_kept.
  pose proof db_connect_worker_wf_kept.
  pose proof db_disconnect_worker_wf_kept.
  unfold main, opcua_connector.connect, opcua_connector.disconnect,
    opcua_connector.add_value_callback, db_connector.config_value,
    db_connector.log_event, db_connector.cursor_execute,
    db_connector.conn_commit, unity_connector.set_db_connector,
    unity_connector.start, unity_connector.stop.
  unfold opcua_connector.add_value_callback.
  worker_auto.
Qed.

(** Every state the gateway reaches once it serves, seen from the main
    thread, is one [serving_wf] describes. *)
Lemma served_serving_wf (config : opcua_connector.ConfigParser) (e : Env)
    (database_enabled : option bool) (log_interval : option Z)
    (w0 w' : World) (activities : list Activity) :
  process_start config e = inr w0 →
  main database_enabled log_interval w0 = (Ok Serving, w') →
  serving_wf (as_thread MainThread (state_after (perform_all activities) w')).
Proof.
  intros Hstart Hmain.
  destruct (process_start_fresh config e w0 Hstart) as (Hcb & Hdb & Hun).
  destruct (process_start_shape config e w0 Hstart) as [nodes Hw0].
  destruct (main_serving database_enabled log_interval w0 w' Hcb Hdb Hun Hmain)
    as (_ & _ & Hsome).
  pose proof (served_gateway_wf database_enabled log_interval w0 w'
                activities Hdb Hmain) as [Hs _].
  assert (client_wf w' ∧ worker_wf w') as [Hc' Hw'].
  { pose proof (main_client_wf_kept database_enabled log_interval w0) as H1.
    pose proof (main_worker_wf_kept database_enabled log_interval w0) as H2.
    unfold state_after in H1, H2. rewrite Hmain in H1, H2. split.
    - apply H1. subst w0. intros H. discriminate.
    - apply H2. intros d Hd. congruence. }
  assert (keeps link_kept (perform_all activities)) as Hlink
    by (apply keeps_for_each; [apply _|apply _|apply perform_link_kept]).
  assert (keeps client_wf_kept (perform_all activities)) as Hclient
    by (apply keeps_for_each; [apply _|apply _|apply perform_client_wf_kept]).
  assert (keeps worker_wf_kept (perform_all activities)) as Hworker
    by (apply keeps_for_each; [apply _|apply _|apply perform_worker_wf_kept]).
  set (w := state_after (perform_all activities) w') in *.
  split_and!.
  - destruct (Hlink w') as [_ Hflag]. fold w in Hflag.
    change (unity_connector (as_thread MainThread w))
      with (unity_connector w).
    apply (fmap_is_Some UnityConnector.db). rewrite Hflag.
    by apply fmap_is_Some.
  - apply (Hclient w' Hc').
  - exact Hs.
  - apply (Hworker w' Hw').
Qed.

(** ** How a serving gateway ends *)

(** X22: a termination signal ends a serving gateway with the status 0
    and everything closed: no client and no session with the OPC-UA
    server, the HTTP surface stopped, storage disconnected.  The handler
    has disconnected storage before the [finally] block of [main] runs, so
    that the end of the service is never recorded in [event_log]: no
    statement at all is executed. *)
Theorem termination_signal_records_no_stop_event
    (config : opcua_connector.ConfigParser) (e : Env)
    (database_enabled : option bool) (log_interval : option Z)
    (w0 w' : World) (activities : list Activity) :
  process_start config e = inr w0 →
  main database_enabled log_interval w0 = (Ok Serving, w') →
  let w := as_thread MainThread (state_after (perform_all activities) w') in
  let w'' := state_after (main_ends TerminationSignal) w in
  outcome (main_ends TerminationSignal) w = Ok (Exit 0)
  ∧ all_closed w''
  ∧ statements (trace (env w'')) = statements (trace (env w)).
Proof.
  intros Hstart Hmain w.
  apply main_ends_by_signal.
  by apply (served_serving_wf config e database_enabled log_interval w0).
Qed.

Lemma termination_signal_records_no_stop_event_witness :
  let w0 := mkWorld (OpcUaConnector.mk [demo_node] false false [] false [] [])
              None None demo_start_env in
  let w' := state_after (main (Some true) (Some 2)) w0 in
  let w :=
    as_thread MainThread
      (state_after
         (perform_all [DataChange "ns=2;i=5" (PyStr "1.5");
                       WorkerTurn (LoggingThread 0) 2]) w') in
  let w'' := state_after (main_ends TerminationSignal) w in
  outcome (main_ends TerminationSignal) w = Ok (Exit 0)
  ∧ all_closed w''
  ∧ statements (trace (env w'')) = statements (trace (env w)).
Proof.
  apply (termination_signal_records_no_stop_event demo_config demo_start_env
           (Some true) (Some 2)
           (mkWorld (OpcUaConnector.mk [demo_node] false false [] false [] [])
              None None demo_start_env)
           (state_after (main (Some true) (Some 2))
              (mkWorld
                 (OpcUaConnector.mk [demo_node] false false [] false [] [])
                 None None demo_start_env))
           [DataChange "ns=2;i=5" (PyStr "1.5");
            WorkerTurn (LoggingThread 0) 2]).
  - vm_compute. reflexivity.
  - vm_compute. reflexivity.
Defined.



(** On the example: after a signal the trace ends with the wait for the
    worker and the closing of the connection; after a
    [KeyboardInterrupt] the stop event comes first. *)
Example how_the_example_ends :
  let w0 := mkWorld (OpcUaConnector.mk [demo_node] false false [] false [] [])
              None None demo_start_env in
  let w := as_thread MainThread (state_after (main (Some true) (Some 2)) w0) in
  drop (length (trace (env w)))
    (trace (env (state_after (main_ends TerminationSignal) w)))
  = [EJoin (LoggingThread 0); EDbClose]
  ∧ drop (length (trace (env w)))
      (trace (env (state_after (main_ends KeyboardInterrupt) w)))
    = [EExecute (fst stop_event) (snd stop_event); ECommit;
       EJoin (LoggingThread 0); EDbClose].
Proof. vm_compute. done. Qed.

(** ** The level of the log *)

(** What [upper] does to a character below 256: a letter of the ASCII
    alphabet becomes its capital, and nothing else becomes one. *)
Lemma upper_char_cases (c : ascii) :
  (logging_utils.upper_char c = [code (tolower c) - 32]
   ∧ 97 <= code (tolower c) <= 122)
  ∨ (logging_utils.upper_char c = [83; 83]
     ∧ ¬ (97 <= code (tolower c) <= 122))
  ∨ (∃ k, logging_utils.upper_char c = [k]
          ∧ ¬ (65 <= k <= 90)
          ∧ ¬ (97 <= code (tolower c) <= 122)).
Proof.
  destruct c as [[] [] [] [] [] [] [] []]; vm_compute;
    first [ left; split; [reflexivity | split; discriminate]
          | right; left; split; [reflexivity | intros [H1 H2]; auto]
          | right; right; eexists; split; [reflexivity|];
            split; intros [H1 H2]; auto ].
Qed.

Lemma code_inj (c1 c2 : ascii) : code c1 = code c2 → c1 = c2.
Proof.
  unfold code. intros H%N2Z.inj.
  by rewrite <- (ascii_N_embedding c1), <- (ascii_N_embedding c2), H.
Qed.

(** A text becomes a word of plain capitals exactly when its letters,
    made small, are those of the word. *)
Lemma str_upper_matches (l : list ascii) (K : list Z) :
  plain_capitals K = true →
  flat_map logging_utils.upper_char l = K
  ↔ map (fun c => code (tolower c)) l = map (fun k => k + 32) K.
Proof.
  revert K. induction l as [|c l IH]; intros K HK.
  - cbn. split; intros H; destruct K; done.
  - cbn [flat_map map].
    destruct K as [|k K].
    { split; [|done].
      destruct (upper_char_cases c) as [[-> _]|[[-> _]|(k0 & -> & _)]]; done. }
    cbn [plain_capitals] in HK.
    apply andb_prop in HK as [HK HK'].
    apply andb_prop in HK as [HK Hss].
    apply andb_prop in HK as [Hlo Hhi].
    apply Z.leb_le in Hlo, Hhi.
    specialize (IH K HK'). cbn [map].
    destruct (upper_char_cases c) as [[-> Hc]|[[-> Hc]|(k0 & -> & Hk0 & Hc)]].
    + cbn [app]. split.
      * intros [= Hk HKl]. apply IH in HKl. rewrite HKl. f_equal. lia.
      * intros [= Hk HKl]. apply IH in HKl. rewrite HKl. f_equal. lia.
    + cbn [app]. split.
      * intros [= Hk HKl]. subst k. destruct K as [|k' K]; [done|].
        injection HKl as Hk' _. subst k'. done.
      * intros [= Hk _]. lia.
    + cbn [app]. split.
      * intros [= Hk _]. lia.
      * intros [= Hk _]. lia.
Qed.

Lemma level_name_matches (key lowered : string) (s : string) :
  plain_capitals (logging_utils.code_points key) = true →
  map (fun k => k + 32) (logging_utils.code_points key)
  = logging_utils.code_points lowered →
  bool_decide (logging_utils.code_points key = logging_utils.str_upper s)
  = String.eqb (ascii_lower s) lowered.
Proof.
  intros Hkey Hlow. unfold logging_utils.str_upper.
  destruct (String.eqb_spec (ascii_lower s) lowered) as [Heq|Hne].
  - apply bool_decide_eq_true. symmetry.
    apply str_upper_matches; [done|]. rewrite Hlow, <- Heq.
    unfold logging_utils.code_points, ascii_lower.
    by rewrite list_ascii_of_string_of_list_ascii, map_map.
  - apply bool_decide_eq_false. intros Heq. apply Hne.
    symmetry in Heq. apply str_upper_matches in Heq; [|done].
    rewrite Hlow in Heq. unfold logging_utils.code_points in Heq.
    rewrite <- (map_map tolower code) in Heq.
    unfold ascii_lower.
    rewrite <- (string_of_list_ascii_of_string lowered). f_equal.
    revert Heq. generalize (map tolower (list_ascii_of_string s)).
    generalize (list_ascii_of_string lowered).
    intros l1 l2. revert l1.
    induction l2 as [|c2 l2 IH]; intros [|c1 l1]; cbn; try done.
    intros [= Hc Hl]. f_equal; [by apply code_inj | by apply IH].
Qed.

(** X24: [get_log_level] reads the five level names whatever their
    case, for a text of characters below 256, and gives [INFO] for every
    other text: an unknown name is not an error. *)
Theorem get_log_level_ignores_case (level_str : string) :
  logging_utils.get_log_level level_str = level_of_name level_str
  ∧ logging_utils.get_log_level level_str ∈ [10; 20; 30; 40; 50].
Proof.
  assert (logging_utils.get_log_level level_str = level_of_name level_str)
    as Heq.
  { unfold logging_utils.get_log_level, level_of_name, logging_utils.levels.
    cbn [find fst snd].
    rewrite (level_name_matches "DEBUG" "debug"),
      (level_name_matches "INFO" "info"),
      (level_name_matches "WARNING" "warning"),
      (level_name_matches "ERROR" "error"),
      (level_name_matches "CRITICAL" "critical") by reflexivity.
    repeat destruct (String.eqb _ _); reflexivity. }
  split; [exact Heq|]. rewrite Heq. unfold level_of_name.
  repeat destruct (String.eqb _ _); cbn; set_solver.
Qed.

Example get_log_level_examples :
  logging_utils.get_log_level "Debug" = 10
  ∧ logging_utils.get_log_level "WARNING" = 30
  ∧ logging_utils.get_log_level "critical" = 50
  ∧ logging_utils.get_log_level "verbose" = 20
  ∧ logging_utils.get_log_level "" = 20
  ∧ logging_utils.get_log_level " info" = 20.
Proof. vm_compute. done. Qed.

(** ** The default configuration of storage *)

(** X25: for a configuration without [DATABASE] section, [init_config]
    creates the section and writes the file, and the section it creates
    disables storage: the connector built from such a configuration reads
    [enabled] as [False], and its [connect] returns [False] without any
    attempt to reach the storage server.  A configuration that has the
    section is left as it is, and nothing is written. *)
Theorem default_configuration_disables_storage
    (config : opcua_connector.ConfigParser) (log_interval : option Z)
    (w : World) :
  db_connector w = Some (DbConnector_of_config config log_interval) →
  (config !! "DATABASE" = None →
   (∃ written, init_config config = (written, Some written)
               ∧ (∀ section, section ≠ "DATABASE" →
                             written !! section = config !! section)
               ∧ ∀ opt value, default_database_section !! opt = Some value →
                              ∃ options, written !! "DATABASE" = Some options
                                         ∧ options !! opt = Some value)
   ∧ DbConnector.enabled (DbConnector_of_config config log_interval)
     = Some false
   ∧ db_connector.connect w = (Ok false, w))
  ∧ (is_Some (config !! "DATABASE") → init_config config = (config, None)).
Proof.
  intros Hd. split.
  - intros Hnone.
    assert (DbConnector.enabled (DbConnector_of_config config log_interval)
            = Some false) as Hen.
    { unfold DbConnector_of_config, init_config, configparser.getboolean,
        configparser.get, configparser.get_option.
      unfold opcua_connector.ConfigParser in *.
      rewrite Hnone. cbv zeta.
      cbn [fst db_connector.__init__ DbConnector.enabled].
      rewrite lookup_insert_eq.
      change (configparser.optionxform "enabled") with "enabled".
      rewrite (lookup_union_Some_l _ _ "enabled" "false") by done.
      reflexivity. }
    split_and!.
    + unfold init_config. unfold opcua_connector.ConfigParser in *.
      rewrite Hnone. cbv zeta.
      eexists. split; [reflexivity|].
      split.
      * intros section Hne. by rewrite lookup_insert_ne.
      * intros opt value Hopt. eexists. rewrite lookup_insert_eq.
        split; [reflexivity|]. by apply lookup_union_Some_l.
    + exact Hen.
    + unfold db_connector.connect. unfold_db. rewrite Hd. cbn.
      cbn in Hen. by rewrite Hen.
  - intros [section Hsome]. unfold init_config.
    unfold opcua_connector.ConfigParser in *. by rewrite Hsome.
Qed.

Lemma default_configuration_disables_storage_witness :
  let config : opcua_connector.ConfigParser :=
    {[ "OPCUA" := {[ "server_url" := "opc.tcp://localhost:4840" ]} ]} in
  let w := mkWorld (demo_opcua [])
             (Some (DbConnector_of_config config (Some 60))) None
             demo_start_env in
  (config !! "DATABASE" = None →
   (∃ written, init_config config = (written, Some written)
               ∧ (∀ section, section ≠ "DATABASE" →
                             written !! section = config !! section)
               ∧ ∀ opt value, default_database_section !! opt = Some value →
                              ∃ options, written !! "DATABASE" = Some options
                                         ∧ options !! opt = Some value)
   ∧ DbConnector.enabled (DbConnector_of_config config (Some 60))
     = Some false
   ∧ db_connector.connect w = (Ok false, w))
  ∧ (is_Some (config !! "DATABASE") → init_config config = (config, None)).
Proof.
  apply (default_configuration_disables_storage
           {[ "OPCUA" := {[ "server_url" := "opc.tcp://localhost:4840" ]} ]}
           (Some 60)
           (mkWorld (demo_opcua [])
              (Some (DbConnector_of_config
                       {[ "OPCUA" :=
                            {[ "server_url" := "opc.tcp://localhost:4840" ]} ]}
                       (Some 60)))
              None demo_start_env)).
  reflexivity.
Defined.

(** ** An interval that does not read as an integer *)

Global Instance answers_kept_reflexive : Reflexive answers_kept.
Proof. intros w. apply same_answers_refl. Qed.
Global Instance answers_kept_transitive : Transitive answers_kept.
Proof. intros w1 w2 w3. apply same_answers_trans. Qed.











(** ** A cycle that passes *)

(** What a persistence cycle does when the storage server accepts the
    insert and the commit. *)
Lemma _log_current_values_committed (w : World) (d : DbConnector.t) :
  db_connector w = Some d →
  DbConnector.connected d = true →
  DbConnector.cursor d = true →
  DbConnector.conn d = true →
  insert_ok (env w) = true →
  commit_ok (env w) = true →
  let items :=
    mapped_items (DbConnector.current_values d)
      (DbConnector.opc_to_db_mapping d) in
  items ≠ [] →
  db_connector._log_current_values w
  = (Ok tt,
     set_env
       (set_trace
          (trace (env w)
           ++ [EExecute (fst (insert_of items)) (snd (insert_of items));
               ECommit])
          (env w)) w).
Proof.
  intros Hd Hc Hcur Hconn Hins Hcom items Hitems.
  assert (dict_is_empty (DbConnector.current_values d) = false) as Hne.
  { subst items. by destruct (DbConnector.current_values d). }
  unfold db_connector._log_current_values, bind at 1.
  unfold db_connector.self at 1. rewrite Hd, Hc, Hne.
  cbn [negb orb].
  rewrite collect_fields_spec. cbv zeta.
  change (mapped_items (DbConnector.current_values d)
            (DbConnector.opc_to_db_mapping d)) with items.
  clearbody items.
  destruct items as [|item items']; [done|].
  cbn [length fmap list_fmap Nat.leb].
  unfold try_except, db_connector.cursor_execute, db_connector.conn_commit.
  unfold_db. rewrite Hd. cbn. rewrite Hcur. cbn. rewrite ?Hd. cbn.
  rewrite Hins. cbn. rewrite ?Hd. cbn. rewrite Hconn. cbn. rewrite Hcom.
  cbn. unfold insert_of. cbn.
  rewrite <- app_assoc. cbn. by rewrite <- list_fmap_compose.
Qed.

(** X27: a persistence cycle that passes executes its insert, commits,
    and leaves the connector and its cache as they are: the values are
    not consumed, and the next cycle records the same row again. *)
Theorem cycle_records_the_same_row_again (w : World) (d : DbConnector.t) :
  db_connector w = Some d →
  DbConnector.connected d = true →
  DbConnector.cursor d = true →
  DbConnector.conn d = true →
  insert_ok (env w) = true →
  commit_ok (env w) = true →
  let items :=
    mapped_items (DbConnector.current_values d)
      (DbConnector.opc_to_db_mapping d) in
  items ≠ [] →
  let w1 := state_after db_connector._log_current_values w in
  let w2 := state_after db_connector._log_current_values w1 in
  outcome db_connector._log_current_values w = Ok tt
  ∧ db_connector w1 = Some d
  ∧ trace (env w1)
    = trace (env w)
      ++ [EExecute (fst (insert_of items)) (snd (insert_of items)); ECommit]
  ∧ statements (trace (env w2))
    = statements (trace (env w)) ++ [insert_of items; insert_of items].
Proof.
  intros Hd Hc Hcur Hconn Hins Hcom items Hitems w1 w2.
  subst w2 w1. unfold state_after, outcome.
  rewrite (_log_current_values_committed w d) by done. cbn [fst snd].
  rewrite (_log_current_values_committed _ d) by done.
  cbn [fst snd env set_env trace set_trace db_connector set_db_connector].
  fold items. split_and!; try done.
  rewrite !statements_app. cbn. rewrite <- app_assoc. cbn.
  reflexivity.
Qed.

Lemma cycle_records_the_same_row_again_witness :
  let cv := [("Temp1", Sample.mk (Some demo_value) "C" (Datetime 990))] in
  let w := demo_world [] cv in
  let d := demo_db cv in
  let items :=
    mapped_items (DbConnector.current_values d)
      (DbConnector.opc_to_db_mapping d) in
  let w1 := state_after db_connector._log_current_values w in
  let w2 := state_after db_connector._log_current_values w1 in
  outcome db_connector._log_current_values w = Ok tt
  ∧ db_connector w1 = Some d
  ∧ trace (env w1)
    = trace (env w)
      ++ [EExecute (fst (insert_of items)) (snd (insert_of items)); ECommit]
  ∧ statements (trace (env w2))
    = statements (trace (env w)) ++ [insert_of items; insert_of items].
Proof.
  apply (cycle_records_the_same_row_again
           (demo_world []
              [("Temp1", Sample.mk (Some demo_value) "C" (Datetime 990))])
           (demo_db
              [("Temp1", Sample.mk (Some demo_value) "C" (Datetime 990))]));
    try reflexivity.
  vm_compute. discriminate.
Defined.

(** ** The worker thread after [disconnect] *)

(** X28: once [disconnect] has been called from another thread, the
    worker thread ends at the next test of its loop: it returns without a
    cycle and without a pause, executes no statement, and is no longer
    alive. *)
Theorem worker_returns_after_disconnect (w : World) (d : DbConnector.t)
    (th : Thread) (turns : nat) (interval : Z) :
  db_connector w = Some d →
  DbConnector.logging_active d = true →
  DbConnector.logging_thread d = Some th →
  th ≠ current_thread (env w) →
  let w1 := as_thread th (state_after db_connector.disconnect w) in
  let w2 := state_after (db_connector._logging_worker turns interval) w1 in
  outcome (db_connector._logging_worker turns interval) w1
  = Ok db_connector.Returned
  ∧ (th ∉ alive (env w2))
  ∧ trace (env w2) = trace (env w1)
  ∧ statements (trace (env w2)) = statements (trace (env w))
  ∧ db_connected w2 = DbConnector.connected d && negb (DbConnector.conn d).
Proof.
  intros Hd Hla Hlt Hth w1 w2. subst w2 w1.
  assert (DbConnector.logging_active d = true →
          DbConnector.logging_thread d ≠ Some (current_thread (env w)))
    as Hth' by (intros _; rewrite Hlt; congruence).
  pose proof (f_equal snd (db_disconnect_spec w d Hd Hth')) as Hwd.
  cbn [snd] in Hwd.
  change (snd (db_connector.disconnect w))
    with (state_after db_connector.disconnect w) in Hwd.
  rewrite Hwd. clear Hwd.
  set (w1 := as_thread th _).
  unfold state_after, outcome.
  rewrite (_logging_worker_shutdown turns interval w1 _ eq_refl)
    by (cbn; by rewrite Hla, orb_true_r).
  cbn [fst snd]. unfold state_after, db_connector.thread_exit, modify.
  cbn. split_and!; try done.
  - intros [Hne _]%list_elem_of_filter. done.
  - rewrite Hlt, Hla. rewrite !statements_app.
    destruct (bool_decide (th ∈ alive (env w))), (DbConnector.conn d); cbn;
      by rewrite ?app_nil_r.
Qed.

Lemma worker_returns_after_disconnect_witness :
  let d := demo_db [("Temp1", Sample.mk (Some demo_value) "C" (Datetime 990))] in
  let w := demo_world []
             [("Temp1", Sample.mk (Some demo_value) "C" (Datetime 990))] in
  let th := LoggingThread 0 in
  let w1 := as_thread th (state_after db_connector.disconnect w) in
  let w2 := state_after (db_connector._logging_worker 3 2) w1 in
  outcome (db_connector._logging_worker 3 2) w1
  = Ok db_connector.Returned
  ∧ (th ∉ alive (env w2))
  ∧ trace (env w2) = trace (env w1)
  ∧ statements (trace (env w2)) = statements (trace (env w))
  ∧ db_connected w2 = DbConnector.connected d && negb (DbConnector.conn d).
Proof.
  apply (worker_returns_after_disconnect
           (demo_world []
              [("Temp1", Sample.mk (Some demo_value) "C" (Datetime 990))])
           (demo_db
              [("Temp1", Sample.mk (Some demo_value) "C" (Datetime 990))])
           (LoggingThread 0) 3 2); try reflexivity.
  discriminate.
Defined.

(** ** Building the protocol connector *)

Lemma config_get_option_failure (config : opcua_connector.ConfigParser)
    (options : gmap string string) (opt : string) (e : configparser.raised) :
  config !! "OPCUA" = Some options →
  configparser.optionxform opt = opt →
  option_failure options opt = Some e →
  opcua_connector.config_get config "OPCUA" opt
  = inl (opcua_connector.ConfigError e).
Proof.
  intros Hsection Hopt Hfail.
  unfold opcua_connector.config_get, configparser.get,
    configparser.get_option.
  unfold opcua_connector.ConfigParser in *. rewrite Hsection, Hopt.
  unfold option_failure in Hfail.
  destruct (options !! opt) as [value|]; [|by injection Hfail as <-].
  destruct (configparser.before_get "OPCUA" opt value options);
    [by injection Hfail as <- | done].
Qed.

Lemma config_get_option_read (config : opcua_connector.ConfigParser)
    (options : gmap string string) (opt : string) :
  config !! "OPCUA" = Some options →
  configparser.optionxform opt = opt →
  option_failure options opt = None →
  ∃ text, opcua_connector.config_get config "OPCUA" opt = inr text.
Proof.
  intros Hsection Hopt Hread.
  unfold opcua_connector.config_get, configparser.get,
    configparser.get_option.
  unfold opcua_connector.ConfigParser in *. rewrite Hsection, Hopt.
  unfold option_failure in Hread.
  destruct (options !! opt) as [value|]; [|done].
  destruct (configparser.before_get "OPCUA" opt value options);
    [done | by eexists].
Qed.

(** The registry loaded is the leading run of tags, all of which can be
    read. *)
Lemma load_nodes_loaded (section : gmap string string)
    (nodes : list NodeInfo.t) :
  opcua_connector.load_nodes section = inr nodes →
  ∃ k, (∀ i, (1 ≤ i ≤ k)%nat → readable section i)
       ∧ section !! opcua_connector.node_key (S k) "_id" = None
       ∧ nodes = node_at section <$> seq 1 k.
Proof.
  intros Hload.
  destruct (first_missing_node_id section) as (k & Hk & Hids & Hend).
  destruct (first_failure (readable section) k)
    as [Hrun|(j & Hj & Hrun & Hnot)].
  - exists k. split_and!; [done | done |].
    rewrite (load_nodes_run section k) in Hload by done.
    by injection Hload as <-.
  - assert (Hid : is_Some (section !! opcua_connector.node_key (S j) "_id"))
      by (apply Hids; lia).
    destruct (readable_or_read_failure section (S j) Hid)
      as [?|[err Hfail]]; [done|].
    rewrite (load_nodes_read_failure section (S j) err) in Hload;
      [discriminate | lia | intros i Hi; apply Hrun; lia | done].
Qed.

(** An index at which reading fails after a run of readable indexes lies
    within the section. *)
Lemma read_failure_bound (section : gmap string string) (j : nat)
    (err : opcua_connector.init_error) :
  (∀ i, (1 ≤ i < j)%nat → readable section i) →
  read_failure section j err →
  (j ≤ size section)%nat.
Proof.
  intros Hrun Hfail. apply (consecutive_ids_bound section 1).
  intros i Hi. apply shown_is_Some.
  destruct (decide (i = j)) as [->|Hne].
  - destruct Hfail as [(e & -> & _)|[[node_id ->] _]]; by eexists.
  - destruct (Hrun i) as ([node_id ->] & _); [lia | by eexists].
Qed.

(** X29: the constructor of the protocol connector fails at the first
    thing it cannot read, in the order it reads: the section [OPCUA], then
    its options [server_url], [application_uri], [security_policy] and
    [security_mode] (an option fails when it is missing or when its text
    does not interpolate), then the section [MONITORING], then the tags,
    index by index.  The connector it returns is not connected, without
    client, subscription, handles, cached values or listeners, and its
    registry is the leading run of tags, all of which could be read. *)
Theorem opcua_init_fails_in_reading_order
    (config : opcua_connector.ConfigParser) :
  (config !! "OPCUA" = None →
   opcua_connector.__init__ config
   = inl (opcua_connector.ConfigError
            (configparser.NoSectionError "OPCUA")))
  ∧ (∀ options earlier opt later e,
       config !! "OPCUA" = Some options →
       required_options = earlier ++ opt :: later →
       Forall (fun o => option_failure options o = None) earlier →
       option_failure options opt = Some e →
       opcua_connector.__init__ config
       = inl (opcua_connector.ConfigError e))
  ∧ (∀ options,
       config !! "OPCUA" = Some options →
       Forall (fun o => option_failure options o = None) required_options →
       (config !! "MONITORING" = None →
        opcua_connector.__init__ config
        = inl (opcua_connector.SectionKeyError "MONITORING"))
       ∧ ∀ section j err,
           config !! "MONITORING" = Some section →
           (1 ≤ j)%nat →
           (∀ i, (1 ≤ i < j)%nat → readable section i) →
           read_failure section j err →
           opcua_connector.__init__ config = inl err)
  ∧ (∀ o,
       opcua_connector.__init__ config = inr o →
       ∃ options section k,
         config !! "OPCUA" = Some options
         ∧ Forall (fun o => option_failure options o = None)
             required_options
         ∧ config !! "MONITORING" = Some section
         ∧ (∀ i, (1 ≤ i ≤ k)%nat → readable section i)
         ∧ section !! opcua_connector.node_key (S k) "_id" = None
         ∧ o = OpcUaConnector.mk (node_at section <$> seq 1 k)
                 false false [] false [] []).
Proof.
  split_and!.
  - intros Hnone. unfold opcua_connector.__init__,
      opcua_connector.config_get, configparser.get.
    unfold opcua_connector.ConfigParser in *. by rewrite Hnone.
  - intros options earlier opt later e Hsection Hsplit Hread Hfail.
    unfold required_options in Hsplit. unfold opcua_connector.__init__.
    destruct earlier as [|o1 [|o2 [|o3 [|o4 earlier]]]];
      simplify_eq/=;
      repeat match goal with
             | H : Forall _ (_ :: _) |- _ =>
                 apply Forall_cons in H as [? H]
             end;
      repeat match goal with
             | H : option_failure options ?o = None |- _ =>
                 destruct (config_get_option_read config options o Hsection
                             eq_refl H) as [? ->]; clear H
             end;
      try (by rewrite (config_get_option_failure config options _ e)).
    by destruct earlier.
  - intros options Hsection Hread. unfold required_options in Hread.
    repeat match goal with
           | H : Forall _ (_ :: _) |- _ => apply Forall_cons in H as [? H]
           end.
    assert (Hinit : opcua_connector.__init__ config
                    = match config !! "MONITORING" with
                      | None =>
                          inl (opcua_connector.SectionKeyError "MONITORING")
                      | Some section =>
                          match opcua_connector.load_nodes section with
                          | inl err => inl err
                          | inr nodes =>
                              inr (OpcUaConnector.mk nodes
                                     false false [] false [] [])
                          end
                      end).
    { unfold opcua_connector.__init__.
      repeat match goal with
             | H : option_failure options ?o = None |- _ =>
                 destruct (config_get_option_read config options o Hsection
                             eq_refl H) as [? ->]; clear H
             end.
      done. }
    split.
    + intros Hnone. rewrite Hinit.
      unfold opcua_connector.ConfigParser in *. by rewrite Hnone.
    + intros section j err Hmon Hj Hrun Hfail. rewrite Hinit.
      unfold opcua_connector.ConfigParser in *. rewrite Hmon.
      rewrite (load_nodes_read_failure section j err); [done | | done | done].
      split; [done|]. by apply (read_failure_bound section j err).
  - intros o Hinit. unfold opcua_connector.__init__ in Hinit.
    destruct (config !! "OPCUA") as [options|] eqn:Hsection; last first.
    { unfold opcua_connector.config_get, configparser.get in Hinit.
      unfold opcua_connector.ConfigParser in *.
      by rewrite Hsection in Hinit. }
    assert (Hread : ∀ opt text,
              configparser.optionxform opt = opt →
              opcua_connector.config_get config "OPCUA" opt = inr text →
              option_failure options opt = None).
    { intros opt text Hopt Hget.
      destruct (option_failure options opt) as [e|] eqn:Hfail; [|done].
      rewrite (config_get_option_failure config options opt e) in Hget
        by done.
      discriminate. }
    destruct (opcua_connector.config_get config "OPCUA" "server_url")
      eqn:H1; [discriminate|].
    destruct (opcua_connector.config_get config "OPCUA" "application_uri")
      eqn:H2; [discriminate|].
    destruct (opcua_connector.config_get config "OPCUA" "security_policy")
      eqn:H3; [discriminate|].
    destruct (opcua_connector.config_get config "OPCUA" "security_mode")
      eqn:H4; [discriminate|].
    destruct (config !! "MONITORING") as [section|] eqn:Hmon;
      [|discriminate].
    destruct (opcua_connector.load_nodes section) as [err|nodes] eqn:Hload;
      [discriminate|].
    injection Hinit as <-.
    destruct (load_nodes_loaded section nodes Hload)
      as (k & Hrun & Hend & ->).
    exists options, section, k. split_and!; try done.
    unfold required_options.
    repeat constructor; (eapply Hread; [reflexivity | eassumption]).
Qed.
